(** * The action-loop engine of the launch agents

    A shallow embedding of
      - src/launch/git_launch/utilities/llm.py   (the oracle client and its retry policy),
      - src/launch/git_launch/agent/state.py     (the agent state and [auto_catch]),
      - src/launch/git_launch/agent/verify.py    (the verify grammar and loop),
      - src/launch/launch/agent/setup.py         (the setup grammar and loop),
    followed by the properties of the engine's specification. *)

From Stdlib Require Import Bool Arith ZArith QArith Qminmax Lia Lqa List Ascii String.
From Stdlib Require Import Decimal DecimalNat DecimalPos DecimalN DecimalString.
Import ListNotations.

Set Implicit Arguments.

Close Scope Q_scope.
Local Open Scope string_scope.
Local Open Scope list_scope.
Local Open Scope nat_scope.

(* ================================================================== *)
(** * Python strings *)
(* ================================================================== *)

(** A Python [str] is modelled by a [string]; a character is a code point
    below 256.  Only the operations the agents use are embedded. *)
Module PyStr.

(** [s[n:]] *)
Fixpoint drop (n : nat) (s : string) : string :=
  match n, s with
  | O, _ => s
  | S _, EmptyString => EmptyString
  | S n', String _ s' => drop n' s'
  end.

(** [s.startswith(p)] *)
Fixpoint startswith (p s : string) : bool :=
  match p, s with
  | EmptyString, _ => true
  | String _ _, EmptyString => false
  | String a p', String b s' => Ascii.eqb a b && startswith p' s'
  end.

(** [sub in s] *)
Fixpoint contains (sub s : string) : bool :=
  startswith sub s ||
  match s with
  | EmptyString => false
  | String _ s' => contains sub s'
  end.

(** [s.partition(sep)], as [Some (before, after)] at the first occurrence
    of [sep] and [None] when there is none. *)
Fixpoint partition (sep s : string) : option (string * string) :=
  if startswith sep s then Some (EmptyString, drop (String.length sep) s)
  else match s with
       | EmptyString => None
       | String c s' =>
           match partition sep s' with
           | Some (b, a) => Some (String c b, a)
           | None => None
           end
       end.

(** [s.split(sep)] for a non-empty [sep]: cut at the first occurrence and
    go on in what follows it.  The recursion is on what follows, which is
    shorter than [s]; [fuel] bounds it. *)
Fixpoint split_fuel (fuel : nat) (sep s : string) : list string :=
  match partition sep s with
  | None => [s]
  | Some (b, a) =>
      match fuel with
      | O => [s]
      | S f => b :: split_fuel f sep a
      end
  end.

Definition split (sep s : string) : list string :=
  split_fuel (String.length s) sep s.

(** [str.isspace] on one character: the code points below 256 that Python
    strips. *)
Definition isspace (c : ascii) : bool :=
  let n := nat_of_ascii c in
  (((9 <=? n) && (n <=? 13)) || ((28 <=? n) && (n <=? 32))
   || (n =? 133) || (n =? 160))%nat.

Fixpoint lstrip (s : string) : string :=
  match s with
  | EmptyString => EmptyString
  | String c s' => if isspace c then lstrip s' else s
  end.

Fixpoint rstrip (s : string) : string :=
  match s with
  | EmptyString => EmptyString
  | String c s' =>
      match rstrip s' with
      | EmptyString => if isspace c then EmptyString else String c EmptyString
      | r => String c r
      end
  end.

(** [s.strip()] *)
Definition strip (s : string) : string := rstrip (lstrip s).

(** [str.lower] on one character: A-Z and the capital letters of the
    upper half of the table (all of 192..222 but the multiplication sign). *)
Definition lower_char (c : ascii) : ascii :=
  let n := nat_of_ascii c in
  if (((65 <=? n) && (n <=? 90))
      || ((192 <=? n) && (n <=? 222) && negb (n =? 215)))%nat
  then ascii_of_nat (n + 32) else c.

(** [s.lower()] *)
Fixpoint lower (s : string) : string :=
  match s with
  | EmptyString => EmptyString
  | String c s' => String (lower_char c) (lower s')
  end.

(** [sep.join(l)] *)
Definition join (sep : string) (l : list string) : string :=
  String.concat sep l.

(** Truthiness of an optional string: [None] and [""] are falsy. *)
Definition truthy (o : option string) : bool :=
  match o with
  | Some (String _ _) => true
  | _ => false
  end.

(** Whether character [c] occurs in [s]. *)
Fixpoint char_in (c : ascii) (s : string) : bool :=
  match s with
  | EmptyString => false
  | String d s' => Ascii.eqb c d || char_in c s'
  end.

(** A separator whose first character does not occur again in it: two
    occurrences of such a separator never overlap. *)
Definition own_head (sep : string) : bool :=
  match sep with
  | EmptyString => false
  | String c t => negb (char_in c t)
  end.

(** Two tags differ at a place both have. *)
Fixpoint clash (p q : string) : bool :=
  match p, q with
  | String a p', String b q' => negb (Ascii.eqb a b) || clash p' q'
  | _, _ => false
  end.

End PyStr.

(* ================================================================== *)
(** * Exceptions, outcomes and the loop monad *)
(* ================================================================== *)

(** The exceptions the embedded code raises itself, the error of the retry
    wrapper, and the exceptions of the collaborators (oracle, session,
    search tool).  A collaborator's exception records whether its class
    derives from [Exception]: [except Exception] does not catch the others
    (KeyboardInterrupt, SystemExit). *)
Inductive exn : Type :=
| TimeoutError (msg : string)
| AttributeError (msg : string)
| IndexError (msg : string)
| TypeError (msg : string)
| RetryError (last : exn)
| Foreign (name : string) (is_Exception : bool).

Definition derives_Exception (e : exn) : bool :=
  match e with
  | Foreign _ b => b
  | _ => true
  end.

(** What a call does: it returns a value or raises. *)
Inductive outcome (A : Type) : Type :=
| Return (a : A)
| Raise (e : exn).

Arguments Return {A} a.
Arguments Raise {A} e.

(** [l[i]] on a list, with Python's IndexError. *)
Definition subscript {A : Type} (l : list A) (i : nat) : outcome A :=
  match nth_error l i with
  | Some a => Return a
  | None => Raise (IndexError "list index out of range")
  end.

(** [l[-n:]] for [n > 0] *)
Definition last_n {A : Type} (n : nat) (l : list A) : list A :=
  skipn (List.length l - n) l.

(** Code that reads and writes local variables [S] and may raise: the state
    at the point of the raise is kept, so that what happened before it can
    be observed. *)
Definition M (S A : Type) : Type := S -> S * outcome A.

Definition ret {S A : Type} (a : A) : M S A := fun s => (s, Return a).

Definition raise {S A : Type} (e : exn) : M S A := fun s => (s, Raise e).

Definition bind {S A B : Type} (m : M S A) (k : A -> M S B) : M S B :=
  fun s =>
    match m s with
    | (s', Return a) => k a s'
    | (s', Raise e) => (s', Raise e)
    end.

Definition get {S : Type} : M S S := fun s => (s, Return s).

Definition modify {S : Type} (f : S -> S) : M S unit :=
  fun s => (f s, Return tt).

Definition lift {S A : Type} (o : outcome A) : M S A := fun s => (s, o).

Declare Scope loop_scope.
Delimit Scope loop_scope with loop.
Notation "x <- m ;; k" := (bind m (fun x => k))
  (at level 61, m at next level, right associativity) : loop_scope.
Notation "m ;; k" := (bind m (fun _ => k))
  (at level 61, right associativity) : loop_scope.

(** How one pass through a loop body ends. *)
Inductive control : Type := Continue | Break.

(** [while cond: body].  The loops of the agents are bounded by their step
    counter; [fuel] is the bound, and [None] is a loop that would go on
    beyond it. *)
Fixpoint while {S : Type} (fuel : nat) (cond : S -> bool) (body : M S control)
  (s : S) : option (S * outcome unit) :=
  if cond s then
    match fuel with
    | O => None
    | Datatypes.S f =>
        match body s with
        | (s', Return Continue) => while f cond body s'
        | (s', Return Break) => Some (s', Return tt)
        | (s', Raise e) => Some (s', Raise e)
        end
    end
  else Some (s, Return tt).

(** state.py:129-149, [auto_catch]: the wrapper's [try ... except Exception
    as e: return {"exception": e}] around the call of the wrapped function.
    The wrapper returns what the function returns, or the one-key update. *)
Inductive caught (A : Type) : Type :=
| Update (a : A)
| ExceptionUpdate (e : exn).

Arguments Update {A} a.
Arguments ExceptionUpdate {A} e.

Definition auto_catch {A : Type} (r : outcome A) : outcome (caught A) :=
  match r with
  | Return a => Return (Update a)
  | Raise e =>
      if derives_Exception e then Return (ExceptionUpdate e) else Raise e
  end.

(* ================================================================== *)
(** * Messages, the collaborators and the agent state *)
(* ================================================================== *)

Inductive role : Type := system | human | ai.

Record message : Type := Message { msg_role : role; msg_content : string }.

Definition SystemMessage (c : string) : message := Message system c.
Definition HumanMessage (c : string) : message := Message human c.
Definition AIMessage (c : string) : message := Message ai c.

(** state.py:25-66, the keys of [AgentState] that the two loops read. *)
Record AgentState (Sess : Type) : Type := {
  exception : option exn;
  session : option Sess;
  verify_messages : list message;
  setup_commands : list string;
  start_time : option Q;
  trials : Z
}.

(** What lies outside the loops.  The oracle and the search tool answer by
    the number of oracle calls made so far in the loop, the clock by the
    number of readings; the session is passed along explicitly.  The four
    instruction texts are the formatted [system_msg] and [ReAct_prompt] of
    each loop ([ReAct_prompt] and the language handlers are not among the
    sources). *)
Record World : Type := {
  Session : Type;
  llm_invoke : nat -> list message -> outcome string;
  send_command : Session -> string -> Session * outcome string;
  search_invoke : nat -> string -> outcome string;
  time_time : nat -> Q;
  setup_system_text : AgentState Session -> string;
  setup_task_text : AgentState Session -> string;
  verify_system_text : AgentState Session -> string;
  verify_task_text : AgentState Session -> string
}.

Definition nl : string := String (ascii_of_nat 10) EmptyString.

(* ================================================================== *)
(** * llm.py: the oracle client *)
(* ================================================================== *)

Module LLM.

(** [retry], [stop_after_attempt] and [wait_exponential_jitter] come from
    the tenacity library; llm.py fixes their parameters.  They are embedded
    as the library documents them. *)

(** What can be seen of one call of [LLMProvider.invoke]: the attempts on
    the wrapped model and the sleeps between them, in order. *)
Inductive event : Type :=
| Attempt (attempt_number : nat)
| Sleep (seconds : Q).

(** [stop_after_attempt(max_attempt_number)] *)
Definition stop_after_attempt (max_attempt_number attempt_number : nat) : bool :=
  max_attempt_number <=? attempt_number.

(** [wait_exponential_jitter(initial, max, jitter)] with the default base 2:
    [min(initial * 2 ** (attempt_number - 1) + uniform(0, jitter), max)],
    not below 0.  [u] is the draw of [random()] in [uniform], between 0 and
    1; times are rationals. *)
Definition wait_exponential_jitter (initial max jitter : Q)
  (attempt_number : nat) (u : Q) : Q :=
  Qmax 0
    (Qmin (initial * inject_Z (2 ^ Z.of_nat (attempt_number - 1))
             + jitter * u)%Q
          max).

Section Retrying.

Variable A : Type.

(** the wrapped call at its [k]-th attempt, counted from 1 *)
Variable fn : nat -> outcome A.

(** the draw of [random()] for the wait after attempt [k] *)
Variable random : nat -> Q.

Variable stop : nat -> bool.
Variable wait : nat -> Q -> Q.

(** The loop of the [retry] decorator: call; on an exception that derives
    from [Exception] (the default retry condition) stop with [RetryError]
    when [stop] says so, otherwise sleep for [wait] and call again.  Any
    other outcome is the caller's. *)
Fixpoint retrying (fuel : nat) (attempt_number : nat) (seen : list event)
  : option (list event * outcome A) :=
  match fuel with
  | O => None
  | S f =>
      let seen := seen ++ [Attempt attempt_number] in
      match fn attempt_number with
      | Return a => Some (seen, Return a)
      | Raise e =>
          if negb (derives_Exception e) then Some (seen, Raise e)
          else if stop attempt_number then Some (seen, Raise (RetryError e))
          else retrying f (S attempt_number)
                 (seen ++ [Sleep (wait attempt_number (random attempt_number))])
      end
  end.

End Retrying.

(** llm.py:76-91, [LLMProvider.invoke]: [llm_instance.invoke] under
    [retry(stop=stop_after_attempt(5),
           wait=wait_exponential_jitter(initial=5, max=120, jitter=3))].
    The logging wrapper around it hands the response through unchanged and
    is left out.  Five attempts are all the loop can make, so 5 is fuel
    enough ([RetryFacts.retrying_trace]). *)
Definition invoke {A : Type} (llm_instance_invoke : nat -> outcome A)
  (random : nat -> Q) : option (list event * outcome A) :=
  retrying llm_instance_invoke random
    (stop_after_attempt 5)
    (wait_exponential_jitter 5 120 3)
    5 1 [].

(** The trace of a call that made [n] attempts, as the decorator's
    parameters prescribe it: attempt 1 at once, then before each further
    attempt [k + 1] a sleep of the wait computed after attempt [k]. *)
Fixpoint schedule_from (random : nat -> Q) (k n : nat) : list event :=
  match n with
  | O => []
  | S n' =>
      Sleep (wait_exponential_jitter 5 120 3 k (random k))
        :: Attempt (S k) :: schedule_from random (S k) n'
  end.

Definition schedule (random : nat -> Q) (n : nat) : list event :=
  Attempt 1 :: schedule_from random 1 (n - 1).

Definition attempts (t : list event) : nat :=
  List.length (filter (fun e => match e with Attempt _ => true | _ => false end) t).

End LLM.

(* ================================================================== *)
(** * verify.py: the verify grammar and loop *)
(* ================================================================== *)

Module Verify.

(** verify.py:40-55 *)
Inductive action_kind : Type := command | issue.

Record VerifyAction : Type := { action : action_kind; args : string }.

(** [VerifyAction.__doc__] *)
Definition VerifyAction_doc : string := "
    Command: run a command in the bash, reply with following format, your command should not require sudo or interactive input:
        <command>...</command>
        e.g. run pytest with detailed output turned on: <command>pytest -rA</command>
        e.g. <command>tox -- -rA</command>
    Issue: stop the verify loop once you think the setup is complete, and reply with the issue of the setup:
        <issue>...</issue>
        e.g. <issue>some dependency is missing, run `pytest` failed</issue>
        e.g. <issue>None</issue> if you think the setup is correct (remember to tolerate a few test cases failures as long as most tests pass)
    ".

(** verify.py:58-61.  The model has the one field [content]; the keyword
    [success] that the constructor calls below pass is not a field and is
    dropped. *)
Record VerifyObservation : Type := { content : string }.

(** verify.py:64-81 *)
Definition parse_verify_action (response : string) : outcome (option VerifyAction) :=
  if PyStr.contains "<command>" response then
    match subscript (PyStr.split "<command>" response) 1 with
    | Raise e => Raise e
    | Return after =>
        match subscript (PyStr.split "</command>" after) 0 with
        | Raise e => Raise e
        | Return inner =>
            Return (Some {| action := command; args := PyStr.strip inner |})
        end
    end
  else if PyStr.contains "<issue>" response then
    match subscript (PyStr.split "<issue>" response) 1 with
    | Raise e => Raise e
    | Return after =>
        match subscript (PyStr.split "</issue>" after) 0 with
        | Raise e => Raise e
        | Return inner =>
            Return (Some {| action := issue;
                            args := PyStr.lower (PyStr.strip inner) |})
        end
    end
  else Return None.

Definition clarification : string :=
  "Please using following format after `Action: ` to make a valid action choice:"
  ++ nl ++ VerifyAction_doc ++ nl.

(** verify.py:166-167, for a reasoning model *)
Definition drop_reasoning (response : string) : outcome string :=
  if PyStr.contains "<think>" response
  then subscript (PyStr.split "</think>" response) 1
  else Return response.

Section Loop.

Variable W : World.

(** verify.py:84-110.  The session is mutated by [send_command]; it comes
    back with the observation.  [state["session"]] may be [None]. *)
Definition observation_for_verify_action (a : option VerifyAction)
  (sess : option (Session W))
  : option (Session W) * outcome VerifyObservation :=
  match a with
  | None => (sess, Return {| content := clarification |})
  | Some a =>
      match action a with
      | command =>
          match sess with
          | None =>
              (sess, Raise (AttributeError
                 "'NoneType' object has no attribute 'send_command'"))
          | Some s =>
              match send_command W s (args a) with
              | (s', Return text) => (Some s', Return {| content := text |})
              | (s', Raise e) => (Some s', Raise e)
              end
          end
      | issue =>
          if String.eqb (args a) "none"
          then (sess, Return {| content := "" |})
          else (sess, Return {| content := args a |})
      end
  end.

Definition VERIFY_CONVERSATION_WINDOW : nat := 10.

(** The local variables of [verify], and [calls]: the inputs of the oracle
    calls made so far, oldest first (not a variable of the code). *)
Record locals : Type := {
  messages : list message;
  commands : list string;
  step : Z;
  success : bool;
  issue_text : option string;
  sess : option (Session W);
  calls : list (list message)
}.

Definition with_messages (f : list message -> list message) (l : locals) :=
  {| messages := f (messages l); commands := commands l; step := step l;
     success := success l; issue_text := issue_text l; sess := sess l;
     calls := calls l |}.

Definition with_commands (f : list string -> list string) (l : locals) :=
  {| messages := messages l; commands := f (commands l); step := step l;
     success := success l; issue_text := issue_text l; sess := sess l;
     calls := calls l |}.

Definition with_step (f : Z -> Z) (l : locals) :=
  {| messages := messages l; commands := commands l; step := f (step l);
     success := success l; issue_text := issue_text l; sess := sess l;
     calls := calls l |}.

Definition with_success (b : bool) (l : locals) :=
  {| messages := messages l; commands := commands l; step := step l;
     success := b; issue_text := issue_text l; sess := sess l;
     calls := calls l |}.

Definition with_issue (i : option string) (l : locals) :=
  {| messages := messages l; commands := commands l; step := step l;
     success := success l; issue_text := i; sess := sess l;
     calls := calls l |}.

Definition with_sess (s : option (Session W)) (l : locals) :=
  {| messages := messages l; commands := commands l; step := step l;
     success := success l; issue_text := issue_text l; sess := s;
     calls := calls l |}.

Definition with_call (input : list message) (l : locals) :=
  {| messages := messages l; commands := commands l; step := step l;
     success := success l; issue_text := issue_text l; sess := sess l;
     calls := calls l ++ [input] |}.

(** verify.py:158-163 *)
Definition input_messages (prefix_messages : nat) (msgs : list message)
  : list message :=
  if List.length msgs <? VERIFY_CONVERSATION_WINDOW + prefix_messages
  then msgs
  else firstn prefix_messages msgs ++ last_n VERIFY_CONVERSATION_WINDOW msgs.

(** [llm.invoke(input)]: the call is recorded, then answered. *)
Definition invoke_llm (input : list message) : M locals string :=
  fun l => (with_call input l, llm_invoke W (List.length (calls l)) input).

(** [observation_for_verify_action(action, session)] on the loop's
    session. *)
Definition observe (a : option VerifyAction) : M locals VerifyObservation :=
  fun l =>
    let (s', o) := observation_for_verify_action a (sess l) in
    (with_sess s' l, o).

(** verify.py:156-186, one pass through the body of the loop. *)
Definition body (prefix_messages : nat) : M locals control :=
  (modify (with_step (fun s => s + 1)%Z) ;;
   l <- get ;;
   response <- invoke_llm (input_messages prefix_messages (messages l)) ;;
   response <- lift (drop_reasoning response) ;;
   modify (with_messages (fun m => m ++ [AIMessage response])) ;;
   parsed <- lift (parse_verify_action response) ;;
   a <- match parsed with
        | Some a => ret a
        | None =>
            raise (AttributeError
                     "'NoneType' object has no attribute 'action'")
        end ;;
   match action a with
   | command => modify (with_commands (fun c => c ++ [args a]))
   | issue => ret tt
   end ;;
   observation <- observe parsed ;;
   modify (with_messages
             (fun m => m ++ [HumanMessage
                               ("Observation:" ++ nl ++ content observation)])) ;;
   match action a with
   | issue =>
       if String.eqb (content observation) ""
       then (modify (with_success true) ;; ret Break)
       else (modify (with_issue (Some (content observation))) ;; ret Break)
   | command => ret Continue
   end)%loop.

(** verify.py:190-198, the returned update. *)
Record result : Type := {
  r_messages : list message;
  r_verify_messages : list message;
  r_test_commands : list string;
  r_commands : list string;
  r_trials : Z;
  r_success : bool;
  r_issue : option string
}.

(** verify.py:136-149, the messages the loop starts from. *)
Definition prefix (state : AgentState (Session W)) : list message :=
  [SystemMessage (verify_system_text W state);
   HumanMessage (verify_task_text W state)].

(** verify.py:150-154, the locals when the loop is entered. *)
Definition entry (state : AgentState (Session W)) : locals :=
  {| messages := prefix state;
     commands := [];
     step := 0%Z;
     success := false;
     issue_text := None;
     sess := session state;
     calls := [] |}.

(** verify.py:117-198 without the decorator: the locals at the end, and
    what the call does.  With [state["exception"]] set nothing runs. *)
Definition verify_call (max_steps : Z) (state : AgentState (Session W))
  : option (locals * outcome result) :=
  match exception state with
  | Some e =>
      Some ({| messages := []; commands := []; step := 0%Z; success := false;
               issue_text := None; sess := session state; calls := [] |},
            Raise e)
  | None =>
      let prefix_messages := List.length (prefix state) in
      match while (Z.to_nat max_steps)
                  (fun l => (step l <? max_steps)%Z)
                  (body prefix_messages) (entry state) with
      | None => None
      | Some (l, Raise e) => Some (l, Raise e)
      | Some (l, Return _) =>
          Some (l, Return
                     {| r_messages := messages l;
                        r_verify_messages := skipn prefix_messages (messages l);
                        r_test_commands := commands l;
                        r_commands := commands l;
                        r_trials := (trials state + 1)%Z;
                        r_success := success l;
                        r_issue := issue_text l |})
      end
  end.

(** verify.py:116, [@auto_catch] *)
Definition verify (max_steps : Z) (state : AgentState (Session W))
  : option (locals * outcome (caught result)) :=
  match verify_call max_steps state with
  | None => None
  | Some (l, r) => Some (l, auto_catch r)
  end.

(** The locals with which the loop stands at the head of a pass: those at
    entry, and those a pass that goes on leaves behind. *)
Inductive reaches (max_steps : Z) (state : AgentState (Session W))
  : locals -> Prop :=
| reach_entry : reaches max_steps state (entry state)
| reach_pass (l l' : locals) :
    reaches max_steps state l ->
    (step l <? max_steps)%Z = true ->
    body (List.length (prefix state)) l = (l', Return Continue) ->
    reaches max_steps state l'.

End Loop.

End Verify.

(* ================================================================== *)
(** * Floats *)
(* ================================================================== *)

Module Binary64.

(** The arithmetic of Python's [float], IEEE 754 binary64 with rounding to
    nearest, ties to even.  A finite float is given as the rational it
    is; an operation gives the exact result, rounded. *)

(** The integer nearest to [n / d] for [d > 0]; of two that are equally
    near, the even one. *)
Definition round_half_even (n d : Z) : Z :=
  let q := (n / d)%Z in
  match (2 * (n mod d) ?= d)%Z with
  | Lt => q
  | Gt => (q + 1)%Z
  | Eq => if Z.even q then q else (q + 1)%Z
  end.

(** [2 ^ e] for any integer [e] is [up e / down e]. *)
Definition up (e : Z) : Z := (2 ^ Z.max e 0)%Z.
Definition down (e : Z) : Z := (2 ^ Z.max (- e) 0)%Z.

(** The exponent of [n / d] for positive [n] and [d]: the [E] with
    [2 ^ E <= n / d < 2 ^ (E + 1)]. *)
Definition exponent (n d : Z) : Z :=
  let k := (Z.log2 n - Z.log2 d)%Z in
  if (d * up k <=? n * down k)%Z then k else (k - 1)%Z.

Inductive float : Type :=
| Finite (q : Q)
| Infinite (negative : bool).

(** The float nearest to [x].  A float has 53 significant bits, so it is
    a multiple [m * 2 ^ e] of the quantum [2 ^ e] that lies 52 binary
    places below the exponent of [x]; no quantum is below [2 ^ -1074];
    a result that reaches [2 ^ 1024] is infinite. *)
Definition round (x : Q) : float :=
  let n := Qnum x in
  let d := Zpos (Qden x) in
  if (n =? 0)%Z then Finite 0
  else
    let a := Z.abs n in
    let e := Z.max (exponent a d - 52) (-1074) in
    let m := round_half_even (a * down e) (d * up e) in
    if ((971 <=? e) && (2 ^ 53 <=? m * 2 ^ (e - 971)))%Z
    then Infinite (n <? 0)%Z
    else
      let v := Qmake (m * up e) (Z.to_pos (down e)) in
      Finite (if (n <? 0)%Z then (- v)%Q else v).

(** [a - b] on two floats *)
Definition sub (a b : Q) : float := round (a - b).

(** [x > c], of a float and a number: Python compares the two values
    exactly. *)
Definition gt (x : float) (c : Q) : bool :=
  match x with
  | Finite q => negb (Qle_bool q c)
  | Infinite negative => negb negative
  end.

End Binary64.

(* ================================================================== *)
(** * setup.py: the setup grammar and loop *)
(* ================================================================== *)

Module Setup.

(** The two methods of the base class [ActionParser] that
    [SetupActionParser.parse] calls.  launch/agent/action_parser.py is not
    among the sources; the parser and the loop are stated over any such
    pair. *)
Record ActionParser : Type := {
  clean_response : string -> outcome string;
  extract_tag_content : string -> string -> option string
}.

(** Modelled from the spec: [ActionParser.clean_response] of
    launch/agent/action_parser.py, which is missing.  A reply that contains
    the reasoning delimiter is cut down to what follows the delimiter, as
    verify.py:166-167 does it. *)
Definition spec_clean_response (response : string) : outcome string :=
  Verify.drop_reasoning response.

(** Modelled from the spec: [ActionParser.extract_tag_content] of
    launch/agent/action_parser.py, which is missing.  The content of a tag
    is what stands between the first opening tag and the closing tag that
    follows it; [None] without such a pair. *)
Definition spec_extract_tag_content (response tag : string) : option string :=
  match PyStr.partition ("<" ++ tag ++ ">") response with
  | None => None
  | Some (_, after) =>
      match PyStr.partition ("</" ++ tag ++ ">") after with
      | None => None
      | Some (inner, _) => Some inner
      end
  end.

(** Modelled from the spec: the base class of the parser, made of the two
    methods above. *)
Definition spec_parser : ActionParser :=
  {| clean_response := spec_clean_response;
     extract_tag_content := spec_extract_tag_content |}.

(** setup.py:34-52.  [action] is one of three literals and [args] is the
    text of a command or of a search, [None] for a stop: a tagged union. *)
Inductive SetupAction : Type :=
| Command (args : string)
| Search (args : string)
| Stop.

(** [SetupAction.__doc__] *)
Definition SetupAction_doc : string := "
    Command: run a command in the bash, reply with following format, your command should not require sudo or interactive input:
        <command>bash command</command>
        e.g. install build-essential: <command>apt-get install -y build-essential</command>
        e.g. view file content: <command>cat README.md</command>
    Search: search the web for if you need some information, generate query and reply with following format:
        <search>the search query</search>
        e.g. <search>how to fix 'No module named setuptools'</search>
        e.g. <search>how to install python3 on ubuntu</search>
        e.g. <search>how to create development environment for python3</search>
    Stop: stop the setup loop once you think the setup is complete, reply with following format:
        <stop></stop>
    ".

(** setup.py:55-59 *)
Record SetupObservation : Type := { content : string; is_stop : bool }.

(** setup.py:62-86, [SetupActionParser.parse] and [parse_setup_action].
    [if command:] holds for a string that is not empty. *)
Definition parse (P : ActionParser) (response : string)
  : outcome (option SetupAction) :=
  match clean_response P response with
  | Raise e => Raise e
  | Return response =>
      match extract_tag_content P response "command" with
      | Some (String c0 c') => Return (Some (Command (String c0 c')))
      | _ =>
          match extract_tag_content P response "search" with
          | Some (String q0 q') => Return (Some (Search (String q0 q')))
          | _ =>
              if PyStr.contains "<stop>" response
                 && PyStr.contains "</stop>" response
              then Return (Some Stop)
              else Return None
          end
      end
  end.

Definition parse_setup_action := parse.

Definition clarification : string :=
  "Please using following format after `Action: ` to make a valid action choice:"
  ++ nl ++ SetupAction_doc ++ nl.

Definition SETUP_CONVERSATION_WINDOW : nat := 5.

Section Loop.

Variable W : World.
Variable P : ActionParser.

(** setup.py:89-116.  [n] is the number of oracle calls made so far, which
    the search tool answers by. *)
Definition observation_for_setup_action (n : nat)
  (sess : option (Session W)) (a : option SetupAction)
  : option (Session W) * outcome SetupObservation :=
  match a with
  | None => (sess, Return {| content := clarification; is_stop := false |})
  | Some (Command c) =>
      match sess with
      | None =>
          (sess, Raise (AttributeError
             "'NoneType' object has no attribute 'send_command'"))
      | Some s =>
          match send_command W s c with
          | (s', Return text) =>
              (Some s', Return {| content := text; is_stop := false |})
          | (s', Raise e) => (Some s', Raise e)
          end
      end
  | Some (Search q) =>
      match search_invoke W n q with
      | Return text => (sess, Return {| content := text; is_stop := false |})
      | Raise e => (sess, Raise e)
      end
  | Some Stop => (sess, Return {| content := ""; is_stop := true |})
  end.

(** The local variables of [setup], and two counters that are not
    variables of the code: [calls], the inputs of the oracle calls made so
    far, oldest first, and [ticks], the number of clock readings. *)
Record locals : Type := {
  messages : list message;
  commands : list string;
  step : Z;
  sess : option (Session W);
  calls : list (list message);
  ticks : nat
}.

Definition with_messages (f : list message -> list message) (l : locals) :=
  {| messages := f (messages l); commands := commands l; step := step l;
     sess := sess l; calls := calls l; ticks := ticks l |}.

Definition with_commands (f : list string -> list string) (l : locals) :=
  {| messages := messages l; commands := f (commands l); step := step l;
     sess := sess l; calls := calls l; ticks := ticks l |}.

Definition with_step (f : Z -> Z) (l : locals) :=
  {| messages := messages l; commands := commands l; step := f (step l);
     sess := sess l; calls := calls l; ticks := ticks l |}.

Definition with_sess (s : option (Session W)) (l : locals) :=
  {| messages := messages l; commands := commands l; step := step l;
     sess := s; calls := calls l; ticks := ticks l |}.

Definition with_call (input : list message) (l : locals) :=
  {| messages := messages l; commands := commands l; step := step l;
     sess := sess l; calls := calls l ++ [input]; ticks := ticks l |}.

Definition with_tick (l : locals) :=
  {| messages := messages l; commands := commands l; step := step l;
     sess := sess l; calls := calls l; ticks := S (ticks l) |}.

(** setup.py:209-211 *)
Definition commands_history (cmds : list string) : message :=
  HumanMessage
    (nl ++ "The commands you have run:```" ++ nl ++ PyStr.join ", " cmds
        ++ "```" ++ nl ++ "Following are the last 5 messages:" ++ nl).

(** setup.py:212-223 *)
Definition input_messages (prefix_messages : nat) (cmds : list string)
  (msgs : list message) : list message :=
  if List.length msgs <? SETUP_CONVERSATION_WINDOW + prefix_messages
  then firstn prefix_messages msgs ++ [commands_history cmds]
         ++ skipn prefix_messages msgs
  else firstn prefix_messages msgs ++ [commands_history cmds]
         ++ last_n SETUP_CONVERSATION_WINDOW msgs.

(** [time.time()] *)
Definition read_clock : M locals Q :=
  fun l => (with_tick l, Return (time_time W (ticks l))).

(** setup.py:205-206: [time.time() - state["start_time"] > 30 * 60], in
    seconds.  The two readings are floats, given as the rationals they
    are; they are subtracted as floats, and the difference is compared with
    the integer. *)
Definition timed_out (now start : Q) : bool :=
  Binary64.gt (Binary64.sub now start) (30 * 60)%Q.

Definition check_timeout (start : option Q) : M locals unit :=
  (now <- read_clock ;;
   match start with
   | None =>
       raise (TypeError
                "unsupported operand type(s) for -: 'float' and 'NoneType'")
   | Some t0 =>
       if timed_out now t0
       then raise (TimeoutError "Reached global timeout of 30 minutes")
       else ret tt
   end)%loop.

(** [llm.invoke(input)]: the call is recorded, then answered. *)
Definition invoke_llm (input : list message) : M locals string :=
  fun l => (with_call input l, llm_invoke W (List.length (calls l)) input).

(** [observation_for_setup_action(state, action)] on the loop's session. *)
Definition observe (a : option SetupAction) : M locals SetupObservation :=
  fun l =>
    let (s', o) :=
      observation_for_setup_action (List.length (calls l)) (sess l) a in
    (with_sess s' l, o).

(** setup.py:205-240, one pass through the body of the loop. *)
Definition body (start : option Q) (prefix_messages : nat) : M locals control :=
  (check_timeout start ;;
   modify (with_step (fun s => s + 1)%Z) ;;
   l <- get ;;
   response <- invoke_llm
                 (input_messages prefix_messages (commands l) (messages l)) ;;
   modify (with_messages (fun m => m ++ [AIMessage response])) ;;
   a <- lift (parse_setup_action P response) ;;
   match a with
   | Some (Command c) => modify (with_commands (fun cs => cs ++ [c]))
   | _ => ret tt
   end ;;
   observation <- observe a ;;
   if is_stop observation then ret Break
   else
     (modify (with_messages
                (fun m => m ++ [HumanMessage
                                  ("Observation:" ++ nl ++ content observation)])) ;;
      ret Continue))%loop.

(** setup.py:243-248, the returned update. *)
Record result : Type := {
  r_messages : list message;
  r_setup_messages : list message;
  r_setup_commands : list string;
  r_commands : list string
}.

(** setup.py:186-200, the messages the loop starts from. *)
Definition prefix (state : AgentState (Session W)) : list message :=
  [SystemMessage (setup_system_text W state);
   HumanMessage (setup_task_text W state)]
  ++ verify_messages state.

(** setup.py:201-203, the locals when the loop is entered. *)
Definition entry (state : AgentState (Session W)) : locals :=
  {| messages := prefix state;
     commands := [];
     step := 0%Z;
     sess := session state;
     calls := [];
     ticks := 0 |}.

(** setup.py:165-248 without the decorator: the locals at the end, and
    what the call does. *)
Definition setup_call (max_steps : Z) (state : AgentState (Session W))
  : option (locals * outcome result) :=
  let prefix_messages := List.length (prefix state) in
  match while (Z.to_nat max_steps)
              (fun l => (step l <? max_steps)%Z)
              (body (start_time state) prefix_messages) (entry state) with
  | None => None
  | Some (l, Raise e) => Some (l, Raise e)
  | Some (l, Return _) =>
      Some (l, Return
                 {| r_messages := messages l;
                    r_setup_messages := skipn prefix_messages (messages l);
                    r_setup_commands := commands l;
                    r_commands := commands l |})
  end.

(** setup.py:164, [@auto_catch] *)
Definition setup (max_steps : Z) (state : AgentState (Session W))
  : option (locals * outcome (caught result)) :=
  match setup_call max_steps state with
  | None => None
  | Some (l, r) => Some (l, auto_catch r)
  end.

(** The locals with which the loop stands at the head of a pass: those at
    entry, and those a pass that goes on leaves behind. *)
Inductive reaches (max_steps : Z) (state : AgentState (Session W))
  : locals -> Prop :=
| reach_entry : reaches max_steps state (entry state)
| reach_pass (l l' : locals) :
    reaches max_steps state l ->
    (step l <? max_steps)%Z = true ->
    body (start_time state) (List.length (prefix state)) l
      = (l', Return Continue) ->
    reaches max_steps state l'.

End Loop.

End Setup.

(* ================================================================== *)
(** * base_image.py: the choice of the base image *)
(* ================================================================== *)

Module BaseImage.

(** [str(v)] for a number that is not negative *)
Definition str (v : nat) : string :=
  NilEmpty.string_of_uint (Nat.to_uint v).

(** [range(a, b)] *)
Definition range (a b : nat) : list nat := seq a (b - a).

(** base_image.py:8-12, the dict as the list of its items *)
Definition lang_to_candidate_images : list (string * list string) :=
  [("python", map (fun v => "python:3." ++ str v)%string (range 6 12));
   ("rust", map (fun v => "rust:1.7" ++ str v)%string (range 0 10));
   ("javascript", map (fun v => "node:1" ++ str v)%string (range 0 10))].

(** [d[k]], with Python's KeyError (a class that derives from
    [Exception]) *)
Fixpoint getitem {A : Type} (d : list (string * A)) (k : string)
  : outcome A :=
  match d with
  | [] => Raise (Foreign "KeyError" true)
  | (k', v) :: d' => if String.eqb k k' then Return v else getitem d' k
  end.

(** [x in l] on a list of strings *)
Definition mem (x : string) (l : list string) : bool :=
  existsb (String.eqb x) l.

(** How a list of strings is formatted into an f-string, for strings
    without quotes, backslashes or control characters, as the image names
    are. *)
Definition repr (l : list string) : string :=
  "[" ++ PyStr.join ", " (map (fun x => "'" ++ x ++ "'")%string l) ++ "]".

(** base_image.py:35-46; [docs] is [state['docs']] as the f-string formats
    it. *)
Definition first_message (docs : string) (candidate_images : list string)
  : message :=
  HumanMessage
    ("Based on related file:" ++ nl ++ docs ++ nl ++ nl
       ++ "Please recommend a suitable base Docker image. Consider:" ++ nl
       ++ "1. The programming language and version requirements" ++ nl
       ++ "2. Common system dependencies" ++ nl
       ++ "3. Use official images when possible" ++ nl ++ nl
       ++ "Select a base image from the following candidate list:" ++ nl
       ++ repr candidate_images ++ nl
       ++ "Wrap the image name in a block like <image>ubuntu:20.04</image> to indicate your choice."
       ++ nl).

(** base_image.py:64 *)
Definition select_again (image : string) (candidate_images : list string)
  : message :=
  HumanMessage
    ("The image you selected(" ++ image
       ++ ") is not in the candidate list: " ++ repr candidate_images
       ++ ". Please select again.").

(** base_image.py:71 *)
Definition wrap_it : message :=
  HumanMessage
    "Please wrap the image name in a block like <image>ubuntu:20.04</image> to indicate your choice.".

(** What the tests of base_image.py:56-58 find in a reply. *)
Inductive verdict : Type :=
| Accepted (image : string)
| Rejected (image : string)
| Unwrapped.

(** base_image.py:56-58 *)
Definition judge (candidate_images : list string) (content : string)
  : outcome verdict :=
  if PyStr.contains "<image>" content then
    match subscript (PyStr.split "<image>" content) 1 with
    | Raise e => Raise e
    | Return after =>
        match subscript (PyStr.split "</image>" after) 0 with
        | Raise e => Raise e
        | Return image =>
            if mem image candidate_images
            then Return (Accepted image)
            else Return (Rejected image)
        end
    end
  else Return Unwrapped.

Section Loop.

Variable W : World.

(** The local variables of [select_base_image], and [calls]: the inputs of
    the oracle calls made so far (not a variable of the code). *)
Record locals : Type := {
  messages : list message;
  base_image : option string;
  trials : Z;
  calls : list (list message)
}.

Definition with_messages (f : list message -> list message) (l : locals) :=
  {| messages := f (messages l); base_image := base_image l;
     trials := trials l; calls := calls l |}.

Definition with_base_image (i : option string) (l : locals) :=
  {| messages := messages l; base_image := i;
     trials := trials l; calls := calls l |}.

Definition with_trials (f : Z -> Z) (l : locals) :=
  {| messages := messages l; base_image := base_image l;
     trials := f (trials l); calls := calls l |}.

Definition with_call (input : list message) (l : locals) :=
  {| messages := messages l; base_image := base_image l;
     trials := trials l; calls := calls l ++ [input] |}.

(** [llm.invoke(messages)]: the call is recorded, then answered. *)
Definition invoke_llm (input : list message) : M locals string :=
  fun l => (with_call input l, llm_invoke W (List.length (calls l)) input).

(** base_image.py:51, [not base_image or trials < 5] *)
Definition cond (l : locals) : bool :=
  match base_image l with
  | None | Some EmptyString => true
  | Some (String _ _) => false
  end
  || (trials l <? 5)%Z.

(** base_image.py:52-73, one pass through the body of the loop; lines
    54-55 are those of verify.py:166-167. *)
Definition body (candidate_images : list string) : M locals control :=
  (modify (with_trials (fun t => t + 1)%Z) ;;
   l <- get ;;
   response <- invoke_llm (messages l) ;;
   response <- lift (Verify.drop_reasoning response) ;;
   v <- lift (judge candidate_images response) ;;
   match v with
   | Accepted image =>
       modify (with_base_image (Some image)) ;; ret Break
   | Rejected image =>
       modify (with_messages
                 (fun m => m ++ [AIMessage response;
                                 select_again image candidate_images])) ;;
       ret Continue
   | Unwrapped =>
       modify (with_messages (fun m => m ++ [AIMessage response; wrap_it])) ;;
       ret Continue
   end)%loop.

(** base_image.py:76-79, the returned update. *)
Record result : Type := {
  r_messages : list message;
  r_base_image : option string
}.

(** base_image.py:33-50, the locals when the loop is entered. *)
Definition entry (docs : string) (candidate_images : list string) : locals :=
  {| messages := [first_message docs candidate_images];
     base_image := None;
     trials := 0%Z;
     calls := [] |}.

(** base_image.py:16-79 without the decorator, for [state["language"]] and
    the formatted [state['docs']].  The loop has no bound of its own;
    [None] is a loop that is still going after [fuel] passes. *)
Definition select_base_image_call (language docs : string) (fuel : nat)
  : option (locals * outcome result) :=
  match getitem lang_to_candidate_images language with
  | Raise e =>
      Some ({| messages := []; base_image := None; trials := 0%Z;
               calls := [] |}, Raise e)
  | Return candidate_images =>
      match while fuel cond (body candidate_images)
                  (entry docs candidate_images) with
      | None => None
      | Some (l, Raise e) => Some (l, Raise e)
      | Some (l, Return _) =>
          Some (l, Return {| r_messages := messages l;
                             r_base_image := base_image l |})
      end
  end.

(** The locals after the step is counted and the oracle called. *)
Definition called (l : locals) : locals :=
  with_call (messages l) (with_trials (fun t => t + 1)%Z l).

(** What holds at the head of every pass: nothing is chosen yet, every
    counted step made one oracle call and, before the last, left two
    messages behind the first. *)
Definition at_head (docs : string) (cands : list string) (l : locals)
  : Prop :=
  base_image l = None
  /\ trials l = Z.of_nat (List.length (calls l))
  /\ List.length (messages l) = 1 + 2 * List.length (calls l)
  /\ nth_error (messages l) 0 = Some (first_message docs cands).

(** base_image.py:15, [@auto_catch] *)
Definition select_base_image (language docs : string) (fuel : nat)
  : option (locals * outcome (caught result)) :=
  match select_base_image_call language docs fuel with
  | None => None
  | Some (l, r) => Some (l, auto_catch r)
  end.

End Loop.

End BaseImage.

(* ================================================================== *)
(** * utils.py: fetching, patches and hints *)
(* ================================================================== *)

Module Utils.

(** What [requests.get(url)] does, as the [except] clauses of
    [wrapped_requests_get] tell it apart: a response; an exception of class
    [requests.exceptions.HTTPError], which the first clause takes; an
    exception of one of the classes of lines 120-121 that is no HTTPError;
    any other exception. *)
Inductive fetched (R : Type) : Type :=
| Response (r : R)
| HTTPError
| ConnectionFault
| OtherError (e : exn).

Arguments Response {R} r.
Arguments HTTPError {R}.
Arguments ConnectionFault {R}.
Arguments OtherError {R} e.

Section Get.

Variable R : Type.

(** [requests.get] at its [k]-th call, counted from 0 *)
Variable requests_get : nat -> string -> fetched R.

(** The variable [attempt] of [wrapped_requests_get] and the value it
    returns from inside the loop, with what can be seen from outside: the
    urls requested and the seconds slept, in order. *)
Record locals : Type := {
  attempt : Z;
  returned : option R;
  requests : list string;
  slept : list Z
}.

Definition entry : locals :=
  {| attempt := 0%Z; returned := None; requests := []; slept := [] |}.

(** utils.py:114-128, one pass through the body of the loop; a [return]
    inside the loop is a [Break] with [returned] set. *)
Definition body (url : string) (max_retries : Z) : M locals control :=
  fun l =>
    let asked := requests l ++ [url] in
    match requests_get (List.length (requests l)) url with
    | Response r =>
        ({| attempt := attempt l; returned := Some r;
            requests := asked; slept := slept l |}, Return Break)
    | HTTPError =>
        ({| attempt := attempt l; returned := None;
            requests := asked; slept := slept l |}, Return Break)
    | ConnectionFault =>
        if (attempt l <? max_retries - 1)%Z
        then ({| attempt := (attempt l + 1)%Z; returned := returned l;
                 requests := asked; slept := slept l ++ [20%Z] |},
              Return Continue)
        else ({| attempt := attempt l; returned := None;
                 requests := asked; slept := slept l |}, Return Break)
    | OtherError e =>
        ({| attempt := attempt l; returned := returned l;
            requests := asked; slept := slept l |}, Raise e)
    end.

(** utils.py:111-128.  A loop that ends by its condition falls off the end
    of the function, which returns [None]. *)
Definition wrapped_requests_get (url : string) (max_retries : Z)
  : option (locals * outcome (option R)) :=
  match while (Z.to_nat max_retries)
              (fun l => (attempt l <? max_retries)%Z)
              (body url max_retries) entry with
  | None => None
  | Some (l, Raise e) => Some (l, Raise e)
  | Some (l, Return _) => Some (l, Return (returned l))
  end.

(** What holds at the head of every pass: each request so far was to [url],
    ended in a connection fault and was followed by a sleep of 20 s. *)
Definition at_head (url : string) (max_retries : Z) (l : locals) : Prop :=
  attempt l = Z.of_nat (List.length (requests l))
  /\ (requests l = [] \/ (attempt l < max_retries)%Z)
  /\ returned l = None
  /\ requests l = repeat url (List.length (requests l))
  /\ slept l = repeat 20%Z (List.length (requests l))
  /\ forall j, j < List.length (requests l) ->
               requests_get j url = ConnectionFault.

(** What the call has done when it ends after at least one request: [o] is
    what the last request decides, the requests before it were connection
    faults, each followed by a sleep of 20 s. *)
Definition ended (url : string) (max_retries : Z) (l : locals)
  (o : outcome (option R)) : Prop :=
  exists n,
    List.length (requests l) = Datatypes.S n
    /\ (Z.of_nat n < max_retries)%Z
    /\ requests l = repeat url (Datatypes.S n)
    /\ slept l = repeat 20%Z n
    /\ (forall j, j < n -> requests_get j url = ConnectionFault)
    /\ match requests_get n url with
       | Response r => o = Return (Some r)
       | HTTPError => o = Return None
       | ConnectionFault => o = Return None /\ Z.of_nat n = (max_retries - 1)%Z
       | OtherError e => o = Raise e
       end.

End Get.

(** What the loop of [extract_patches] reads of an element of
    [PatchSet(patch)]: [hunk.path] and [str(hunk)]. *)
Record PatchedFile : Type := { path : string; diff : string }.

(** utils.py:146-149 *)
Definition test_words : list string := ["test"; "tests"; "e2e"; "testing"].

Definition is_test (p : string) : bool :=
  existsb (fun test_word => PyStr.contains test_word p) test_words.

(** utils.py:143-153, the loop over the files of the patch; the pair is
    [(patch_fix, patch_test)]. *)
Definition sort_hunks (files : list PatchedFile) : string * string :=
  fold_left
    (fun acc hunk =>
       if is_test (path hunk)
       then (fst acc, (snd acc ++ diff hunk)%string)
       else ((fst acc ++ diff hunk)%string, snd acc))
    files ("", "").

Section Patches.

Variable R : Type.
Variable requests_get : nat -> string -> fetched R.

(** [response.text] *)
Variable text : R -> string.

(** [PatchSet(patch)] of the unidiff library *)
Variable PatchSet : string -> outcome (list PatchedFile).


End Patches.

(** The strings of a list one after the other. *)
Definition concat_str (l : list string) : string :=
  fold_right String.append "" l.

(** What the code reads of an issue, a commit and a comment as the
    [Repo] object hands them out.  The dates are the strings of the API:
    [commit["commit"]["author"]["date"]] and [comment["updatedAt"]]. *)
Record Issue : Type := {
  title : option string;
  body_text : option string;
  number : Z
}.

Record Commit : Type := { commit_url : string; date : string }.

Record Comment : Type := { updatedAt : string; comment_body : string }.

Record Repo : Type := {
  name : string;
  get_issue : Z -> option Issue;
  get_pull_commits : Z -> list Commit;
  get_issue_comments : Z -> list Comment
}.

Record Pull : Type := { pull_number : Z; resolved_issues : list Z }.

(** [x if x else ""] on a value that is a string or [None] *)
Definition or_empty (x : option string) : string :=
  match x with Some s => s | None => "" end.

(** [a < b] on two floats, each given as the rational it is *)
Definition before (a b : Q) : bool := negb (Qle_bool b a).

(** What the loop of [extract_problem_statement_and_hints] assigns;
    [commit_urls] is unbound until the loop has bound it. *)
Record gathered : Type := {
  problem_text : string;
  hint_text : string;
  all_hint_text : string;
  commit_urls : option (list string)
}.

(** What [extract_problem_statement_and_hints] returns: the pair of the
    django function, of a type [D] left open here, or the four values of
    line 55. *)
Inductive statement (D : Type) : Type :=
| OfDjango (d : D)
| Gathered (problem_text hint_text all_hint_text : string)
    (commit_urls : list string).

Arguments OfDjango {D} d.
Arguments Gathered {D} problem_text hint_text all_hint_text commit_urls.

(** The issues of [pull["resolved_issues"]] that [repo.get_issue] finds. *)
Definition found (pull : Pull) (repo : Repo) : list Issue :=
  flat_map (fun issue_number =>
              match get_issue repo issue_number with
              | Some issue => [issue]
              | None => []
              end)
    (resolved_issues pull).

Section Hints.

(** The two readings of a date that the code uses, both library calls.
    [timestamp s] is [parser.parse(s).timestamp()] of dateutil, line 81:
    the instant the string names, with the zone the string gives.
    [mktime s] is [time.mktime(time.strptime(s, "%Y-%m-%dT%H:%M:%SZ"))],
    lines 95-97: the fields of the string taken as a time of the local
    zone, the [Z] being matched as a letter.  Either raises on a string it
    cannot read. *)
Variable timestamp : string -> outcome Q.
Variable mktime : string -> outcome Q.

(** utils.py:91-101, the loop over the comments; the pair is
    [(issue_hint_comments, issue_all_comments)]. *)
Definition sift (commit_time : Q)
  (acc : outcome (list Comment * list Comment)) (comment : Comment)
  : outcome (list Comment * list Comment) :=
  match acc with
  | Raise e => Raise e
  | Return (issue_hint_comments, issue_all_comments) =>
      match mktime (updatedAt comment) with
      | Raise e => Raise e
      | Return comment_time =>
          Return (if before comment_time commit_time
                  then issue_hint_comments ++ [comment]
                  else issue_hint_comments,
                  issue_all_comments ++ [comment])
      end
  end.

(** utils.py:58-108, [_extract_hints] *)
Definition _extract_hints (pull : Pull) (repo : Repo) (issue_number : Z)
  : outcome (string * string * list string) :=
  let commits := get_pull_commits repo (pull_number pull) in
  match commits with
  | [] => Return ("", "", [])
  | first :: _ =>
      match timestamp (date first) with
      | Raise e => Raise e
      | Return commit_time =>
          let commit_urls :=
            fold_left (fun urls commit => urls ++ [commit_url commit])
              commits [] in
          let all_issue_comments := get_issue_comments repo issue_number in
          match fold_left (sift commit_time) all_issue_comments
                  (Return ([], [])) with
          | Raise e => Raise e
          | Return (issue_hint_comments, issue_all_comments) =>
              if List.length issue_hint_comments
                 <=? List.length issue_all_comments
              then Return
                     (PyStr.join nl (map comment_body issue_hint_comments),
                      PyStr.join nl (map comment_body issue_all_comments),
                      commit_urls)
              else Raise (Foreign "AssertionError" true)
          end
      end
  end.

(** utils.py:40-53, one pass through the loop over the resolved issues *)
Definition gather (pull : Pull) (repo : Repo) (g : outcome gathered)
  (issue_number : Z) : outcome gathered :=
  match g with
  | Raise e => Raise e
  | Return g =>
      match get_issue repo issue_number with
      | None => Return g
      | Some issue =>
          let title := or_empty (title issue) in
          let body := or_empty (body_text issue) in
          match _extract_hints pull repo (number issue) with
          | Raise e => Raise e
          | Return (single_hint, single_all_hint, urls) =>
              Return
                {| problem_text :=
                     problem_text g ++ title ++ nl ++ body ++ nl;
                   hint_text := hint_text g ++ single_hint ++ nl ++ nl;
                   all_hint_text :=
                     all_hint_text g ++ single_all_hint ++ nl ++ nl;
                   commit_urls := Some urls |}
          end
      end
  end.

(** utils.py:22-55; [django] is
    [extract_problem_statement_and_hints_django]. *)
Definition extract_problem_statement_and_hints (D : Type)
  (django : Pull -> Repo -> outcome D) (pull : Pull) (repo : Repo)
  : outcome (statement D) :=
  if String.eqb (name repo) "django" then
    match django pull repo with
    | Raise e => Raise e
    | Return d => Return (OfDjango d)
    end
  else
    match fold_left (gather pull repo) (resolved_issues pull)
            (Return {| problem_text := ""; hint_text := "";
                       all_hint_text := ""; commit_urls := None |}) with
    | Raise e => Raise e
    | Return g =>
        match commit_urls g with
        | None => Raise (Foreign "UnboundLocalError" true)
        | Some urls =>
            Return (Gathered (problem_text g) (hint_text g)
                      (all_hint_text g) urls)
        end
    end.

(** A comment that the test of line 98 keeps as a hint: its [updatedAt],
    read by [mktime], is below the time of the first commit. *)
Definition is_hint (commit_time : Q) (comment : Comment) : bool :=
  match mktime (updatedAt comment) with
  | Return comment_time => before comment_time commit_time
  | Raise _ => false
  end.

(** The two texts of one issue in closed form, for dates that can be
    read: the comments that [is_hint] keeps, and all comments. *)
Definition hints_of (pull : Pull) (repo : Repo) (issue : Issue)
  : string * string :=
  match get_pull_commits repo (pull_number pull) with
  | [] => ("", "")
  | first :: _ =>
      match timestamp (date first) with
      | Raise _ => ("", "")
      | Return commit_time =>
          (PyStr.join nl
             (map comment_body
                (filter (is_hint commit_time)
                   (get_issue_comments repo (number issue)))),
           PyStr.join nl
             (map comment_body (get_issue_comments repo (number issue))))
      end
  end.

(** The dates that a call reads can be read: the date of the first commit
    of the pull, if it has one, and then the [updatedAt] of every comment
    of every issue found. *)
Definition dates_readable (pull : Pull) (repo : Repo) : Prop :=
  match get_pull_commits repo (pull_number pull) with
  | [] => True
  | first :: _ =>
      (exists commit_time, timestamp (date first) = Return commit_time)
      /\ forall issue comment,
          In issue (found pull repo) ->
          In comment (get_issue_comments repo (number issue)) ->
          exists comment_time,
            mktime (updatedAt comment) = Return comment_time
  end.

End Hints.

End Utils.

(* ================================================================== *)
(** * llm.py: the logging wrapper *)
(* ================================================================== *)

Module Logging.

(** [str(n)] *)
Definition str (n : N) : string := NilEmpty.string_of_uint (N.to_uint n).

(** [c.isdigit()] for a code point below 256: the digits 0 to 9, and the
    superscripts two, three and one (178, 179, 185), which have the
    numeric type Digit without being decimal digits. *)
Definition isdigit_char (c : ascii) : bool :=
  let n := nat_of_ascii c in
  ((48 <=? n) && (n <=? 57)) || (n =? 178) || (n =? 179) || (n =? 185).

Fixpoint all_chars (p : ascii -> bool) (s : string) : bool :=
  match s with
  | EmptyString => true
  | String c s' => p c && all_chars p s'
  end.

(** [s.isdigit()] *)
Definition isdigit (s : string) : bool :=
  match s with
  | EmptyString => false
  | String _ _ => all_chars isdigit_char s
  end.

(** [int(s)] for a string that [isdigit] accepts and that is shorter than
    the 4300 digits at which [int] refuses, as the name of a file is: the
    value of the decimal digits; ValueError for a superscript. *)
Definition int (s : string) : outcome N :=
  match s with
  | EmptyString => Raise (Foreign "ValueError" true)
  | String _ _ =>
      match NilEmpty.uint_of_string s with
      | Some d => Return (N.of_uint d)
      | None => Raise (Foreign "ValueError" true)
      end
  end.

(** [f.split(".")[0]] *)
Definition stem (f : string) : outcome string :=
  subscript (PyStr.split "." f) 0.

(** llm.py:30-32, the names whose stem is a number *)
Fixpoint existing_files (names : list string) : outcome (list string) :=
  match names with
  | [] => Return []
  | f :: rest =>
      match stem f with
      | Raise e => Raise e
      | Return st =>
          match existing_files rest with
          | Raise e => Raise e
          | Return fs => Return (if isdigit st then f :: fs else fs)
          end
      end
  end.

(** llm.py:33 *)
Fixpoint existing_numbers (files : list string) : outcome (list N) :=
  match files with
  | [] => Return []
  | name :: rest =>
      match stem name with
      | Raise e => Raise e
      | Return st =>
          match int st with
          | Raise e => Raise e
          | Return n =>
              match existing_numbers rest with
              | Raise e => Raise e
              | Return ns => Return (n :: ns)
              end
          end
      end
  end.

(** [max(l)] of a list that is not empty, as head and tail *)
Definition max_of (n : N) (ns : list N) : N := fold_left N.max ns n.

(** llm.py:34 *)
Definition next_number (existing_numbers : list N) : N :=
  match existing_numbers with
  | [] => 0%N
  | n :: ns => (max_of n ns + 1)%N
  end.

(** llm.py:30-35, from the names in the folder to the name of the log of
    this call, inside the folder *)
Definition log_file (names : list string) : outcome string :=
  match existing_files names with
  | Raise e => Raise e
  | Return files =>
      match existing_numbers files with
      | Raise e => Raise e
      | Return numbers => Return (str (next_number numbers) ++ ".md")%string
      end
  end.

(** The files of the log folder, by name, with their text. *)
Definition folder : Type := list (string * string).

(** [open(path, "w")] and the writes: a new file, or a new text for the
    file of that name. *)
Fixpoint write (name text : string) (d : folder) : folder :=
  match d with
  | [] => [(name, text)]
  | (n, t) :: d' =>
      if String.eqb n name then (n, text) :: d'
      else (n, t) :: write name text d'
  end.

Section Wrapper.

Variable A : Type.

(** [pretty_repr()] of a message of the input and of the response *)
Variable pretty_in : message -> string.
Variable pretty_out : A -> string.

(** llm.py:39-43 *)
Definition log_text (messages : list message) (response : A) : string :=
  "##### LLM INPUT #####" ++ nl
    ++ PyStr.join nl (map pretty_in messages)
    ++ nl ++ "##### LLM OUTPUT #####" ++ nl
    ++ pretty_out response.

(** What a call of the wrapper leaves behind: the folder, whether the
    wrapped function was called, and what the caller gets. *)
Record logged : Type := {
  files : option folder;
  invoked : bool;
  result : outcome A
}.

(** llm.py:22-44, the wrapper of [logged_invoke].  [log_folder] is [None]
    as [self.log_folder] is, or the files of that folder once
    [os.makedirs] has made sure of it. *)
Definition wrapper (log_folder : option folder)
  (invoke_func : list message -> outcome A) (messages : list message)
  : logged :=
  match log_folder with
  | None =>
      {| files := None; invoked := true; result := invoke_func messages |}
  | Some d =>
      match log_file (map fst d) with
      | Raise e => {| files := Some d; invoked := false; result := Raise e |}
      | Return log_file_path =>
          match invoke_func messages with
          | Raise e =>
              {| files := Some d; invoked := true; result := Raise e |}
          | Return response =>
              {| files :=
                   Some (write log_file_path (log_text messages response) d);
                 invoked := true;
                 result := Return response |}
          end
      end
  end.

End Wrapper.

(** The stem in closed form ([LoggingFacts.stem_eq]). *)
Definition stem_of (f : string) : string :=
  match PyStr.partition "." f with
  | Some (b, _) => b
  | None => f
  end.

End Logging.

(* ================================================================== *)
(** * merge_tasks.py: the merge by classification *)
(* ================================================================== *)

Module Merge.

(** A value in an object, as far as the code tells values apart: a
    string, or anything else. *)
Inductive value : Type :=
| VString (s : string)
| VOther.

(** What [json.loads] makes of a line: an object, with its items, or
    anything else (string, number, list, [true], [false], [null]). *)
Inductive json : Type :=
| JObject (items : list (string * value))
| JOther.

(** [d.get(key, default)] on the items of a dict *)
Fixpoint get (items : list (string * value)) (key : string)
  (default : value) : value :=
  match items with
  | [] => default
  | (k, v) :: rest => if String.eqb k key then v else get rest key default
  end.

(** [except json.JSONDecodeError] *)
Definition is_JSONDecodeError (e : exn) : bool :=
  match e with
  | Foreign name _ => String.eqb name "JSONDecodeError"
  | _ => false
  end.

(** What has been written to the two output files, write by write. *)
Record outputs : Type := {
  sec_outf : list string;
  eff_outf : list string
}.

(** What reading a file gives: its lines in order, and the exception that
    ends the reading before the end of the file, if there is one (bytes
    that are no UTF-8). *)
Record reading : Type := {
  lines : list string;
  failure : option exn
}.

(** A [*.jsonl] file of the input folder: its path, and what opening it
    for reading gives as the folder stands when the function is called,
    the exception of [open] or the reading.  A path stands for the file it
    names: two paths are the same file when they are equal. *)
Record jsonl_file : Type := {
  path : string;
  opened : outcome reading
}.

(** The input folder as the checks of lines 22-35 see it; a directory is
    the files that [glob("*.jsonl")] finds in it, in the order of
    [sorted]. *)
Inductive folder : Type :=
| Missing
| NotADirectory
| Directory (jsonl_files : list jsonl_file).

(** The two output files when the function is left: what has been written
    to each since [open(..., 'w')] has emptied it, or [None] for a file
    that was not opened and is as it was. *)
Record disk : Type := {
  security : option (list string);
  efficiency : option (list string)
}.

(** The lines of the files that can be opened, file after file. *)
Definition all_lines (files : list jsonl_file) : list string :=
  flat_map (fun f => match opened f with
                     | Return r => lines r
                     | Raise _ => []
                     end) files.

Section Merge.

(** [json.loads] *)
Variable json_loads : string -> outcome json.

(** merge_tasks.py:44-59, one pass through the loop over the lines *)
Definition merge_line (o : outputs) (raw : string)
  : outputs * outcome unit :=
  let line := PyStr.strip raw in
  if String.eqb line "" then (o, Return tt)
  else
    match json_loads line with
    | Raise e =>
        if is_JSONDecodeError e then (o, Return tt) else (o, Raise e)
    | Return (JObject items) =>
        match get items "classification" (VString "NA") with
        | VString classification =>
            if String.eqb classification "Security" then
              ({| sec_outf := sec_outf o ++ [(line ++ nl)%string];
                  eff_outf := eff_outf o |}, Return tt)
            else if String.eqb classification "Efficiency" then
              ({| sec_outf := sec_outf o;
                  eff_outf := eff_outf o ++ [(line ++ nl)%string] |},
               Return tt)
            else (o, Return tt)
        | VOther => (o, Return tt)
        end
    | Return JOther =>
        (o, Raise (AttributeError "object has no attribute 'get'"))
    end.

(** merge_tasks.py:43-59 *)
Fixpoint merge_lines (o : outputs) (lines : list string)
  : outputs * outcome unit :=
  match lines with
  | [] => (o, Return tt)
  | raw :: rest =>
      match merge_line o raw with
      | (o', Return _) => merge_lines o' rest
      | (o', Raise e) => (o', Raise e)
      end
  end.

(** [open(path, 'w')]: the exception it raises, if it raises *)
Variable open_w : string -> option exn.

(** What is read of a file that has been emptied: nothing, if it opens. *)
Definition emptied (f : jsonl_file) : outcome reading :=
  match opened f with
  | Raise e => Raise e
  | Return _ => Return {| lines := []; failure := None |}
  end.

(** merge_tasks.py:42, what the loop reads of an input file.  The outputs
    are open and emptied by then, so an input that is one of them reads
    as empty as long as nothing has been written to it.  Once something
    has been written, what is read depends on how much of it the buffer
    has passed on: [None], that run is not modelled. *)
Definition read_input (security_file efficiency_file : string)
  (o : outputs) (f : jsonl_file) : option (outcome reading) :=
  if String.eqb (path f) security_file then
    match sec_outf o with
    | [] => Some (emptied f)
    | _ :: _ => None
    end
  else if String.eqb (path f) efficiency_file then
    match eff_outf o with
    | [] => Some (emptied f)
    | _ :: _ => None
    end
  else Some (opened f).

(** merge_tasks.py:41-59 *)
Fixpoint merge_files (security_file efficiency_file : string)
  (o : outputs) (files : list jsonl_file)
  : option (outputs * outcome unit) :=
  match files with
  | [] => Some (o, Return tt)
  | jsonl_file :: rest =>
      match read_input security_file efficiency_file o jsonl_file with
      | None => None
      | Some (Raise e) => Some (o, Raise e)
      | Some (Return inf) =>
          match merge_lines o (lines inf) with
          | (o', Raise e) => Some (o', Raise e)
          | (o', Return _) =>
              match failure inf with
              | Some e => Some (o', Raise e)
              | None => merge_files security_file efficiency_file o' rest
              end
          end
      end
  end.

(** merge_tasks.py:61-63, [except Exception] around the merge *)
Definition during_merge (e : exn) : outcome bool :=
  if derives_Exception e then Return false else Raise e.

(** merge_tasks.py:10-63.  The result is [None] for the runs that are not
    modelled: those of [read_input], and one path given for both outputs,
    where two open files write over each other. *)
Definition merge_jsonl_files (input_folder : folder)
  (security_file efficiency_file : string)
  : option (disk * outcome bool) :=
  let untouched := {| security := None; efficiency := None |} in
  match input_folder with
  | Missing => Some (untouched, Return false)
  | NotADirectory => Some (untouched, Return false)
  | Directory [] => Some (untouched, Return false)
  | Directory jsonl_files =>
      if String.eqb security_file efficiency_file then None
      else
        match open_w security_file with
        | Some e => Some (untouched, during_merge e)
        | None =>
            match open_w efficiency_file with
            | Some e =>
                Some ({| security := Some []; efficiency := None |},
                      during_merge e)
            | None =>
                match merge_files security_file efficiency_file
                        {| sec_outf := []; eff_outf := [] |}
                        jsonl_files with
                | None => None
                | Some (o, r) =>
                    Some ({| security := Some (sec_outf o);
                             efficiency := Some (eff_outf o) |},
                          match r with
                          | Return _ => Return true
                          | Raise e => during_merge e
                          end)
                end
            end
        end
  end.

(** A file that is none of the two outputs and is read to its end. *)
Definition plain (security_file efficiency_file : string) (f : jsonl_file)
  : Prop :=
  path f <> security_file /\ path f <> efficiency_file
  /\ exists ls, opened f = Return {| lines := ls; failure := None |}.

(** A line that the loop passes without an exception leaving it: blank,
    not JSON, or an object. *)
Definition passes (raw : string) : bool :=
  String.eqb (PyStr.strip raw) ""
  || match json_loads (PyStr.strip raw) with
     | Raise e => is_JSONDecodeError e
     | Return (JObject _) => true
     | Return _ => false
     end.

(** A line that is an object of the given classification. *)
Definition classified (c : string) (raw : string) : bool :=
  negb (String.eqb (PyStr.strip raw) "")
  && match json_loads (PyStr.strip raw) with
     | Return (JObject items) =>
         match get items "classification" (VString "NA") with
         | VString classification => String.eqb classification c
         | VOther => false
         end
     | _ => false
     end.

(** What the lines of a classification leave in its output file. *)
Definition written (c : string) (lines : list string) : list string :=
  map (fun raw => (PyStr.strip raw ++ nl)%string) (filter (classified c) lines).

End Merge.

End Merge.

(* ================================================================== *)
(** * Worlds to run the loops in *)
(* ================================================================== *)

(** A world whose oracle follows a script and whose clock follows a table;
    its session keeps no state and echoes the command, its search tool
    finds nothing. *)
Definition scripted (replies : nat -> outcome string) (clock : nat -> Q) : World :=
  {| Session := unit;
     llm_invoke := fun n _ => replies n;
     send_command := fun s c => (s, Return ("$ " ++ c)%string);
     search_invoke := fun _ _ => Return "[]";
     time_time := clock;
     setup_system_text := fun _ => "setup: system";
     setup_task_text := fun _ => "setup: task";
     verify_system_text := fun _ => "verify: system";
     verify_task_text := fun _ => "verify: task" |}.

(** The state an agent starts a stage with, here at time 0 and with a live
    session; [e] is the exception an earlier stage has captured, if any. *)
Definition state_with (e : option exn) : AgentState unit :=
  {| exception := e;
     session := Some tt;
     verify_messages := [];
     setup_commands := [];
     start_time := Some 0%Q;
     trials := 0%Z |}.

Definition always (reply : string) : nat -> outcome string :=
  fun _ => Return reply.

Definition noon : nat -> Q := fun _ => 0%Q.

(* ================================================================== *)
(** * What a windowed prompt is *)
(* ================================================================== *)

(** An oracle input of the setup loop: the prefix, the marker with the
    commands so far, and the last messages of the history behind the
    prefix as it stood then, [seen], which the history [hist] extends. *)
Definition setup_input_ok (p hist input : list message) : Prop :=
  exists cmds seen later,
    hist = p ++ seen ++ later
    /\ input = p ++ Setup.commands_history cmds
                  :: last_n Setup.SETUP_CONVERSATION_WINDOW seen.

(** An oracle input of the verify loop, likewise. *)
Definition verify_input_ok (p hist input : list message) : Prop :=
  exists seen later,
    hist = p ++ seen ++ later
    /\ input = p ++ last_n Verify.VERIFY_CONVERSATION_WINDOW seen.

(* ================================================================== *)
(** * The session after a list of commands; an action as a reply *)
(* ================================================================== *)

(** The session that [send_command] leaves behind when the commands are
    sent one after the other. *)
Definition replay (W : World) (s : Session W) (cmds : list string)
  : Session W :=
  fold_left (fun s c => fst (send_command W s c)) cmds s.

(** An action of the verify grammar written the way the docstring of
    [VerifyAction] asks the oracle to write it. *)
Definition render (a : Verify.VerifyAction) : string :=
  match Verify.action a with
  | Verify.command => "<command>" ++ Verify.args a ++ "</command>"
  | Verify.issue => "<issue>" ++ Verify.args a ++ "</issue>"
  end.

(** A history made of whole steps: replies of the oracle, each followed by
    the message with its observation. *)
Fixpoint exchanges (l : list message) : bool :=
  match l with
  | [] => true
  | reply :: observation :: rest =>
      match msg_role reply, msg_role observation with
      | ai, human =>
          PyStr.startswith ("Observation:" ++ nl) (msg_content observation)
          && exchanges rest
      | _, _ => false
      end
  | [_] => false
  end.

(** A world like [scripted] whose session is the list of the commands it
    has been sent. *)
Definition recording (replies : nat -> outcome string) : World :=
  {| Session := list string;
     llm_invoke := fun n _ => replies n;
     send_command := fun s c => (s ++ [c], Return ("$ " ++ c)%string);
     search_invoke := fun _ _ => Return "[]";
     time_time := noon;
     setup_system_text := fun _ => "setup: system";
     setup_task_text := fun _ => "setup: task";
     verify_system_text := fun _ => "verify: system";
     verify_task_text := fun _ => "verify: task" |}.

(** A state for [recording]: [s] is the session, if there is one. *)
Definition recording_state (s : option (list string))
  : AgentState (list string) :=
  {| exception := None;
     session := s;
     verify_messages := [];
     setup_commands := [];
     start_time := Some 0%Q;
     trials := 0%Z |}.

(** Readers of dates for examples, for some hours of 1 January 2024:
    [toy_timestamp] gives the instant, [toy_mktime] reads the fields as a
    time of a zone two hours east of UTC. *)
Definition toy_timestamp (s : string) : outcome Q :=
  if String.eqb s "2024-01-01T12:00:00Z" then Return 1704110400%Q
  else Raise (Foreign "ParserError" true).

Definition toy_mktime (s : string) : outcome Q :=
  if String.eqb s "2024-01-01T11:00:00Z" then Return (1704106800 - 7200)%Q
  else if String.eqb s "2024-01-01T13:00:00Z"
  then Return (1704114000 - 7200)%Q
  else if String.eqb s "2024-01-01T15:00:00Z"
  then Return (1704121200 - 7200)%Q
  else Raise (Foreign "ValueError" true).

(** A decoder for examples: three lines it knows, anything else is no
    JSON. *)
Definition toy_loads (line : string) : outcome Merge.json :=
  if String.eqb line "sec" then
    Return (Merge.JObject [("classification", Merge.VString "Security")])
  else if String.eqb line "eff" then
    Return (Merge.JObject [("instance_id", Merge.VString "a-1");
                           ("classification", Merge.VString "Efficiency")])
  else if String.eqb line "obj" then Return (Merge.JObject [])
  else if String.eqb line "[]" then Return Merge.JOther
  else Raise (Foreign "JSONDecodeError" true).

(* ================================================================== *)
(** * Facts about the string operations *)
(* ================================================================== *)

Unset Implicit Arguments.

Module PyStrFacts.
Import PyStr.

Lemma startswith_app (p s : string) : startswith p (p ++ s) = true.
Proof.
  induction p as [|a p IH]; simpl.
  - reflexivity.
  - now rewrite Ascii.eqb_refl, IH.
Qed.

Lemma drop_app (p s : string) : drop (String.length p) (p ++ s) = s.
Proof. induction p as [|a p IH]; simpl; auto. Qed.

Lemma startswith_split (p s : string) :
  startswith p s = true -> s = (p ++ drop (String.length p) s)%string.
Proof.
  revert s; induction p as [|a p IH]; intros [|b s]; simpl; try easy.
  intros H. apply andb_true_iff in H as [Hab Hps].
  apply Ascii.eqb_eq in Hab. subst b. f_equal. now apply IH.
Qed.

Lemma append_assoc (a b c : string) :
  ((a ++ b) ++ c = a ++ (b ++ c))%string.
Proof. induction a as [|x a IH]; simpl; congruence. Qed.

Lemma append_nil_r (a : string) : (a ++ "" = a)%string.
Proof. induction a as [|x a IH]; simpl; congruence. Qed.

Lemma length_append (a b : string) :
  String.length (a ++ b) = String.length a + String.length b.
Proof. induction a as [|x a IH]; simpl; auto. Qed.

Lemma contains_here (sub s : string) :
  startswith sub s = true -> contains sub s = true.
Proof. intros H. destruct s; simpl in *; rewrite H; reflexivity. Qed.

Lemma contains_later (sub : string) (c : ascii) (s : string) :
  contains sub s = true -> contains sub (String c s) = true.
Proof. intros H. simpl. rewrite H. apply orb_true_r. Qed.

(** An occurrence is found wherever it stands. *)
Lemma contains_app (sub a b : string) :
  contains sub (a ++ sub ++ b) = true.
Proof.
  induction a as [|x a IH]; simpl append.
  - apply contains_here, startswith_app.
  - now apply contains_later.
Qed.

Lemma contains_cons_false (sub : string) (c : ascii) (s : string) :
  contains sub (String c s) = false ->
  startswith sub (String c s) = false /\ contains sub s = false.
Proof. simpl contains. intros H. now apply orb_false_iff in H. Qed.

Lemma partition_none (sep s : string) :
  contains sep s = false -> partition sep s = None.
Proof.
  induction s as [|c s IH]; intros H.
  - simpl in *. rewrite orb_false_r in H. now rewrite H.
  - apply contains_cons_false in H as [H1 H2].
    cbn [partition]. rewrite H1, (IH H2). reflexivity.
Qed.

Lemma partition_some (sep s : string) :
  contains sep s = true -> exists b a, partition sep s = Some (b, a).
Proof.
  induction s as [|c s IH]; intros H; cbn [partition].
  - simpl in H. rewrite orb_false_r in H. rewrite H. eauto.
  - destruct (startswith sep (String c s)) eqn:E; [eauto|].
    simpl in H. simpl in E. rewrite E in H. simpl in H.
    destruct (IH H) as (b & a & ->). eauto.
Qed.

(** [partition] cuts where it says. *)
Lemma partition_spec (sep s b a : string) :
  partition sep s = Some (b, a) -> s = (b ++ sep ++ a)%string.
Proof.
  revert b; induction s as [|c s IH]; intros b; cbn [partition].
  - destruct (startswith sep "") eqn:E; [|discriminate].
    intros [= <- <-]. now apply startswith_split.
  - destruct (startswith sep (String c s)) eqn:E.
    + intros [= <- <-]. now apply startswith_split.
    + destruct (partition sep s) as [[b' a']|]; [|discriminate].
      intros [= <- <-]. simpl. f_equal. now apply IH.
Qed.

Lemma partition_shorter (sep s b a : string) :
  partition sep s = Some (b, a) ->
  String.length a + String.length sep <= String.length s.
Proof.
  intros H. apply partition_spec in H. subst s.
  rewrite !length_append. lia.
Qed.

(** The fuel of [split] is enough: more of it changes nothing. *)
Lemma split_fuel_enough (sep : string) (n : nat) :
  sep <> "" ->
  forall s, String.length s <= n ->
  split_fuel n sep s = split_fuel (String.length s) sep s.
Proof.
  intros Hsep. induction n as [n IH] using lt_wf_ind. intros s Hn.
  destruct n as [|n], s as [|c s]; simpl String.length in *; try lia;
    try reflexivity.
  - cbn [split_fuel]. destruct (partition sep "") as [[b a]|] eqn:E; auto.
    apply partition_shorter in E. destruct sep; simpl in E; [easy|lia].
  - cbn [split_fuel].
    destruct (partition sep (String c s)) as [[b a]|] eqn:E; auto.
    pose proof (partition_shorter _ _ _ _ E) as Hlen. simpl in Hlen.
    assert (0 < String.length sep) by (destruct sep; simpl; [easy|lia]).
    f_equal.
    rewrite (IH n) by lia.
    symmetry. apply (IH (String.length s)); lia.
Qed.

Lemma split_cons (sep s b a : string) :
  sep <> "" -> partition sep s = Some (b, a) ->
  split sep s = b :: split sep a.
Proof.
  intros Hsep H. unfold split.
  pose proof (partition_shorter _ _ _ _ H) as Hlen.
  assert (0 < String.length sep) by (destruct sep; simpl; [easy|lia]).
  destruct (String.length s) as [|n] eqn:En; [lia|].
  cbn [split_fuel]. rewrite H. f_equal.
  apply split_fuel_enough; [assumption|lia].
Qed.

Lemma split_whole (sep s : string) :
  partition sep s = None -> split sep s = [s].
Proof.
  intros H. unfold split. destruct (String.length s); cbn [split_fuel];
    now rewrite H.
Qed.

(** [s.split(sep)[0]] is what stands before the first occurrence. *)
Lemma split_head (sep s : string) :
  sep <> "" ->
  subscript (split sep s) 0
  = Return (match partition sep s with Some (b, _) => b | None => s end).
Proof.
  intros Hsep. destruct (partition sep s) as [[b a]|] eqn:E.
  - now rewrite (split_cons _ _ _ _ Hsep E).
  - now rewrite (split_whole _ _ E).
Qed.

(** [s.split(sep)[1]] is there exactly when [sep] occurs, and is what
    stands between the first occurrence and the next. *)
Lemma split_second (sep s b a : string) :
  sep <> "" -> partition sep s = Some (b, a) ->
  subscript (split sep s) 1
  = Return (match partition sep a with Some (b', _) => b' | None => a end).
Proof.
  intros Hsep H. rewrite (split_cons _ _ _ _ Hsep H).
  change (subscript (b :: split sep a) 1) with (subscript (split sep a) 0).
  now apply split_head.
Qed.

Lemma split_second_missing (sep s : string) :
  contains sep s = false ->
  subscript (split sep s) 1 = Raise (IndexError "list index out of range").
Proof.
  intros H. now rewrite (split_whole _ _ (partition_none _ _ H)).
Qed.

Lemma partition_here (sep s : string) :
  startswith sep s = true ->
  partition sep s = Some ("", drop (String.length sep) s).
Proof. intros H. destruct s; cbn [partition]; now rewrite H. Qed.

Lemma startswith_over (p u v : string) :
  startswith p (u ++ v) = true ->
  startswith p u = true
  \/ exists p2, p = (u ++ p2)%string /\ p2 <> "" /\ startswith p2 v = true.
Proof.
  revert p; induction u as [|x u IH]; intros p H.
  - destruct p as [|a p]; [now left|].
    right. exists (String a p). now repeat split.
  - destruct p as [|a p]; [now left|].
    simpl in H. apply andb_true_iff in H as [Hax Hp].
    apply Ascii.eqb_eq in Hax. subst x.
    destruct (IH p Hp) as [Hl | (p2 & -> & Hne & Hv)].
    + left. simpl. now rewrite Ascii.eqb_refl.
    + right. exists p2. now repeat split.
Qed.

Lemma char_in_app (c : ascii) (a b : string) :
  char_in c (a ++ String c b) = true.
Proof.
  induction a as [|x a IH]; simpl.
  - now rewrite Ascii.eqb_refl.
  - rewrite IH. apply orb_true_r.
Qed.

Lemma startswith_head (p : string) (c : ascii) (s : string) :
  p <> "" -> startswith p (String c s) = true -> exists p', p = String c p'.
Proof.
  destruct p as [|a p]; [easy|]. simpl. intros _ H.
  apply andb_true_iff in H as [H _]. apply Ascii.eqb_eq in H. subst.
  now exists p.
Qed.

(** A tag that starts with [c] and has no other [c] cannot begin inside a
    non-empty [u] and run into something that starts with [c] again. *)
Lemma no_straddle (c : ascii) (t u v : string) :
  char_in c t = false -> u <> "" ->
  startswith (String c t) (u ++ String c v) = true ->
  startswith (String c t) u = true.
Proof.
  intros Hc Hu H.
  destruct (startswith_over _ _ _ H) as [Hl | (p2 & Hp & Hne & Hv)]; [easy|].
  destruct (startswith_head _ _ _ Hne Hv) as (p' & ->).
  destruct u as [|x u]; [easy|].
  simpl in Hp. injection Hp as _ Ht. subst t.
  now rewrite char_in_app in Hc.
Qed.

(** The first occurrence of such a tag after a text without it. *)
Lemma partition_first (sep pre rest : string) :
  own_head sep = true -> contains sep pre = false ->
  partition sep (pre ++ sep ++ rest) = Some (pre, rest).
Proof.
  intros Hown. destruct sep as [|c t]; [easy|].
  apply negb_true_iff in Hown.
  induction pre as [|x pre IH]; intros Hpre.
  - change (("" ++ String c t ++ rest)%string)
      with ((String c t ++ rest)%string).
    rewrite partition_here by apply startswith_app.
    now rewrite drop_app.
  - apply contains_cons_false in Hpre as [Hx Hpre'].
    change ((String x pre ++ String c t ++ rest)%string)
      with (String x (pre ++ String c t ++ rest)).
    cbn [partition].
    destruct (startswith (String c t) (String x (pre ++ String c t ++ rest)))
      eqn:E.
    + change (String x (pre ++ String c t ++ rest))
        with ((String x pre ++ String c (t ++ rest))%string) in E.
      apply no_straddle in E; [congruence|assumption|easy].
    + now rewrite (IH Hpre').
Qed.

Lemma clash_startswith (p q v : string) :
  clash p q = true -> startswith p (q ++ v) = false.
Proof.
  revert q; induction p as [|a p IH]; intros [|b q]; simpl; try easy.
  intros H. destruct (Ascii.eqb a b); simpl in *; [now apply IH|reflexivity].
Qed.

Lemma partition_skip (c : ascii) (t s v : string) :
  char_in c s = false ->
  partition (String c t) (s ++ v)
  = match partition (String c t) v with
    | Some (b, a) => Some ((s ++ b)%string, a)
    | None => None
    end.
Proof.
  induction s as [|x s IH]; intros H.
  - simpl append. destruct (partition (String c t) v) as [[b a]|]; reflexivity.
  - simpl in H. apply orb_false_iff in H as [Hcx Hs].
    change ((String x s ++ v)%string) with (String x (s ++ v)).
    cbn [partition startswith]. rewrite Hcx. cbn [andb].
    rewrite (IH Hs).
    destruct (partition (String c t) v) as [[b a]|]; reflexivity.
Qed.

(** After a text without the opening tag and a closing tag that starts with
    the same character, the next opening tag is looked for behind the
    closing tag. *)
Lemma partition_past (c : ascii) (tA tB T v : string) :
  char_in c tA = false -> char_in c tB = false ->
  clash (String c tA) (String c tB) = true ->
  contains (String c tA) T = false ->
  partition (String c tA) (T ++ String c tB ++ v)
  = match partition (String c tA) v with
    | Some (b, a) => Some ((T ++ String c tB ++ b)%string, a)
    | None => None
    end.
Proof.
  intros HA HB Hclash.
  induction T as [|x T IH]; intros HT.
  - change (("" ++ String c tB ++ v)%string) with (String c (tB ++ v)).
    cbn [partition].
    change (String c (tB ++ v)) with ((String c tB ++ v)%string) at 1.
    rewrite (clash_startswith _ _ v Hclash).
    rewrite (partition_skip c tA tB v HB).
    destruct (partition (String c tA) v) as [[b a]|]; reflexivity.
  - apply contains_cons_false in HT as [Hx HT'].
    change ((String x T ++ String c tB ++ v)%string)
      with (String x (T ++ String c tB ++ v)).
    cbn [partition].
    destruct (startswith (String c tA) (String x (T ++ String c tB ++ v)))
      eqn:E.
    + change (String x (T ++ String c tB ++ v))
        with ((String x T ++ String c (tB ++ v))%string) in E.
      apply no_straddle in E; [congruence|assumption|easy].
    + rewrite (IH HT').
      destruct (partition (String c tA) v) as [[b a]|]; reflexivity.
Qed.

(** The content of the first tag pair:
    [(pre + open + text + close + post).split(open)[1].split(close)[0]]. *)
Lemma tag_content (c : ascii) (tA tB pre text post : string) :
  char_in c tA = false -> char_in c tB = false ->
  clash (String c tA) (String c tB) = true ->
  contains (String c tA) pre = false ->
  contains (String c tA) text = false ->
  contains (String c tB) text = false ->
  exists after,
    subscript (split (String c tA)
                 (pre ++ String c tA ++ text ++ String c tB ++ post)) 1
    = Return after
    /\ subscript (split (String c tB) after) 0 = Return text.
Proof.
  intros HA HB Hclash Hpre HtA HtB.
  assert (HownA : own_head (String c tA) = true)
    by (simpl; now rewrite HA).
  assert (HownB : own_head (String c tB) = true)
    by (simpl; now rewrite HB).
  pose proof (partition_first (String c tA) pre
                (text ++ String c tB ++ post) HownA Hpre) as H1.
  assert (HneA : String c tA <> "") by discriminate.
  assert (HneB : String c tB <> "") by discriminate.
  eexists. split.
  - apply (split_second _ _ _ _ HneA H1).
  - rewrite (partition_past c tA tB text post HA HB Hclash HtA).
    rewrite (split_head _ _ HneB).
    destruct (partition (String c tA) post) as [[b a]|].
    + now rewrite (partition_first (String c tB) text b HownB HtB).
    + now rewrite (partition_first (String c tB) text post HownB HtB).
Qed.

End PyStrFacts.

(* ================================================================== *)
(** * Reasoning about the loops *)
(* ================================================================== *)

Section While.

Context {S : Type} (cond : S -> bool) (body : M S control).

(** The rule of the loop: [P] holds at the head of every pass, [Q] of the
    locals the loop ends with, however it ends. *)
Lemma while_rule (P : S -> Prop) (Q : S -> outcome unit -> Prop) :
  (forall s, P s -> cond s = false -> Q s (Return tt)) ->
  (forall s s', P s -> cond s = true ->
                body s = (s', Return Continue) -> P s') ->
  (forall s s', P s -> cond s = true ->
                body s = (s', Return Break) -> Q s' (Return tt)) ->
  (forall s s' e, P s -> cond s = true ->
                  body s = (s', Raise e) -> Q s' (Raise e)) ->
  forall fuel s s' o,
    P s -> while fuel cond body s = Some (s', o) -> Q s' o.
Proof.
  intros Hexit Hgo Hbreak Hraise.
  induction fuel as [|fuel IH]; intros s s' o HP; simpl;
    destruct (cond s) eqn:Hc; try discriminate.
  - intros [= <- <-]. now apply Hexit.
  - destruct (body s) as [s1 [[|]|e]] eqn:Hb.
    + apply IH. eapply Hgo; eauto.
    + intros [= <- <-]. eapply Hbreak; eauto.
    + intros [= <- <-]. eapply Hraise; eauto.
  - intros [= <- <-]. now apply Hexit.
Qed.

(** A loop whose passes use up a measure ends within the fuel that covers
    the measure. *)
Lemma while_total (measure : S -> nat) :
  (forall s, cond s = true -> 0 < measure s) ->
  (forall s s', cond s = true -> body s = (s', Return Continue) ->
                measure s' < measure s) ->
  forall fuel s, measure s <= fuel ->
  exists r, while fuel cond body s = Some r.
Proof.
  intros Hpos Hdec.
  induction fuel as [|fuel IH]; intros s Hm; simpl;
    destruct (cond s) eqn:Hc; eauto.
  - apply Hpos in Hc. lia.
  - destruct (body s) as [s1 [[|]|e]] eqn:Hb; eauto.
    apply IH. specialize (Hdec _ _ Hc Hb). lia.
Qed.

(** One more pass at the head of a loop. *)
Lemma while_unfold (fuel : nat) (s s' : S) :
  cond s = true -> body s = (s', Return Continue) ->
  while (Datatypes.S fuel) cond body s = while fuel cond body s'.
Proof. intros Hc Hb. simpl. now rewrite Hc, Hb. Qed.

Lemma while_break (fuel : nat) (s s' : S) :
  cond s = true -> body s = (s', Return Break) ->
  while (Datatypes.S fuel) cond body s = Some (s', Return tt).
Proof. intros Hc Hb. simpl. now rewrite Hc, Hb. Qed.

Lemma while_raise (fuel : nat) (s s' : S) (e : exn) :
  cond s = true -> body s = (s', Raise e) ->
  while (Datatypes.S fuel) cond body s = Some (s', Raise e).
Proof. intros Hc Hb. simpl. now rewrite Hc, Hb. Qed.

End While.

(** Unfolds the monadic plumbing of a loop body. *)
Ltac unfold_monad :=
  unfold bind, ret, raise, get, modify, lift in *.

Module VerifyFacts.
Import Verify.

Section Loop.

Variable W : World.

(** The body of the loop, case by case. *)
Lemma verify_body_eq (n : nat) (l : locals W) :
  body n l =
  let input := input_messages n (messages l) in
  let l1 := with_call input (with_step (fun s => s + 1)%Z l) in
  match llm_invoke W (List.length (calls l)) input with
  | Raise e => (l1, Raise e)
  | Return r =>
      match drop_reasoning r with
      | Raise e => (l1, Raise e)
      | Return c =>
          let l2 := with_messages (fun m => m ++ [AIMessage c]) l1 in
          match parse_verify_action c with
          | Raise e => (l2, Raise e)
          | Return None =>
              (l2, Raise (AttributeError
                            "'NoneType' object has no attribute 'action'"))
          | Return (Some a) =>
              let l3 := match action a with
                        | command =>
                            with_commands (fun cs => cs ++ [args a]) l2
                        | issue => l2
                        end in
              match observation_for_verify_action W (Some a) (sess l3) with
              | (s', Raise e) => (with_sess s' l3, Raise e)
              | (s', Return ob) =>
                  let l4 :=
                    with_messages
                      (fun m => m ++ [HumanMessage
                                        ("Observation:" ++ nl ++ content ob)])
                      (with_sess s' l3) in
                  match action a with
                  | command => (l4, Return Continue)
                  | issue =>
                      if String.eqb (content ob) ""
                      then (with_success true l4, Return Break)
                      else (with_issue (Some (content ob)) l4, Return Break)
                  end
              end
          end
      end
  end.
Proof.
  unfold body, invoke_llm, observe. unfold_monad. cbv zeta.
  destruct (llm_invoke W _ _) as [r|e]; [|reflexivity].
  destruct (drop_reasoning r) as [c|e]; [|reflexivity].
  destruct (parse_verify_action c) as [[a|]|e]; try reflexivity.
  destruct (action a);
    destruct (observation_for_verify_action _ _ _) as [s' [ob|e]];
    try reflexivity.
  destruct (String.eqb (content ob) ""); reflexivity.
Qed.

(** Splits a hypothesis [body n l = (l', o)] into the ways the pass can
    go. *)
Ltac body_cases H :=
  rewrite verify_body_eq in H; cbv zeta in H;
  repeat match type of H with
         | context [match ?x with _ => _ end] => destruct x eqn:?
         end;
  inversion H; subst; clear H.

Ltac fields :=
  cbn [messages commands step success issue_text sess calls
       with_messages with_commands with_step with_success with_issue
       with_sess with_call] in *.

(** Every pass counts one step and calls the oracle once, on the window
    of the messages it found. *)
Lemma verify_body_step (n : nat) (l l' : locals W) (o : outcome control) :
  body n l = (l', o) ->
  step l' = (step l + 1)%Z
  /\ calls l' = calls l ++ [input_messages n (messages l)].
Proof. intros H. body_cases H; fields; auto. Qed.

(** A pass only appends to the messages. *)
Lemma verify_body_appends (n : nat) (l l' : locals W) (o : outcome control) :
  body n l = (l', o) -> exists more, messages l' = messages l ++ more.
Proof.
  intros H. body_cases H; fields;
    repeat rewrite <- app_assoc; eauto.
  all: exists []; now rewrite app_nil_r.
Qed.

(** A pass that goes on has judged nothing. *)
Lemma verify_body_continue (n : nat) (l l' : locals W) :
  body n l = (l', Return Continue) ->
  success l' = success l /\ issue_text l' = issue_text l.
Proof. intros H. body_cases H; fields; auto. Qed.

Section Run.

Variable max_steps : Z.
Variable state : AgentState (Session W).

(** What holds of the locals at the head of every pass. *)
Lemma verify_reaches_inv (l : locals W) :
  reaches max_steps state l ->
  success l = false /\ issue_text l = None
  /\ step l = Z.of_nat (List.length (calls l))
  /\ exists rest, messages l = prefix W state ++ rest.
Proof.
  induction 1 as [|l l' Hr (Hs & Hi & Hc & rest & Hm) Hlt Hb].
  - repeat split; auto. exists []. simpl. reflexivity.
  - destruct (verify_body_continue _ _ _ Hb) as [Hs' Hi'].
    destruct (verify_body_step _ _ _ _ Hb) as [Hst Hcs].
    destruct (verify_body_appends _ _ _ _ Hb) as [more Hmore].
    repeat split; try congruence.
    + rewrite Hst, Hcs, Hc, length_app. simpl. lia.
    + exists (rest ++ more). rewrite Hmore, Hm. now rewrite app_assoc.
Qed.

(** From the head of a pass, the rest of the loop is the loop. *)
Lemma verify_reaches_while (l : locals W) :
  reaches max_steps state l ->
  while (Z.to_nat max_steps) (fun l : locals W => (step l <? max_steps)%Z)
    (body (List.length (prefix W state))) (entry W state)
  = while (Z.to_nat (max_steps - step l)) (fun l : locals W => (step l <? max_steps)%Z)
      (body (List.length (prefix W state))) l.
Proof.
  induction 1 as [|l l' Hr IH Hlt Hb].
  - simpl. now rewrite Z.sub_0_r.
  - rewrite IH. apply Z.ltb_lt in Hlt.
    destruct (verify_body_step _ _ _ _ Hb) as [Hst _].
    replace (Z.to_nat (max_steps - step l))
      with (S (Z.to_nat (max_steps - step l'))) by lia.
    apply while_unfold; [now apply Z.ltb_lt | exact Hb].
Qed.

(** The loop ends within its fuel. *)
Lemma verify_loop_total (l : locals W) :
  exists r,
    while (Z.to_nat (max_steps - step l)) (fun l : locals W => (step l <? max_steps)%Z)
      (body (List.length (prefix W state))) l = Some r.
Proof.
  apply (while_total (fun l : locals W => (step l <? max_steps)%Z)
           (body (List.length (prefix W state)))
           (fun l => Z.to_nat (max_steps - step l))).
  - intros s Hs. apply Z.ltb_lt in Hs. lia.
  - intros s s' Hs Hb. apply Z.ltb_lt in Hs.
    destruct (verify_body_step _ _ _ _ Hb) as [Hst _]. lia.
  - lia.
Qed.

End Run.

(** The run of [verify] whose loop comes to a pass with an issue for a
    reply. *)
Lemma run_issue (max_steps : Z) (state : AgentState (Session W))
  (l : locals W) (reply c t : string) :
  exception state = None ->
  reaches max_steps state l ->
  (step l < max_steps)%Z ->
  llm_invoke W (List.length (calls l))
    (input_messages (List.length (prefix W state)) (messages l))
  = Return reply ->
  drop_reasoning reply = Return c ->
  parse_verify_action c = Return (Some {| action := issue; args := t |}) ->
  exists l' r,
    verify W max_steps state = Some (l', Return (Update r))
    /\ step l' = (step l + 1)%Z
    /\ messages l'
       = messages l
         ++ [AIMessage c;
             HumanMessage ("Observation:" ++ nl
                             ++ (if String.eqb t "none" then "" else t))]
    /\ r_messages r = messages l'
    /\ r_success r = (String.eqb t "none" || String.eqb t "")%bool
    /\ r_issue r = if (String.eqb t "none" || String.eqb t "")%bool
                   then None else Some t.
Proof.
  intros Hexc Hreach Hlt Hllm Hdrop Hparse.
  destruct (verify_reaches_inv _ _ _ Hreach) as (Hs & Hi & _).
  unfold verify, verify_call. rewrite Hexc.
  rewrite (verify_reaches_while _ _ _ Hreach).
  replace (Z.to_nat (max_steps - step l))
    with (S (Z.to_nat (max_steps - step l - 1))) by lia.
  pose proof (verify_body_eq (List.length (prefix W state)) l) as Hb.
  cbv zeta in Hb. rewrite Hllm, Hdrop, Hparse in Hb.
  cbn [action args observation_for_verify_action] in Hb.
  destruct (String.eqb t "none") eqn:Hnone.
  - cbn [content String.eqb] in Hb.
    erewrite while_break; [|now apply Z.ltb_lt|exact Hb].
    do 2 eexists. cbn [auto_catch]. split; [reflexivity|].
    cbn. rewrite <- app_assoc. auto.
  - cbn [content] in Hb. destruct (String.eqb t "") eqn:Hempty.
    + erewrite while_break; [|now apply Z.ltb_lt|exact Hb].
      do 2 eexists. cbn [auto_catch]. split; [reflexivity|].
      cbn. rewrite <- app_assoc. auto.
    + erewrite while_break; [|now apply Z.ltb_lt|exact Hb].
      do 2 eexists. cbn [auto_catch]. split; [reflexivity|].
      cbn. rewrite <- app_assoc. auto 6.
Qed.

(** The loop never passes its budget, however it ends. *)
Lemma verify_loop_bound (max_steps : Z) (n : nat) (fuel : nat)
  (l0 l : locals W) (o : outcome unit) :
  step l0 = Z.of_nat (List.length (calls l0)) ->
  (step l0 <= Z.max 0 max_steps)%Z ->
  while fuel (fun l => (step l <? max_steps)%Z) (body n) l0 = Some (l, o) ->
  (step l <= Z.max 0 max_steps)%Z
  /\ step l = Z.of_nat (List.length (calls l)).
Proof.
  intros H1 H2 Hw.
  assert (Hpass : forall (s s' : locals W) o',
            step s = Z.of_nat (List.length (calls s))
            /\ (step s <= Z.max 0 max_steps)%Z ->
            (step s <? max_steps)%Z = true -> body n s = (s', o') ->
            (step s' <= Z.max 0 max_steps)%Z
            /\ step s' = Z.of_nat (List.length (calls s'))).
  { intros s s' o' [Ha Hb] Hlt Hbody. apply Z.ltb_lt in Hlt.
    destruct (verify_body_step _ _ _ _ Hbody) as [Hst Hcs].
    rewrite Hst, Hcs, length_app. simpl. lia. }
  refine (while_rule (fun l => (step l <? max_steps)%Z) (body n)
            (fun l : locals W => step l = Z.of_nat (List.length (calls l))
                      /\ (step l <= Z.max 0 max_steps)%Z)
            (fun (l : locals W) _ => (step l <= Z.max 0 max_steps)%Z
                        /\ step l = Z.of_nat (List.length (calls l)))
            _ _ _ _ fuel l0 l o (conj H1 H2) Hw).
  - intros s [Ha Hb] _. auto.
  - intros s s' HI Hlt Hbody.
    destruct (Hpass _ _ _ HI Hlt Hbody). auto.
  - intros s s' HI Hlt Hbody. eapply Hpass; eauto.
  - intros s s' e HI Hlt Hbody. eapply Hpass; eauto.
Qed.

End Loop.

End VerifyFacts.

(* ================================================================== *)
(** * Rounding to a float *)
(* ================================================================== *)

Module Binary64Facts.
Import Binary64.
Local Open Scope Z_scope.

Lemma rhe_cases (n d : Z) :
  0 < d ->
  exists q r, n = d * q + r /\ 0 <= r < d
    /\ ((2 * r < d /\ round_half_even n d = q)
        \/ (2 * r = d /\ Z.even q = true /\ round_half_even n d = q)
        \/ (2 * r = d /\ Z.even q = false /\ round_half_even n d = q + 1)
        \/ (d < 2 * r /\ round_half_even n d = q + 1)).
Proof.
  intros Hd. exists (n / d), (n mod d).
  split; [apply Z.div_mod; lia|].
  split; [apply Z.mod_pos_bound; lia|].
  unfold round_half_even.
  destruct (Z.compare_spec (2 * (n mod d)) d) as [H|H|H].
  - destruct (Z.even (n / d)) eqn:E; [right; left|right; right; left]; auto.
  - left. auto.
  - right. right. right. auto.
Qed.

Lemma rhe_ge (n d K : Z) : 0 < d -> K * d <= n -> K <= round_half_even n d.
Proof.
  intros Hd H. destruct (rhe_cases n d Hd) as (q & r & Hn & Hr & Hc).
  assert (K <= q) by nia.
  destruct Hc as [(_ & ->)|[(_ & _ & ->)|[(_ & _ & ->)|(_ & ->)]]]; lia.
Qed.

Lemma rhe_le (n d K : Z) : 0 < d -> n <= K * d -> round_half_even n d <= K.
Proof.
  intros Hd H. destruct (rhe_cases n d Hd) as (q & r & Hn & Hr & Hc).
  assert (q <= K) by nia.
  destruct Hc as [(H1 & ->)|[(_ & _ & ->)|[(H1 & _ & ->)|(H1 & ->)]]];
    try lia; nia.
Qed.

Lemma rhe_gt_even (n d K : Z) :
  0 < d -> Z.even K = true ->
  (K < round_half_even n d <-> (2 * K + 1) * d < 2 * n).
Proof.
  intros Hd HK. destruct (rhe_cases n d Hd) as (q & r & Hn & Hr & Hc).
  destruct Hc as [(H1 & ->)|[(H1 & _ & ->)|[(H1 & Hq & ->)|(H1 & ->)]]].
  - split; intros H; nia.
  - split; intros H; nia.
  - assert (Hne : K <> q) by (intros ->; congruence).
    split; intros H; nia.
  - split; intros H; nia.
Qed.

Lemma up_pos (e : Z) : 0 < up e.
Proof. unfold up. apply Z.pow_pos_nonneg; lia. Qed.

Lemma down_pos (e : Z) : 0 < down e.
Proof. unfold down. apply Z.pow_pos_nonneg; lia. Qed.

Lemma up_nonneg (e : Z) : 0 <= e -> up e = 2 ^ e /\ down e = 1.
Proof.
  intros H. unfold up, down. rewrite Z.max_l, Z.max_r by lia. auto.
Qed.

Lemma up_neg (e : Z) : e <= 0 -> up e = 1 /\ down e = 2 ^ (- e).
Proof.
  intros H. unfold up, down. rewrite Z.max_r, Z.max_l by lia. auto.
Qed.

(** [exponent n d] is the integer part of the binary logarithm of [n / d]. *)
Lemma exponent_spec (n d : Z) :
  0 < n -> 0 < d ->
  d * up (exponent n d) <= n * down (exponent n d)
  /\ n * down (exponent n d + 1) < d * up (exponent n d + 1).
Proof.
  intros Hn Hd. unfold exponent.
  destruct (Z.log2_spec n Hn) as [Hn1 Hn2].
  destruct (Z.log2_spec d Hd) as [Hd1 Hd2].
  pose proof (Z.log2_nonneg n) as Hln. pose proof (Z.log2_nonneg d) as Hld.
  rewrite Z.pow_succ_r in Hn2, Hd2 by assumption.
  remember (Z.log2 n) as ln. remember (Z.log2 d) as ld.
  set (k := ln - ld).
  assert (Hpn : 0 < 2 ^ ln) by (apply Z.pow_pos_nonneg; lia).
  assert (Hpd : 0 < 2 ^ ld) by (apply Z.pow_pos_nonneg; lia).
  destruct (Z.leb_spec (d * up k) (n * down k)) as [Ht|Ht].
  - split; [assumption|].
    destruct (Z_le_gt_dec 0 k) as [Hk|Hk].
    + destruct (up_nonneg (k + 1)) as [-> ->]; [lia|].
      assert (E : 2 ^ ln = 2 ^ ld * 2 ^ k)
        by (rewrite <- Z.pow_add_r by lia; f_equal; lia).
      rewrite Z.pow_add_r by lia. change (2 ^ 1) with 2.
      assert (0 < 2 ^ k) by (apply Z.pow_pos_nonneg; lia). nia.
    + destruct (up_neg (k + 1)) as [-> ->]; [lia|].
      assert (E : 2 ^ ld = 2 ^ ln * 2 ^ (- (k + 1)) * 2).
      { rewrite <- Z.mul_assoc.
        replace (2 ^ (- (k + 1)) * 2) with (2 ^ (- (k + 1) + 1))
          by (rewrite Z.pow_add_r by lia; reflexivity).
        rewrite <- Z.pow_add_r by lia. f_equal. lia. }
      assert (0 < 2 ^ (- (k + 1))) by (apply Z.pow_pos_nonneg; lia). nia.
  - replace (k - 1 + 1) with k by lia. split; [|lia].
    destruct (Z_le_gt_dec 1 k) as [Hk|Hk].
    + destruct (up_nonneg (k - 1)) as [-> ->]; [lia|].
      assert (E : 2 ^ ln = 2 ^ ld * 2 ^ (k - 1) * 2).
      { rewrite <- Z.mul_assoc.
        replace (2 ^ (k - 1) * 2) with (2 ^ (k - 1 + 1))
          by (rewrite Z.pow_add_r by lia; reflexivity).
        rewrite <- Z.pow_add_r by lia. f_equal. lia. }
      assert (0 < 2 ^ (k - 1)) by (apply Z.pow_pos_nonneg; lia). nia.
    + destruct (up_neg (k - 1)) as [-> ->]; [lia|].
      assert (E : 2 ^ ld = 2 ^ ln * 2 ^ (- k))
        by (rewrite <- Z.pow_add_r by lia; f_equal; lia).
      replace (- (k - 1)) with (- k + 1) by lia.
      rewrite Z.pow_add_r by lia. change (2 ^ 1) with 2.
      assert (0 < 2 ^ (- k)) by (apply Z.pow_pos_nonneg; lia). nia.
Qed.

(** The exponent against a power of two. *)
Lemma exponent_lt (n d E : Z) :
  0 < n -> 0 < d -> 0 <= E -> n < d * 2 ^ E -> exponent n d < E.
Proof.
  intros Hn Hd HE Hlt.
  destruct (exponent_spec n d Hn Hd) as [Hlo _].
  destruct (Z_lt_ge_dec (exponent n d) E) as [|Hge]; [assumption|exfalso].
  destruct (up_nonneg (exponent n d)) as [Hu Hdn]; [lia|].
  rewrite Hu, Hdn in Hlo.
  assert (2 ^ E <= 2 ^ exponent n d) by (apply Z.pow_le_mono_r; lia).
  nia.
Qed.

Lemma exponent_ge (n d E : Z) :
  0 < n -> 0 < d -> 0 <= E -> d * 2 ^ E <= n -> E <= exponent n d.
Proof.
  intros Hn Hd HE Hle.
  destruct (exponent_spec n d Hn Hd) as [_ Hhi].
  destruct (Z_le_gt_dec E (exponent n d)) as [|Hlt]; [assumption|exfalso].
  destruct (Z_le_gt_dec 0 (exponent n d + 1)) as [Hs|Hs].
  - destruct (up_nonneg (exponent n d + 1)) as [Hu Hdn]; [lia|].
    rewrite Hu, Hdn in Hhi.
    assert (2 ^ (exponent n d + 1) <= 2 ^ E)
      by (apply Z.pow_le_mono_r; lia).
    nia.
  - destruct (up_neg (exponent n d + 1)) as [Hu Hdn]; [lia|].
    rewrite Hu, Hdn in Hhi.
    assert (0 < 2 ^ (- (exponent n d + 1)))
      by (apply Z.pow_pos_nonneg; lia).
    assert (0 < 2 ^ E) by (apply Z.pow_pos_nonneg; lia).
    nia.
Qed.

(** Rounding against the integer 1800: the difference is above it exactly
    when the number rounded is above the middle between 1800 and the next
    float, [1800 + 2 ^ -42]. *)
Lemma round_gt_1800 (x : Q) :
  gt (round x) 1800 = true <-> (1800 + (1 # 2 ^ 43) < x)%Q.
Proof.
  destruct x as [n p]. unfold Qlt. cbn [Qnum Qden].
  unfold round. cbn [Qnum Qden].
  set (d := Z.pos p). assert (Hd : 0 < d) by (unfold d; lia).
  change (Qnum (1800 + (1 # 2 ^ 43))) with 15832967439974401.
  change (Z.pos (Qden (1800 + (1 # 2 ^ 43)))) with 8796093022208.
  destruct (Z.eqb_spec n 0) as [->|Hn0].
  { cbn. split; [discriminate|lia]. }
  destruct (Z.ltb_spec n 0) as [Hneg|Hpos].
  { (* a negative number *)
    split; [|intros H; exfalso; nia].
    set (e := Z.max (exponent (Z.abs n) d - 52) (-1074)).
    pose proof (up_pos e) as Hu. pose proof (down_pos e) as Hdn.
    assert (Hm : 0 <= round_half_even (Z.abs n * down e) (d * up e))
      by (apply rhe_ge; nia).
    destruct (_ && _); cbn [gt negb]; [discriminate|].
    unfold Qle_bool. cbn [Qnum Qden Qopp].
    intros H. apply negb_true_iff in H. apply Z.leb_gt in H. exfalso. nia. }
  assert (Hn : 0 < n) by lia.
  rewrite (Z.abs_eq n) by lia.
  remember (exponent n d) as E eqn:HEdef.
  remember (Z.max (E - 52) (-1074)) as e eqn:Hedef.
  remember (round_half_even (n * down e) (d * up e)) as m eqn:Hmdef.
  pose proof (up_pos e) as Hu. pose proof (down_pos e) as Hdn.
  assert (Hv : forall c,
             gt (Finite (m * up e # Z.to_pos (down e))) (inject_Z c) = true
             <-> c * down e < m * up e).
  { intros c. cbn [gt]. unfold Qle_bool. cbn [Qnum Qden inject_Z].
    rewrite Z2Pos.id by assumption. rewrite negb_true_iff, Z.leb_gt. lia. }
  change 1800%Q with (inject_Z 1800).
  destruct (Z_lt_ge_dec n (1024 * d)) as [Hsmall|Hge].
  { (* below 1024 *)
    assert (HE : E < 10)
      by (subst E; apply exponent_lt; try lia;
          change (2 ^ 10) with 1024; lia).
    assert (He : e <= -43) by lia.
    destruct (up_neg e) as [Hue Hde]; [lia|].
    destruct (Z.leb_spec 971 e) as [|_]; [lia|]. cbn [andb].
    rewrite Hv. split; [|intros H; exfalso; lia].
    intros H. exfalso.
    assert (Hm : m <= 1024 * down e)
      by (subst m; apply rhe_le; [nia|rewrite Hue; nia]).
    rewrite Hue in H. nia. }
  destruct (Z_lt_ge_dec n (2048 * d)) as [Hmid|Hbig].
  { (* from 1024 to 2048: the binade of 1800 *)
    assert (HE : E = 10).
    { assert (E < 11)
        by (subst E; apply exponent_lt; try lia;
            change (2 ^ 11) with 2048; lia).
      assert (10 <= E)
        by (subst E; apply exponent_ge; try lia;
            change (2 ^ 10) with 1024; lia).
      lia. }
    assert (He : e = -42) by lia.
    rewrite He in Hmdef, Hv |- *.
    change (up (-42)) with 1 in Hmdef, Hv |- *.
    change (down (-42)) with 4398046511104 in Hmdef, Hv |- *.
    change (971 <=? -42) with false. cbn [andb].
    rewrite Hv, Hmdef. rewrite !Z.mul_1_r.
    rewrite (rhe_gt_even (n * 4398046511104) d 7916483719987200 Hd eq_refl).
    lia. }
  (* from 2048 on *)
  assert (HE : 11 <= E)
    by (subst E; apply exponent_ge; try lia;
        change (2 ^ 11) with 2048; lia).
  assert (He : e = E - 52) by lia.
  destruct (exponent_spec n d Hn Hd) as [Hlo _]. rewrite <- HEdef in Hlo.
  destruct (up_nonneg E) as [HuE HdE]; [lia|]. rewrite HuE, HdE in Hlo.
  assert (Hm : 2 ^ 52 <= m).
  { rewrite Hmdef. apply rhe_ge; [nia|].
    destruct (Z_le_gt_dec 0 e) as [Hs|Hs].
    - destruct (up_nonneg e Hs) as [-> ->].
      replace (2 ^ E) with (2 ^ 52 * 2 ^ e) in Hlo
        by (rewrite <- Z.pow_add_r by lia; f_equal; lia).
      nia.
    - destruct (up_neg e) as [-> ->]; [lia|].
      assert (Hp : 2 ^ E * 2 ^ (- e) = 2 ^ 52)
        by (rewrite <- Z.pow_add_r by lia; f_equal; lia).
      assert (0 < 2 ^ (- e)) by (apply Z.pow_pos_nonneg; lia).
      nia. }
  split; [intros _; lia|intros _].
  destruct (_ && _); [reflexivity|].
  apply Hv.
  destruct (Z_le_gt_dec 0 e) as [Hs|Hs].
  - destruct (up_nonneg e Hs) as [Hue Hde]. rewrite Hue, Hde.
    assert (0 < 2 ^ e) by (apply Z.pow_pos_nonneg; lia).
    change (2 ^ 52) with 4503599627370496 in Hm. nia.
  - destruct (up_neg e) as [Hue Hde]; [lia|]. rewrite Hue, Hde.
    assert (2 ^ (- e) <= 2 ^ 41) by (apply Z.pow_le_mono_r; lia).
    change (2 ^ 41) with 2199023255552 in *.
    change (2 ^ 52) with 4503599627370496 in Hm. nia.
Qed.

End Binary64Facts.

Module SetupFacts.
Import Setup.

Section Loop.

Variable W : World.
Variable P : ActionParser.

(** The body of the loop, case by case. *)
Lemma setup_body_eq (start : option Q) (n : nat) (l : locals W) :
  body P start n l =
  let l0 := with_tick l in
  match start with
  | None =>
      (l0, Raise (TypeError
                    "unsupported operand type(s) for -: 'float' and 'NoneType'"))
  | Some t0 =>
      if timed_out (time_time W (ticks l)) t0
      then (l0, Raise (TimeoutError "Reached global timeout of 30 minutes"))
      else
        let input := input_messages n (commands l) (messages l) in
        let l1 := with_call input (with_step (fun s => s + 1)%Z l0) in
        match llm_invoke W (List.length (calls l)) input with
        | Raise e => (l1, Raise e)
        | Return r =>
            let l2 := with_messages (fun m => m ++ [AIMessage r]) l1 in
            match parse_setup_action P r with
            | Raise e => (l2, Raise e)
            | Return a =>
                let l3 := match a with
                          | Some (Command c) =>
                              with_commands (fun cs => cs ++ [c]) l2
                          | _ => l2
                          end in
                match observation_for_setup_action W
                        (List.length (calls l3)) (sess l3) a with
                | (s', Raise e) => (with_sess s' l3, Raise e)
                | (s', Return ob) =>
                    if is_stop ob then (with_sess s' l3, Return Break)
                    else
                      (with_messages
                         (fun m => m ++ [HumanMessage
                                           ("Observation:" ++ nl ++ content ob)])
                         (with_sess s' l3),
                       Return Continue)
                end
            end
        end
  end.
Proof.
  unfold body, check_timeout, read_clock, invoke_llm, observe.
  unfold_monad. cbv zeta.
  destruct start as [t0|]; [|reflexivity].
  cbn [ticks with_tick].
  destruct (timed_out _ _); [reflexivity|].
  cbn [calls with_tick with_step commands messages].
  destruct (llm_invoke W _ _) as [r|e]; [|reflexivity].
  destruct (parse_setup_action P r) as [a|e]; [|reflexivity].
  destruct a as [[c|q|]|];
    destruct (observation_for_setup_action _ _ _ _) as [s' [ob|e]];
    try reflexivity;
    destruct (is_stop ob); reflexivity.
Qed.

Ltac body_cases H :=
  rewrite setup_body_eq in H; cbv zeta in H;
  repeat match type of H with
         | context [match ?x with _ => _ end] => destruct x eqn:?
         end;
  inversion H; subst; clear H.

Ltac fields :=
  cbn [messages commands step sess calls ticks
       with_messages with_commands with_step with_sess with_call
       with_tick] in *.

(** Every pass reads the clock once; unless the reading ends it, it counts
    one step and calls the oracle once, on the window of the messages it
    found. *)
Lemma setup_body_step (start : option Q) (n : nat) (l l' : locals W)
  (o : outcome control) :
  body P start n l = (l', o) ->
  ticks l' = S (ticks l)
  /\ ((step l' = (step l + 1)%Z
       /\ calls l' = calls l
                     ++ [input_messages n (commands l) (messages l)])
      \/ (step l' = step l /\ calls l' = calls l
          /\ exists e, o = Raise e)).
Proof. intros H. body_cases H; fields; eauto 6. Qed.

Lemma setup_body_continue (start : option Q) (n : nat) (l l' : locals W) :
  body P start n l = (l', Return Continue) ->
  ticks l' = S (ticks l) /\ step l' = (step l + 1)%Z
  /\ calls l' = calls l ++ [input_messages n (commands l) (messages l)].
Proof.
  intros H. destruct (setup_body_step _ _ _ _ _ H) as [Ht [[? ?]|(_ & _ & e & He)]];
    [auto|discriminate].
Qed.

(** A pass only appends to the messages. *)
Lemma setup_body_appends (start : option Q) (n : nat) (l l' : locals W)
  (o : outcome control) :
  body P start n l = (l', o) -> exists more, messages l' = messages l ++ more.
Proof.
  intros H. body_cases H; fields;
    repeat rewrite <- app_assoc; eauto.
  all: exists []; now rewrite app_nil_r.
Qed.

Section Run.

Variable max_steps : Z.
Variable state : AgentState (Session W).

(** What holds of the locals at the head of every pass. *)
Lemma setup_reaches_inv (l : locals W) :
  reaches P max_steps state l ->
  step l = Z.of_nat (ticks l)
  /\ ticks l = List.length (calls l)
  /\ exists rest, messages l = prefix W state ++ rest.
Proof.
  induction 1 as [|l l' Hr (Hs & Hc & rest & Hm) Hlt Hb].
  - repeat split; auto. exists []. cbn [entry messages]. now rewrite app_nil_r.
  - destruct (setup_body_continue _ _ _ _ Hb) as (Ht & Hst & Hcs).
    destruct (setup_body_appends _ _ _ _ _ Hb) as [more Hmore].
    repeat split.
    + lia.
    + rewrite Ht, Hcs, Hc, length_app. simpl. lia.
    + exists (rest ++ more). rewrite Hmore, Hm. now rewrite app_assoc.
Qed.

(** From the head of a pass, the rest of the loop is the loop. *)
Lemma setup_reaches_while (l : locals W) :
  reaches P max_steps state l ->
  while (Z.to_nat max_steps) (fun l : locals W => (step l <? max_steps)%Z)
    (body P (start_time state) (List.length (prefix W state))) (entry W state)
  = while (Z.to_nat (max_steps - step l)) (fun l : locals W => (step l <? max_steps)%Z)
      (body P (start_time state) (List.length (prefix W state))) l.
Proof.
  induction 1 as [|l l' Hr IH Hlt Hb].
  - simpl. now rewrite Z.sub_0_r.
  - rewrite IH. apply Z.ltb_lt in Hlt.
    destruct (setup_body_continue _ _ _ _ Hb) as (_ & Hst & _).
    replace (Z.to_nat (max_steps - step l))
      with (S (Z.to_nat (max_steps - step l'))) by lia.
    apply while_unfold; [now apply Z.ltb_lt | exact Hb].
Qed.

(** The loop ends within its fuel. *)
Lemma setup_loop_total (l : locals W) :
  exists r,
    while (Z.to_nat (max_steps - step l)) (fun l : locals W => (step l <? max_steps)%Z)
      (body P (start_time state) (List.length (prefix W state))) l = Some r.
Proof.
  apply (while_total (fun l : locals W => (step l <? max_steps)%Z)
           (body P (start_time state) (List.length (prefix W state)))
           (fun l => Z.to_nat (max_steps - step l))).
  - intros s Hs. apply Z.ltb_lt in Hs. lia.
  - intros s s' Hs Hb. apply Z.ltb_lt in Hs.
    destruct (setup_body_continue _ _ _ _ Hb) as (_ & Hst & _). lia.
  - lia.
Qed.

End Run.

(** A pass in which the reply is a command that the session runs. *)
Lemma body_command (t0 : Q) (n : nat) (l : locals W)
  (reply c text : string) (s s' : Session W) :
  timed_out (time_time W (ticks l)) t0 = false ->
  llm_invoke W (List.length (calls l))
    (input_messages n (commands l) (messages l)) = Return reply ->
  parse_setup_action P reply = Return (Some (Command c)) ->
  sess l = Some s ->
  send_command W s c = (s', Return text) ->
  body P (Some t0) n l
  = (with_messages
       (fun m => m ++ [HumanMessage ("Observation:" ++ nl ++ text)])
       (with_sess (Some s')
          (with_commands (fun cs => cs ++ [c])
             (with_messages (fun m => m ++ [AIMessage reply])
                (with_call (input_messages n (commands l) (messages l))
                   (with_step (fun z => z + 1)%Z (with_tick l)))))),
     Return Continue).
Proof.
  intros Hclock Hllm Hparse Hsess Hsend.
  rewrite setup_body_eq. cbv zeta. rewrite Hclock, Hllm, Hparse.
  cbn [observation_for_setup_action sess with_commands with_messages
       with_call with_step with_tick].
  rewrite Hsess, Hsend. reflexivity.
Qed.

(** A pass in which the reply has no action in it. *)
Lemma body_unparseable (t0 : Q) (n : nat) (l : locals W) (reply : string) :
  timed_out (time_time W (ticks l)) t0 = false ->
  llm_invoke W (List.length (calls l))
    (input_messages n (commands l) (messages l)) = Return reply ->
  parse_setup_action P reply = Return None ->
  body P (Some t0) n l
  = (with_messages
       (fun m => m ++ [HumanMessage ("Observation:" ++ nl ++ clarification)])
       (with_sess (sess l)
          (with_messages (fun m => m ++ [AIMessage reply])
             (with_call (input_messages n (commands l) (messages l))
                (with_step (fun z => z + 1)%Z (with_tick l))))),
     Return Continue).
Proof.
  intros Hclock Hllm Hparse.
  rewrite setup_body_eq. cbv zeta. rewrite Hclock, Hllm, Hparse.
  reflexivity.
Qed.

(** A pass in which the reply is a stop. *)
Lemma body_stop (t0 : Q) (n : nat) (l : locals W) (reply : string) :
  timed_out (time_time W (ticks l)) t0 = false ->
  llm_invoke W (List.length (calls l))
    (input_messages n (commands l) (messages l)) = Return reply ->
  parse_setup_action P reply = Return (Some Stop) ->
  body P (Some t0) n l
  = (with_sess (sess l)
       (with_messages (fun m => m ++ [AIMessage reply])
          (with_call (input_messages n (commands l) (messages l))
             (with_step (fun z => z + 1)%Z (with_tick l)))),
     Return Break).
Proof.
  intros Hclock Hllm Hparse.
  rewrite setup_body_eq. cbv zeta. rewrite Hclock, Hllm, Hparse.
  reflexivity.
Qed.

(** A pass calls the oracle only after a reading of the clock that is
    within the budget. *)
Lemma body_clock (t0 : Q) (n : nat) (l l' : locals W) (o : outcome control) :
  body P (Some t0) n l = (l', o) ->
  ticks l' = S (ticks l)
  /\ ((calls l' = calls l /\ exists e, o = Raise e)
      \/ (calls l' = calls l ++ [input_messages n (commands l) (messages l)]
          /\ timed_out (time_time W (ticks l)) t0 = false)).
Proof. intros H. body_cases H; fields; eauto 6. Qed.

Lemma loop_clock (max_steps : Z) (t0 : Q) (n : nat) (fuel : nat)
  (l0 l : locals W) (o : outcome unit) :
  ticks l0 = 0 -> calls l0 = [] ->
  while fuel (fun l => (step l <? max_steps)%Z) (body P (Some t0) n) l0
  = Some (l, o) ->
  forall k, k < List.length (calls l) ->
            timed_out (time_time W k) t0 = false.
Proof.
  intros Ht Hc Hw.
  set (I := fun l : locals W =>
              ticks l = List.length (calls l)
              /\ forall k, k < List.length (calls l) ->
                           timed_out (time_time W k) t0 = false).
  assert (Hpass : forall (s s' : locals W) o',
            I s -> body P (Some t0) n s = (s', o') ->
            (forall k, k < List.length (calls s') ->
                       timed_out (time_time W k) t0 = false)
            /\ (o' = Return Continue -> I s')).
  { intros s s' o' [Ha Hb] Hbody.
    destruct (body_clock _ _ _ _ _ Hbody)
      as [Htk [[Hcs [e ->]]|[Hcs Hok]]].
    - rewrite Hcs. split; [assumption|discriminate].
    - assert (Hall : forall k, k < List.length (calls s') ->
                               timed_out (time_time W k) t0 = false).
      { intros k Hk. rewrite Hcs, length_app in Hk. simpl in Hk.
        destruct (Nat.eq_dec k (List.length (calls s))) as [->|Hne].
        - now rewrite <- Ha.
        - apply Hb. lia. }
      split; [assumption|]. intros _. split; [|assumption].
      rewrite Htk, Hcs, length_app, Ha. simpl. lia. }
  refine (while_rule (fun l => (step l <? max_steps)%Z) (body P (Some t0) n)
            I
            (fun (l : locals W) _ =>
               forall k, k < List.length (calls l) ->
                         timed_out (time_time W k) t0 = false)
            _ _ _ _ fuel l0 l o _ Hw).
  - intros s [_ Hb] _. exact Hb.
  - intros s s' HI _ Hbody.
    destruct (Hpass _ _ _ HI Hbody) as [_ H]. now apply H.
  - intros s s' HI _ Hbody.
    destruct (Hpass _ _ _ HI Hbody) as [H _]. exact H.
  - intros s s' e HI _ Hbody.
    destruct (Hpass _ _ _ HI Hbody) as [H _]. exact H.
  - split; rewrite ?Ht, Hc; [reflexivity|]. simpl. intros k Hk. lia.
Qed.

(** The test of the clock, as an inequality between rationals. *)
Lemma timed_out_spec (now t0 : Q) :
  timed_out now t0 = true <-> (30 * 60 + (1 # 2 ^ 43) < now - t0)%Q.
Proof.
  unfold timed_out, Binary64.sub.
  change (30 * 60)%Q with 1800%Q.
  apply Binary64Facts.round_gt_1800.
Qed.

(** The loop never passes its budget, however it ends. *)
Lemma setup_loop_bound (max_steps : Z) (start : option Q) (n : nat)
  (fuel : nat) (l0 l : locals W) (o : outcome unit) :
  step l0 = Z.of_nat (ticks l0) -> ticks l0 = List.length (calls l0) ->
  (step l0 <= Z.max 0 max_steps)%Z ->
  while fuel (fun l => (step l <? max_steps)%Z) (body P start n) l0
  = Some (l, o) ->
  (Z.of_nat (ticks l) <= Z.max 0 max_steps)%Z
  /\ (step l <= Z.max 0 max_steps)%Z
  /\ List.length (calls l) <= ticks l.
Proof.
  intros H1 H2 H3 Hw.
  refine (while_rule (fun l => (step l <? max_steps)%Z) (body P start n)
            (fun l => step l = Z.of_nat (ticks l)
                      /\ ticks l = List.length (calls l)
                      /\ (step l <= Z.max 0 max_steps)%Z)
            (fun l _ => (Z.of_nat (ticks l) <= Z.max 0 max_steps)%Z
                        /\ (step l <= Z.max 0 max_steps)%Z
                        /\ List.length (calls l) <= ticks l)
            _ _ _ _ fuel l0 l o (conj H1 (conj H2 H3)) Hw).
  - intros s (Ha & Hb & Hc) _. lia.
  - intros s s' (Ha & Hb & Hc) Hlt Hbody. apply Z.ltb_lt in Hlt.
    destruct (setup_body_continue _ _ _ _ Hbody) as (Ht & Hst & Hcs).
    rewrite Ht, Hst, Hcs, length_app. simpl. lia.
  - intros s s' (Ha & Hb & Hc) Hlt Hbody. apply Z.ltb_lt in Hlt.
    destruct (setup_body_step _ _ _ _ _ Hbody)
      as [Ht [[Hst Hcs]|(Hst & Hcs & _)]];
      rewrite Ht, Hst, Hcs, ?length_app; simpl; lia.
  - intros s s' e (Ha & Hb & Hc) Hlt Hbody. apply Z.ltb_lt in Hlt.
    destruct (setup_body_step _ _ _ _ _ Hbody)
      as [Ht [[Hst Hcs]|(Hst & Hcs & _)]];
      rewrite Ht, Hst, Hcs, ?length_app; simpl; lia.
Qed.

(** With an oracle that always answers with a command, a session that runs
    every command and a clock within the budget, the loop uses up its
    steps: one command a step, and no exception. *)
Lemma loop_of_commands (max_steps : Z) (t0 : Q) (n : nat)
  (fuel : nat) (l0 l : locals W) (o : outcome unit) :
  (forall k input, exists reply c,
      llm_invoke W k input = Return reply
      /\ parse_setup_action P reply = Return (Some (Command c))) ->
  (forall s c, exists s' text, send_command W s c = (s', Return text)) ->
  (forall k, timed_out (time_time W k) t0 = false) ->
  (0 <= max_steps)%Z ->
  step l0 = 0%Z -> ticks l0 = 0 -> commands l0 = [] -> calls l0 = [] ->
  sess l0 <> None ->
  while fuel (fun l => (step l <? max_steps)%Z) (body P (Some t0) n) l0
  = Some (l, o) ->
  o = Return tt
  /\ step l = max_steps
  /\ Z.of_nat (ticks l) = max_steps
  /\ Z.of_nat (List.length (commands l)) = max_steps
  /\ Z.of_nat (List.length (calls l)) = max_steps.
Proof.
  intros Hllm Hsend Hclock Hmax Hs Ht Hc Hcalls Hsess Hw.
  set (I := fun l : locals W =>
              step l = Z.of_nat (ticks l)
              /\ ticks l = List.length (commands l)
              /\ ticks l = List.length (calls l)
              /\ (step l <= max_steps)%Z
              /\ sess l <> None).
  assert (Hpass : forall s, I s -> (step s <? max_steps)%Z = true ->
            exists s', body P (Some t0) n s = (s', Return Continue) /\ I s').
  { intros s (Ha & Hb & Hd & He & Hf) Hlt. apply Z.ltb_lt in Hlt.
    destruct (Hllm (List.length (calls s))
                (input_messages n (commands s) (messages s)))
      as (reply & c & Hr & Hp).
    destruct (sess s) as [x|] eqn:Hx; [|easy].
    destruct (Hsend x c) as (x' & text & Hx').
    eexists. split.
    - eapply body_command; eauto.
    - unfold I. fields. rewrite !length_app. simpl.
      repeat split; try lia. discriminate. }
  refine (while_rule (fun l => (step l <? max_steps)%Z) (body P (Some t0) n)
            I
            (fun l o => o = Return tt
                        /\ step l = max_steps
                        /\ Z.of_nat (ticks l) = max_steps
                        /\ Z.of_nat (List.length (commands l)) = max_steps
                        /\ Z.of_nat (List.length (calls l)) = max_steps)
            _ _ _ _ fuel l0 l o _ Hw).
  - intros s (Ha & Hb & Hd & He & Hf) Hge. apply Z.ltb_ge in Hge.
    repeat split; lia.
  - intros s s' HI Hlt Hbody.
    destruct (Hpass s HI Hlt) as (s'' & Hb'' & HI'). congruence.
  - intros s s' HI Hlt Hbody.
    destruct (Hpass s HI Hlt) as (s'' & Hb'' & HI'). congruence.
  - intros s s' e HI Hlt Hbody.
    destruct (Hpass s HI Hlt) as (s'' & Hb'' & HI'). congruence.
  - unfold I. rewrite Hs, Ht, Hc, Hcalls. simpl. repeat split; auto; lia.
Qed.

End Loop.

End SetupFacts.

Module WindowFacts.

Lemma last_n_length {A : Type} (k : nat) (l : list A) :
  List.length (last_n k l) = Nat.min k (List.length l).
Proof. unfold last_n. rewrite length_skipn. lia. Qed.

Lemma last_n_suffix {A : Type} (k : nat) (l : list A) :
  l = firstn (List.length l - k) l ++ last_n k l.
Proof. unfold last_n. now rewrite firstn_skipn. Qed.

Lemma last_n_short {A : Type} (k : nat) (l : list A) :
  List.length l <= k -> last_n k l = l.
Proof.
  intros H. unfold last_n.
  replace (List.length l - k) with 0 by lia. reflexivity.
Qed.

Lemma last_n_app {A : Type} (k : nat) (p l : list A) :
  k <= List.length l -> last_n k (p ++ l) = last_n k l.
Proof.
  intros H. unfold last_n. rewrite skipn_app, length_app.
  rewrite skipn_all2 by lia. simpl. f_equal. lia.
Qed.

Lemma firstn_prefix {A : Type} (p l : list A) :
  firstn (List.length p) (p ++ l) = p.
Proof.
  rewrite firstn_app, Nat.sub_diag, firstn_all. simpl. apply app_nil_r.
Qed.

Lemma skipn_prefix {A : Type} (p l : list A) :
  skipn (List.length p) (p ++ l) = l.
Proof.
  rewrite skipn_app, Nat.sub_diag, skipn_all. reflexivity.
Qed.

(** verify.py:158-163 on a history that begins with the prefix. *)
Lemma verify_window (p rest : list message) :
  Verify.input_messages (List.length p) (p ++ rest)
  = p ++ last_n Verify.VERIFY_CONVERSATION_WINDOW rest.
Proof.
  unfold Verify.input_messages. rewrite length_app.
  destruct (Nat.ltb_spec (List.length p + List.length rest)
              (Verify.VERIFY_CONVERSATION_WINDOW + List.length p)) as [H|H].
  - rewrite last_n_short by lia. reflexivity.
  - rewrite firstn_prefix, last_n_app by lia. reflexivity.
Qed.

(** setup.py:212-223 on a history that begins with the prefix. *)
Lemma setup_window (p : list message) (cmds : list string)
  (rest : list message) :
  Setup.input_messages (List.length p) cmds (p ++ rest)
  = p ++ Setup.commands_history cmds
        :: last_n Setup.SETUP_CONVERSATION_WINDOW rest.
Proof.
  unfold Setup.input_messages. rewrite length_app.
  destruct (Nat.ltb_spec (List.length p + List.length rest)
              (Setup.SETUP_CONVERSATION_WINDOW + List.length p)) as [H|H].
  - rewrite firstn_prefix, skipn_prefix, last_n_short by lia. reflexivity.
  - rewrite firstn_prefix, last_n_app by lia. reflexivity.
Qed.

Lemma setup_input_ok_later (p hist more input : list message) :
  setup_input_ok p hist input -> setup_input_ok p (hist ++ more) input.
Proof.
  intros (cmds & seen & later & -> & ->).
  exists cmds, seen, (later ++ more). split; [|reflexivity].
  now rewrite <- !app_assoc.
Qed.

Lemma verify_input_ok_later (p hist more input : list message) :
  verify_input_ok p hist input -> verify_input_ok p (hist ++ more) input.
Proof.
  intros (seen & later & -> & ->).
  exists seen, (later ++ more). split; [|reflexivity].
  now rewrite <- !app_assoc.
Qed.

Section Loops.

Variable W : World.

Lemma setup_loop_window (P : Setup.ActionParser) (max_steps : Z)
  (start : option Q) (p : list message) (fuel : nat)
  (l0 l : Setup.locals W) (o : outcome unit) :
  Setup.messages l0 = p -> Setup.calls l0 = [] ->
  while fuel (fun l => (Setup.step l <? max_steps)%Z)
    (Setup.body P start (List.length p)) l0 = Some (l, o) ->
  Forall (setup_input_ok p (Setup.messages l)) (Setup.calls l).
Proof.
  intros Hm Hc Hw.
  set (I := fun l : Setup.locals W =>
              (exists rest, Setup.messages l = p ++ rest)
              /\ Forall (setup_input_ok p (Setup.messages l))
                   (Setup.calls l)).
  assert (Hpass : forall (s s' : Setup.locals W) o',
            I s -> Setup.body P start (List.length p) s = (s', o') -> I s').
  { intros s s' o' [[rest Hrest] Hall] Hbody.
    destruct (SetupFacts.setup_body_appends _ _ _ _ _ _ _ Hbody) as [more Hmore].
    assert (Hold : Forall (setup_input_ok p (Setup.messages s'))
                     (Setup.calls s)).
    { rewrite Hmore. eapply Forall_impl; [|exact Hall].
      intros a. apply setup_input_ok_later. }
    split.
    - exists (rest ++ more). now rewrite Hmore, Hrest, app_assoc.
    - destruct (SetupFacts.setup_body_step _ _ _ _ _ _ _ Hbody)
        as [_ [[_ Hcs]|(_ & Hcs & _)]]; rewrite Hcs; [|assumption].
      apply Forall_app. split; [assumption|].
      constructor; [|constructor].
      exists (Setup.commands s), rest, more. split.
      + now rewrite Hmore, Hrest, app_assoc.
      + rewrite Hrest. apply setup_window. }
  assert (HI : I l).
  { refine (while_rule (fun l => (Setup.step l <? max_steps)%Z)
              (Setup.body P start (List.length p)) I (fun l _ => I l)
              _ _ _ _ fuel l0 l o _ Hw); eauto.
    split.
    - exists []. now rewrite app_nil_r.
    - rewrite Hc. constructor. }
  apply HI.
Qed.

Lemma verify_loop_window (max_steps : Z) (p : list message) (fuel : nat)
  (l0 l : Verify.locals W) (o : outcome unit) :
  Verify.messages l0 = p -> Verify.calls l0 = [] ->
  while fuel (fun l => (Verify.step l <? max_steps)%Z)
    (Verify.body (List.length p)) l0 = Some (l, o) ->
  Forall (verify_input_ok p (Verify.messages l)) (Verify.calls l).
Proof.
  intros Hm Hc Hw.
  set (I := fun l : Verify.locals W =>
              (exists rest, Verify.messages l = p ++ rest)
              /\ Forall (verify_input_ok p (Verify.messages l))
                   (Verify.calls l)).
  assert (Hpass : forall (s s' : Verify.locals W) o',
            I s -> Verify.body (List.length p) s = (s', o') -> I s').
  { intros s s' o' [[rest Hrest] Hall] Hbody.
    destruct (VerifyFacts.verify_body_appends _ _ _ _ _ Hbody) as [more Hmore].
    destruct (VerifyFacts.verify_body_step _ _ _ _ _ Hbody) as [_ Hcs].
    split.
    - exists (rest ++ more). now rewrite Hmore, Hrest, app_assoc.
    - rewrite Hcs. apply Forall_app. split.
      + rewrite Hmore. eapply Forall_impl; [|exact Hall].
        intros a. apply verify_input_ok_later.
      + constructor; [|constructor].
        exists rest, more. split.
        * now rewrite Hmore, Hrest, app_assoc.
        * rewrite Hrest. apply verify_window. }
  assert (HI : I l).
  { refine (while_rule (fun l => (Verify.step l <? max_steps)%Z)
              (Verify.body (List.length p)) I (fun l _ => I l)
              _ _ _ _ fuel l0 l o _ Hw); eauto.
    split.
    - exists []. now rewrite app_nil_r.
    - rewrite Hc. constructor. }
  apply HI.
Qed.

End Loops.

End WindowFacts.

Module ParseFacts.
Import PyStr PyStrFacts.

Lemma second_piece (sep s : string) :
  sep <> "" -> contains sep s = true ->
  exists piece, subscript (split sep s) 1 = Return piece.
Proof.
  intros Hsep H. destruct (partition_some _ _ H) as (b & a & Hp).
  eexists. apply (split_second _ _ _ _ Hsep Hp).
Qed.

(** verify.py:74-76: a reply with [<command>] in it is a command. *)
Lemma verify_command (r : string) :
  contains "<command>" r = true ->
  exists inner,
    Verify.parse_verify_action r
    = Return (Some {| Verify.action := Verify.command;
                      Verify.args := strip inner |}).
Proof.
  intros H. unfold Verify.parse_verify_action. rewrite H.
  destruct (second_piece "<command>" r ltac:(discriminate) H) as [p ->].
  rewrite (split_head "</command>" p) by discriminate. eauto.
Qed.

(** verify.py:77-79: without [<command>], a reply with [<issue>] in it is
    an issue. *)
Lemma verify_issue (r : string) :
  contains "<command>" r = false -> contains "<issue>" r = true ->
  exists inner,
    Verify.parse_verify_action r
    = Return (Some {| Verify.action := Verify.issue;
                      Verify.args := lower (strip inner) |}).
Proof.
  intros Hc H. unfold Verify.parse_verify_action. rewrite Hc, H.
  destruct (second_piece "<issue>" r ltac:(discriminate) H) as [p ->].
  rewrite (split_head "</issue>" p) by discriminate. eauto.
Qed.

(** The verify parser never raises. *)
Lemma verify_parse_returns (r : string) :
  exists a, Verify.parse_verify_action r = Return a.
Proof.
  destruct (contains "<command>" r) eqn:Hc.
  - destruct (verify_command r Hc) as [x ->]. eauto.
  - destruct (contains "<issue>" r) eqn:Hi.
    + destruct (verify_issue r Hc Hi) as [x ->]. eauto.
    + unfold Verify.parse_verify_action. rewrite Hc, Hi. eauto.
Qed.

(** The first command tag of a reply, under the verify grammar. *)
Lemma verify_command_tag (pre text post : string) :
  contains "<command>" pre = false ->
  contains "<command>" text = false ->
  contains "</command>" text = false ->
  Verify.parse_verify_action
    (pre ++ "<command>" ++ text ++ "</command>" ++ post)
  = Return (Some {| Verify.action := Verify.command;
                    Verify.args := strip text |}).
Proof.
  intros Hpre Ht1 Ht2. unfold Verify.parse_verify_action.
  rewrite contains_app.
  destruct (tag_content "<" "command>" "/command>" pre text post
              eq_refl eq_refl eq_refl Hpre Ht1 Ht2) as (after & -> & ->).
  reflexivity.
Qed.

(** The first issue tag of a reply without a command, under the verify
    grammar. *)
Lemma verify_issue_tag (pre text post : string) :
  contains "<command>" (pre ++ "<issue>" ++ text ++ "</issue>" ++ post)
  = false ->
  contains "<issue>" pre = false ->
  contains "<issue>" text = false ->
  contains "</issue>" text = false ->
  Verify.parse_verify_action
    (pre ++ "<issue>" ++ text ++ "</issue>" ++ post)
  = Return (Some {| Verify.action := Verify.issue;
                    Verify.args := lower (strip text) |}).
Proof.
  intros Hc Hpre Ht1 Ht2. unfold Verify.parse_verify_action.
  rewrite Hc, contains_app.
  destruct (tag_content "<" "issue>" "/issue>" pre text post
              eq_refl eq_refl eq_refl Hpre Ht1 Ht2) as (after & -> & ->).
  reflexivity.
Qed.

(** The content of the first tag pair, as the modelled base class extracts
    it. *)
Lemma spec_extract_command (pre text post : string) :
  contains "<command>" pre = false ->
  contains "</command>" text = false ->
  Setup.spec_extract_tag_content
    (pre ++ "<command>" ++ text ++ "</command>" ++ post) "command"
  = Some text.
Proof.
  intros Hpre Ht. unfold Setup.spec_extract_tag_content.
  change ("<" ++ "command" ++ ">")%string with "<command>".
  change ("</" ++ "command" ++ ">")%string with "</command>".
  rewrite (partition_first "<command>" pre _ eq_refl Hpre).
  now rewrite (partition_first "</command>" text post eq_refl Ht).
Qed.

(** setup.py:69-80, by the truth of what was extracted. *)
Lemma setup_parse_command (P : Setup.ActionParser) (reply c x : string) :
  Setup.clean_response P reply = Return c ->
  Setup.extract_tag_content P c "command" = Some x -> x <> "" ->
  Setup.parse P reply = Return (Some (Setup.Command x)).
Proof.
  intros Hc Hx Hne. unfold Setup.parse. rewrite Hc, Hx.
  destruct x; [contradiction|reflexivity].
Qed.

Lemma setup_parse_search (P : Setup.ActionParser) (reply c q : string) :
  Setup.clean_response P reply = Return c ->
  truthy (Setup.extract_tag_content P c "command") = false ->
  Setup.extract_tag_content P c "search" = Some q -> q <> "" ->
  Setup.parse P reply = Return (Some (Setup.Search q)).
Proof.
  intros Hc Hx Hq Hne. unfold Setup.parse. rewrite Hc, Hq.
  destruct (Setup.extract_tag_content P c "command") as [[|a x]|];
    try discriminate; destruct q; try contradiction; reflexivity.
Qed.

Lemma setup_parse_rest (P : Setup.ActionParser) (reply c : string) :
  Setup.clean_response P reply = Return c ->
  truthy (Setup.extract_tag_content P c "command") = false ->
  truthy (Setup.extract_tag_content P c "search") = false ->
  Setup.parse P reply
  = Return (if contains "<stop>" c && contains "</stop>" c
            then Some Setup.Stop else None).
Proof.
  intros Hc Hx Hq. unfold Setup.parse. rewrite Hc.
  destruct (Setup.extract_tag_content P c "command") as [[|a x]|];
    try discriminate;
    destruct (Setup.extract_tag_content P c "search") as [[|b q]|];
    try discriminate;
    destruct (contains "<stop>" c && contains "</stop>" c); reflexivity.
Qed.

End ParseFacts.

Module RetryFacts.
Import LLM.

Section Retrying.

Variable A : Type.
Variable fn : nat -> outcome A.
Variable random : nat -> Q.

(** The loop of the decorator from attempt [k] on: it makes the attempts
    [k .. n] for some [n <= 5], sleeping in between as scheduled; the
    attempts before the last failed with an [Exception], and the last one
    decides the outcome. *)
Lemma retrying_trace (fuel k : nat) (seen : list event) :
  1 <= k <= 5 -> fuel + k = 6 ->
  exists n r,
    k <= n <= 5
    /\ retrying fn random (stop_after_attempt 5)
         (wait_exponential_jitter 5 120 3) fuel k seen
       = Some (seen ++ Attempt k :: schedule_from random k (n - k), r)
    /\ (forall j, k <= j < n ->
                  exists e, fn j = Raise e /\ derives_Exception e = true)
    /\ match fn n with
       | Return a => r = Return a
       | Raise e =>
           if derives_Exception e
           then n = 5 /\ r = Raise (RetryError e)
           else r = Raise e
       end.
Proof.
  revert k seen. induction fuel as [|f IH]; intros k seen Hk Hf; [lia|].
  cbn [retrying]. destruct (fn k) as [a|e] eqn:Hfn.
  - exists k, (Return a). rewrite Nat.sub_diag, Hfn. cbn [schedule_from].
    repeat split; try lia.
  - destruct (derives_Exception e) eqn:He; cbn [negb].
    + unfold stop_after_attempt at 1.
      destruct (Nat.leb_spec 5 k) as [H5|H5].
      * exists k, (Raise (RetryError e)).
        rewrite Nat.sub_diag, Hfn, He. cbn [schedule_from].
        repeat split; try lia.
      * destruct (IH (S k)
                    ((seen ++ [Attempt k])
                       ++ [Sleep (wait_exponential_jitter 5 120 3 k
                                    (random k))])
                    ltac:(lia) ltac:(lia))
          as (n & r & Hn & Hrun & Hbefore & Hlast).
        exists n, r. repeat split; try lia.
        -- rewrite Hrun. f_equal. f_equal.
           replace (n - k) with (S (n - S k)) by lia.
           cbn [schedule_from]. now rewrite <- !app_assoc.
        -- intros j Hj. destruct (Nat.eq_dec j k) as [->|Hne].
           ++ eauto.
           ++ apply Hbefore. lia.
        -- exact Hlast.
    + exists k, (Raise e). rewrite Nat.sub_diag, Hfn, He.
      cbn [schedule_from]. repeat split; try lia.
Qed.

Lemma attempts_schedule_from (k m : nat) :
  attempts (schedule_from random k m) = m.
Proof.
  revert k; induction m as [|m IH]; intros k; cbn; [reflexivity|].
  f_equal. apply IH.
Qed.

Lemma attempts_schedule (n : nat) :
  1 <= n -> attempts (schedule random n) = n.
Proof.
  intros Hn. unfold schedule.
  change (attempts (Attempt 1 :: schedule_from random 1 (n - 1)))
    with (S (attempts (schedule_from random 1 (n - 1)))).
  rewrite attempts_schedule_from. lia.
Qed.

End Retrying.

(** The wait after attempt [k], for a draw [u] between 0 and 1: the
    doubled initial delay plus the jitter, which stays below the cap. *)
Lemma wait_value (k : nat) (u : Q) :
  1 <= k <= 4 -> (0 <= u <= 1)%Q ->
  let w := wait_exponential_jitter 5 120 3 k u in
  let base := (5 * inject_Z (2 ^ Z.of_nat (k - 1)))%Q in
  (w == base + 3 * u)%Q
  /\ (base <= w <= base + 3)%Q
  /\ (w <= 120)%Q.
Proof.
  intros Hk Hu w base. subst w. unfold wait_exponential_jitter.
  assert (Hc : (5 <= base <= 40)%Q).
  { subst base. destruct k as [|[|[|[|[|k]]]]]; try lia;
      vm_compute; intuition discriminate. }
  fold base.
  destruct (Q.min_spec (base + 3 * u) 120) as [[H1 H2]|[H1 H2]];
    destruct (Q.max_spec 0 (Qmin (base + 3 * u) 120)) as [[H3 H4]|[H3 H4]];
    rewrite ?H4, ?H2 in *; repeat split; lra.
Qed.

End RetryFacts.

(* ================================================================== *)
(** * The scenarios of the specification, run *)
(* ================================================================== *)

Example split_pieces :
  PyStr.split "<issue>" "a<issue>b</issue>c<issue>d"
  = ["a"; "b</issue>c"; "d"].
Proof. reflexivity. Qed.

(** Scenario A: [<issue>none</issue>] on step 1. *)
Example scenario_A :
  exists l r,
    Verify.verify (scripted (always "<issue>none</issue>") noon) 4
      (state_with None) = Some (l, Return (Update r))
    /\ Verify.step l = 1%Z
    /\ Verify.r_success r = true /\ Verify.r_issue r = None.
Proof. do 2 eexists. split; [vm_compute; reflexivity|]. now repeat split. Qed.

(** Scenario B: an issue is reported. *)
Example scenario_B :
  exists l r,
    Verify.verify
      (scripted (always "<issue>missing dependency libfoo</issue>") noon) 4
      (state_with None) = Some (l, Return (Update r))
    /\ Verify.r_success r = false
    /\ Verify.r_issue r = Some "missing dependency libfoo".
Proof. do 2 eexists. split; [vm_compute; reflexivity|]. now repeat split. Qed.

(** Scenario C: the setup loop gets no action on step 1 and a stop on
    step 2. *)
Example scenario_C :
  exists l r,
    Setup.setup
      (scripted (fun k => if k =? 0 then Return "Let me think."
                          else Return "<stop></stop>") noon)
      Setup.spec_parser 10 (state_with None)
    = Some (l, Return (Update r))
    /\ Setup.step l = 2%Z
    /\ Setup.r_commands r = [].
Proof. do 2 eexists. split; [vm_compute; reflexivity|]. now repeat split. Qed.

(* ================================================================== *)
(** * The properties of the specification *)
(* ================================================================== *)

Section Claims.

Import Verify.

(** C1, as amended.  In the verify loop a pass whose reply parses to an
    issue action is the last one.  If the normalised issue text is the
    sentinel "none", and also if it is empty, [verify] returns success
    [True] and issue [None]; for every other issue text it returns success
    [False] and that text as the issue. *)
Theorem verify_issue_ends_loop
  (W : World) (max_steps : Z) (state : AgentState (Session W))
  (l : locals W) (reply c t : string) :
  exception state = None ->
  reaches max_steps state l ->
  (step l < max_steps)%Z ->
  llm_invoke W (List.length (calls l))
    (input_messages (List.length (prefix W state)) (messages l))
  = Return reply ->
  drop_reasoning reply = Return c ->
  parse_verify_action c = Return (Some {| action := issue; args := t |}) ->
  exists l' r,
    verify W max_steps state = Some (l', Return (Update r))
    /\ step l' = (step l + 1)%Z
    /\ if (String.eqb t "none" || String.eqb t "")%bool
       then r_success r = true /\ r_issue r = None
       else r_success r = false /\ r_issue r = Some t.
Proof.
  intros Hexc Hreach Hlt Hllm Hdrop Hparse.
  destruct (VerifyFacts.run_issue W max_steps state l reply c t
              Hexc Hreach Hlt Hllm Hdrop Hparse)
    as (l' & r & Hrun & Hstep & _ & _ & Hsucc & Hiss).
  exists l', r. repeat split; try assumption.
  rewrite Hsucc, Hiss.
  destruct (String.eqb t "none" || String.eqb t "")%bool; auto.
Qed.

(** A run for C1: the oracle says [<issue>none</issue>] at once. *)
Lemma verify_issue_ends_loop_witness :
  exists l' r,
    verify (scripted (always "<issue>none</issue>") noon) 1 (state_with None)
    = Some (l', Return (Update r))
    /\ step l' = (0 + 1)%Z
    /\ r_success r = true /\ r_issue r = None.
Proof.
  apply (verify_issue_ends_loop
           (scripted (always "<issue>none</issue>") noon) 1 (state_with None)
           (entry (scripted (always "<issue>none</issue>") noon)
              (state_with None))
           "<issue>none</issue>" "<issue>none</issue>" "none").
  - reflexivity.
  - constructor.
  - reflexivity.
  - reflexivity.
  - reflexivity.
  - reflexivity.
Defined.

(** C1 as stated fails: the issue text of [<issue></issue>] is empty, which
    is not the sentinel, and yet [verify] returns success [True] and issue
    [None] rather than success [False] and the text. *)
Lemma empty_issue_is_success :
  parse_verify_action "<issue></issue>"
  = Return (Some {| action := issue; args := "" |})
  /\ "" <> "none"
  /\ exists l r,
      verify (scripted (always "<issue></issue>") noon) 1 (state_with None)
      = Some (l, Return (Update r))
      /\ r_success r = true /\ r_issue r = None
      /\ ~ (r_success r = false /\ r_issue r = Some "").
Proof.
  split; [reflexivity|]. split; [discriminate|].
  do 2 eexists. split; [vm_compute; reflexivity|].
  cbn. repeat split. intros [? _]. discriminate.
Qed.

(** C2.  Whatever the budget [N], the oracle, the session and the clock,
    both loops end, after at most [N] passes: the setup loop has read the
    clock (once at the head of each pass) at most [N] times, and either
    loop has counted at most [N] steps and called the oracle at most [N]
    times.  With budget 3, an oracle that always answers with a command, a
    session that runs every command and a clock within the time budget,
    [setup] returns after exactly 3 steps with exactly 3 commands and no
    exception. *)
Theorem loops_stay_within_step_budget
  (W : World) (P : Setup.ActionParser) (N : Z)
  (state : AgentState (Session W)) :
  (exists l o,
      Setup.setup W P N state = Some (l, o)
      /\ (Z.of_nat (Setup.ticks l) <= Z.max 0 N)%Z
      /\ (Setup.step l <= Z.max 0 N)%Z
      /\ (Z.of_nat (List.length (Setup.calls l)) <= Z.max 0 N)%Z)
  /\ (exists l o,
         verify W N state = Some (l, o)
         /\ (step l <= Z.max 0 N)%Z
         /\ Z.of_nat (List.length (calls l)) = step l)
  /\ ((forall k input, exists reply c,
           llm_invoke W k input = Return reply
           /\ Setup.parse_setup_action P reply
              = Return (Some (Setup.Command c))) ->
      (forall s c, exists s' text, send_command W s c = (s', Return text)) ->
      session state <> None ->
      (exists t0, start_time state = Some t0
                  /\ forall k, Setup.timed_out (time_time W k) t0 = false) ->
      exists l r,
        Setup.setup W P 3 state = Some (l, Return (Update r))
        /\ Setup.step l = 3%Z
        /\ Setup.ticks l = 3
        /\ List.length (Setup.calls l) = 3
        /\ List.length (Setup.r_commands r) = 3
        /\ List.length (Setup.r_setup_commands r) = 3).
Proof.
  split; [|split].
  - unfold Setup.setup, Setup.setup_call.
    destruct (SetupFacts.setup_loop_total W P N state (Setup.entry W state))
      as [[l o] Hw].
    cbn [Setup.entry Setup.step] in Hw. rewrite Z.sub_0_r in Hw.
    rewrite Hw.
    destruct (SetupFacts.setup_loop_bound W P N _ _ _ (Setup.entry W state) _ _
                eq_refl eq_refl (Z.le_max_l 0 N) Hw) as (Ha & Hb & Hc).
    destruct o as [[]|e]; do 2 eexists; (split; [reflexivity|]);
      repeat split; auto; lia.
  - unfold verify, verify_call.
    destruct (exception state) as [e|].
    + do 2 eexists. split; [reflexivity|]. cbn. split; lia.
    + destruct (VerifyFacts.verify_loop_total W N state (entry W state))
        as [[l o] Hw].
      cbn [entry step] in Hw. rewrite Z.sub_0_r in Hw.
      rewrite Hw.
      destruct (VerifyFacts.verify_loop_bound W N _ _ (entry W state) _ _
                  eq_refl (Z.le_max_l 0 N) Hw) as (Ha & Hb).
      destruct o as [[]|e]; do 2 eexists; (split; [reflexivity|]);
        split; auto.
  - intros Hllm Hsend Hsess (t0 & Hstart & Hclock).
    unfold Setup.setup, Setup.setup_call. rewrite Hstart.
    destruct (SetupFacts.setup_loop_total W P 3 state (Setup.entry W state))
      as [[l o] Hw].
    cbn [Setup.entry Setup.step] in Hw. rewrite Z.sub_0_r, Hstart in Hw.
    rewrite Hw.
    destruct (SetupFacts.loop_of_commands W P 3 t0 _ _
                (Setup.entry W state) _ _
                Hllm Hsend Hclock ltac:(lia) eq_refl eq_refl eq_refl eq_refl
                Hsess Hw) as (-> & Ha & Hb & Hc & Hd).
    do 2 eexists. split; [reflexivity|].
    cbn [Setup.r_commands Setup.r_setup_commands]. repeat split; lia.
Qed.

(** A run for C2: budget 3 and an oracle that always says
    [<command>ls</command>]. *)
Lemma loops_stay_within_step_budget_witness :
  exists l r,
    Setup.setup (scripted (always "<command>ls</command>") noon)
      Setup.spec_parser 3 (state_with None)
    = Some (l, Return (Update r))
    /\ Setup.step l = 3%Z
    /\ Setup.ticks l = 3
    /\ List.length (Setup.calls l) = 3
    /\ List.length (Setup.r_commands r) = 3
    /\ List.length (Setup.r_setup_commands r) = 3.
Proof.
  apply (loops_stay_within_step_budget
           (scripted (always "<command>ls</command>") noon)
           Setup.spec_parser 3 (state_with None)).
  - intros k input. exists "<command>ls</command>", "ls".
    split; reflexivity.
  - intros s c. exists s, ("$ " ++ c)%string. reflexivity.
  - discriminate.
  - exists 0%Q. split; reflexivity.
Defined.

(** C3, as amended.  In the setup loop every pass begins by reading the
    clock and subtracting the state's [start_time] from the reading, as
    floats.  The difference is above 1800 exactly when the reading lies
    more than [1800 + 2 ^ -43] seconds after [start_time]: up to there
    the difference rounds to 1800.0 or below.  When it is above, the pass
    raises [TimeoutError] before the oracle is called: [setup] returns the
    captured exception with no further call, step or message, also when no
    step has been taken yet.  So no call of the oracle in any run of
    [setup] follows a reading for which the test holds. *)
Theorem setup_times_out_before_oracle
  (W : World) (P : Setup.ActionParser) (max_steps : Z)
  (state : AgentState (Session W)) (t0 : Q) :
  start_time state = Some t0 ->
  (forall now,
      Setup.timed_out now t0 = true
      <-> (30 * 60 + (1 # 2 ^ 43) < now - t0)%Q)
  /\ (forall l,
         Setup.reaches P max_steps state l ->
         (Setup.step l < max_steps)%Z ->
         Setup.timed_out (time_time W (Setup.ticks l)) t0 = true ->
         exists l',
           Setup.setup W P max_steps state
           = Some (l', Return (ExceptionUpdate
                                 (TimeoutError
                                    "Reached global timeout of 30 minutes")))
           /\ Setup.calls l' = Setup.calls l
           /\ Setup.step l' = Setup.step l
           /\ Setup.messages l' = Setup.messages l)
  /\ (forall l o,
         Setup.setup W P max_steps state = Some (l, o) ->
         forall k, k < List.length (Setup.calls l) ->
                   Setup.timed_out (time_time W k) t0 = false).
Proof.
  intros Hstart. split; [|split].
  - intros now. apply SetupFacts.timed_out_spec.
  - intros l Hreach Hlt Hout.
    unfold Setup.setup, Setup.setup_call.
    rewrite (SetupFacts.setup_reaches_while W P _ _ _ Hreach).
    replace (Z.to_nat (max_steps - Setup.step l))
      with (S (Z.to_nat (max_steps - Setup.step l - 1))) by lia.
    pose proof (SetupFacts.setup_body_eq W P (start_time state)
                  (List.length (Setup.prefix W state)) l) as Hb.
    cbv zeta in Hb. rewrite Hstart, Hout in Hb. rewrite Hstart.
    erewrite while_raise; [|now apply Z.ltb_lt|exact Hb].
    eexists. split; [reflexivity|]. auto.
  - intros l o Hrun k Hk.
    unfold Setup.setup, Setup.setup_call in Hrun. rewrite Hstart in Hrun.
    destruct (while _ _ _ _) as [[l1 o1]|] eqn:Hw; [|discriminate].
    assert (l1 = l) as -> by (destruct o1; now inversion Hrun).
    apply (SetupFacts.loop_clock W P max_steps t0 _ _
             (Setup.entry W state) l o1 eq_refl eq_refl Hw k Hk).
Qed.

(** Runs for C3: the clock stands at 31 minutes when the loop is entered;
    and it gets there after two passes. *)
Lemma setup_times_out_before_oracle_witness :
  (exists l',
      Setup.setup (scripted (always "<command>ls</command>") (fun _ => 1860%Q))
        Setup.spec_parser 3 (state_with None)
      = Some (l', Return (ExceptionUpdate
                            (TimeoutError
                               "Reached global timeout of 30 minutes")))
      /\ Setup.calls l' = []
      /\ Setup.step l' = 0%Z
      /\ Setup.messages l'
         = [SystemMessage "setup: system"; HumanMessage "setup: task"])
  /\ (exists l o,
         Setup.setup
           (scripted (always "<command>ls</command>")
              (fun k => if k <? 2 then 0%Q else 1860%Q))
           Setup.spec_parser 5 (state_with None) = Some (l, o)
         /\ List.length (Setup.calls l) = 2
         /\ Setup.timed_out (if 1 <? 2 then 0%Q else 1860%Q) 0 = false)
  /\ ((30 * 60 < 1800 - - (1 # 2 ^ 70))%Q
      /\ Setup.timed_out 1800 (- (1 # 2 ^ 70)) = false
      /\ Setup.timed_out (1800 + (1 # 2 ^ 42)) 0 = true).
Proof.
  split; [|split].
  - destruct (setup_times_out_before_oracle
                (scripted (always "<command>ls</command>")
                   (fun _ => 1860%Q))
                Setup.spec_parser 3 (state_with None) 0%Q eq_refl)
      as (_ & H & _).
    apply (H (Setup.entry
                (scripted (always "<command>ls</command>") (fun _ => 1860%Q))
                (state_with None))).
    + constructor.
    + reflexivity.
    + reflexivity.
  - destruct (setup_times_out_before_oracle
                (scripted (always "<command>ls</command>")
                   (fun k => if k <? 2 then 0%Q else 1860%Q))
                Setup.spec_parser 5 (state_with None) 0%Q eq_refl)
      as (_ & _ & H).
    do 2 eexists. split; [vm_compute; reflexivity|].
    split; [reflexivity|].
    eapply (H _ _ ltac:(vm_compute; reflexivity) 1).
    cbn. lia.
  - split; [reflexivity|]. split.
    + destruct (setup_times_out_before_oracle
                  (scripted (always "<command>ls</command>")
                     (fun _ => 1800%Q))
                  Setup.spec_parser 3
                  {| exception := None; session := Some tt;
                     verify_messages := []; setup_commands := [];
                     start_time := Some (- (1 # 2 ^ 70))%Q;
                     trials := 0%Z |}
                  (- (1 # 2 ^ 70))%Q eq_refl)
        as (H & _ & _).
      destruct (Setup.timed_out 1800 (- (1 # 2 ^ 70))) eqn:E;
        [|reflexivity].
      apply H in E. vm_compute in E. discriminate.
    + destruct (setup_times_out_before_oracle
                  (scripted (always "<command>ls</command>")
                     (fun _ => 1860%Q))
                  Setup.spec_parser 3 (state_with None) 0%Q eq_refl)
        as (H & _ & _).
      apply H. reflexivity.
Defined.

(** C3 as stated fails for the verify loop, which never reads the clock:
    more than 30 minutes after [start_time] it still calls the oracle and
    returns its verdict. *)
Lemma verify_ignores_the_clock :
  (30 * 60 < 10000 - 0)%Q
  /\ start_time (state_with None) = Some 0%Q
  /\ exists l r,
      verify (scripted (always "<issue>none</issue>") (fun _ => 10000%Q))
        1 (state_with None)
      = Some (l, Return (Update r))
      /\ List.length (calls l) = 1
      /\ r_success r = true.
Proof.
  split; [reflexivity|]. split; [reflexivity|].
  do 2 eexists. split; [vm_compute; reflexivity|]. split; reflexivity.
Qed.

(** C4, at the place where the code fails it.  In the verify loop a pass
    whose reply holds neither [<command>] nor [<issue>] ends the loop:
    the parser returns [None], reading [action.action] raises
    [AttributeError], and [verify] returns the captured exception.  The
    reply has been appended to the messages, the clarification has not. *)
Theorem verify_unparseable_reply_raises
  (W : World) (max_steps : Z) (state : AgentState (Session W))
  (l : locals W) (reply c : string) :
  exception state = None ->
  reaches max_steps state l ->
  (step l < max_steps)%Z ->
  llm_invoke W (List.length (calls l))
    (input_messages (List.length (prefix W state)) (messages l))
  = Return reply ->
  drop_reasoning reply = Return c ->
  PyStr.contains "<command>" c = false ->
  PyStr.contains "<issue>" c = false ->
  parse_verify_action c = Return None
  /\ exists l',
      verify W max_steps state
      = Some (l', Return (ExceptionUpdate
                            (AttributeError
                               "'NoneType' object has no attribute 'action'")))
      /\ messages l' = messages l ++ [AIMessage c].
Proof.
  intros Hexc Hreach Hlt Hllm Hdrop Hcmd Hiss.
  assert (Hparse : parse_verify_action c = Return None).
  { unfold parse_verify_action. now rewrite Hcmd, Hiss. }
  split; [assumption|].
  unfold verify, verify_call. rewrite Hexc.
  rewrite (VerifyFacts.verify_reaches_while _ _ _ _ Hreach).
  replace (Z.to_nat (max_steps - step l))
    with (S (Z.to_nat (max_steps - step l - 1))) by lia.
  pose proof (VerifyFacts.verify_body_eq W (List.length (prefix W state)) l) as Hb.
  cbv zeta in Hb. rewrite Hllm, Hdrop, Hparse in Hb.
  erewrite while_raise; [|now apply Z.ltb_lt|exact Hb].
  eexists. split; reflexivity.
Qed.

(** A run for C4: the oracle answers without any tag. *)
Lemma verify_unparseable_reply_raises_witness :
  parse_verify_action "I am not sure what to do next." = Return None
  /\ exists l',
      verify (scripted (always "I am not sure what to do next.") noon)
        5 (state_with None)
      = Some (l', Return (ExceptionUpdate
                            (AttributeError
                               "'NoneType' object has no attribute 'action'")))
      /\ messages l'
         = messages (entry (scripted (always "I am not sure what to do next.")
                              noon) (state_with None))
           ++ [AIMessage "I am not sure what to do next."].
Proof.
  apply (verify_unparseable_reply_raises
           (scripted (always "I am not sure what to do next.") noon)
           5 (state_with None)
           (entry (scripted (always "I am not sure what to do next.") noon)
              (state_with None))
           "I am not sure what to do next.").
  - reflexivity.
  - constructor.
  - reflexivity.
  - reflexivity.
  - reflexivity.
  - reflexivity.
  - reflexivity.
Defined.

(** The setup loop does what C4 says: a pass whose reply parses to [None]
    appends the reply and the clarification, counts one step, records no
    command, and the loop goes on. *)
Lemma setup_unparseable_reply_reprompts
  (W : World) (P : Setup.ActionParser) (max_steps : Z)
  (state : AgentState (Session W)) (t0 : Q)
  (l : Setup.locals W) (reply : string) :
  start_time state = Some t0 ->
  Setup.timed_out (time_time W (Setup.ticks l)) t0 = false ->
  llm_invoke W (List.length (Setup.calls l))
    (Setup.input_messages (List.length (Setup.prefix W state))
       (Setup.commands l) (Setup.messages l))
  = Return reply ->
  Setup.parse_setup_action P reply = Return None ->
  exists l',
    Setup.body P (start_time state) (List.length (Setup.prefix W state)) l
    = (l', Return Continue)
    /\ Setup.messages l'
       = Setup.messages l
         ++ [AIMessage reply;
             HumanMessage ("Observation:" ++ nl ++ Setup.clarification)]
    /\ Setup.step l' = (Setup.step l + 1)%Z
    /\ Setup.commands l' = Setup.commands l
    /\ List.length (Setup.calls l') = S (List.length (Setup.calls l)).
Proof.
  intros Hstart Hclock Hllm Hparse. rewrite Hstart.
  eexists. split.
  - apply SetupFacts.body_unparseable with (reply := reply); assumption.
  - cbn [Setup.messages Setup.step Setup.commands Setup.calls
         Setup.with_messages Setup.with_sess Setup.with_call
         Setup.with_step Setup.with_tick].
    rewrite <- app_assoc, length_app. simpl. repeat split; lia.
Qed.

(** C5.  For every history behind the prefix, the prompt of the setup loop
    is the whole prefix, the marker and the last messages of that history,
    and the prompt of the verify loop is the whole prefix and the last
    messages of that history: at most 5 of them in setup and at most 10 in
    verify.  Every call of the oracle in a run of either loop gets such a
    prompt, built from the history as it stood at the call. *)
Theorem prompt_keeps_prefix_and_window
  (W : World) (P : Setup.ActionParser) (N : Z)
  (state : AgentState (Session W)) :
  (forall cmds rest,
      Setup.input_messages (List.length (Setup.prefix W state)) cmds
        (Setup.prefix W state ++ rest)
      = Setup.prefix W state
          ++ Setup.commands_history cmds :: last_n 5 rest)
  /\ (forall rest,
         input_messages (List.length (prefix W state)) (prefix W state ++ rest)
         = prefix W state ++ last_n 10 rest)
  /\ (forall k (rest : list message),
         List.length (last_n k rest) <= k
         /\ exists older, rest = older ++ last_n k rest)
  /\ (forall l o,
         Setup.setup W P N state = Some (l, o) ->
         Forall (setup_input_ok (Setup.prefix W state) (Setup.messages l))
           (Setup.calls l))
  /\ (forall l o,
         verify W N state = Some (l, o) ->
         Forall (verify_input_ok (prefix W state) (messages l)) (calls l)).
Proof.
  repeat split.
  - intros cmds rest. apply WindowFacts.setup_window.
  - intros rest. apply WindowFacts.verify_window.
  - rewrite WindowFacts.last_n_length. lia.
  - eexists. apply WindowFacts.last_n_suffix.
  - intros l o Hrun. unfold Setup.setup, Setup.setup_call in Hrun.
    destruct (while _ _ _ _) as [[l1 o1]|] eqn:Hw; [|discriminate].
    assert (l1 = l) as -> by (destruct o1; now inversion Hrun).
    apply (WindowFacts.setup_loop_window W P N (start_time state)
             (Setup.prefix W state) _ (Setup.entry W state) l o1
             eq_refl eq_refl Hw).
  - intros l o Hrun. unfold verify, verify_call in Hrun.
    destruct (exception state) as [e|].
    + inversion Hrun; subst. constructor.
    + destruct (while _ _ _ _) as [[l1 o1]|] eqn:Hw; [|discriminate].
      assert (l1 = l) as -> by (destruct o1; now inversion Hrun).
      apply (WindowFacts.verify_loop_window W N (prefix W state) _
               (entry W state) l o1 eq_refl eq_refl Hw).
Qed.

(** Runs for C5: eight commands in the setup loop and twelve in the
    verify loop, so that the windows have begun to slide. *)
Lemma prompt_keeps_prefix_and_window_witness :
  (exists l o,
      Setup.setup (scripted (always "<command>ls</command>") noon)
        Setup.spec_parser 8 (state_with None) = Some (l, o)
      /\ List.length (Setup.calls l) = 8
      /\ Forall (setup_input_ok
                   (Setup.prefix
                      (scripted (always "<command>ls</command>") noon)
                      (state_with None))
                   (Setup.messages l))
           (Setup.calls l))
  /\ (exists l o,
         verify (scripted (always "<command>pytest -rA</command>") noon)
           12 (state_with None) = Some (l, o)
         /\ List.length (calls l) = 12
         /\ Forall (verify_input_ok
                      (prefix
                         (scripted (always "<command>pytest -rA</command>")
                            noon)
                         (state_with None))
                      (messages l))
              (calls l)).
Proof.
  split.
  - do 2 eexists. split; [vm_compute; reflexivity|]. split; [reflexivity|].
    destruct (prompt_keeps_prefix_and_window
                (scripted (always "<command>ls</command>") noon)
                Setup.spec_parser 8 (state_with None))
      as (_ & _ & _ & H & _).
    eapply H. vm_compute. reflexivity.
  - do 2 eexists. split; [vm_compute; reflexivity|]. split; [reflexivity|].
    destruct (prompt_keeps_prefix_and_window
                (scripted (always "<command>pytest -rA</command>") noon)
                Setup.spec_parser 12 (state_with None))
      as (_ & _ & _ & _ & H).
    eapply H. vm_compute. reflexivity.
Defined.

(** C6, as amended.  Under the verify grammar a reply with [<command>] in
    it parses as a command whatever else it holds, and a reply with
    [<issue>] and no [<command>] as an issue.  Under the setup grammar the
    order is command, search, stop, but a tag counts only if its extracted
    content is not empty: a command with content wins over everything, a
    search with content wins when there is no command with content, and
    the stop tags count when there is neither.  So a reply with a command
    tag that has content parses as a command also when a stop tag
    follows or goes before. *)
Theorem parser_priority (P : Setup.ActionParser) (reply c : string) :
  (PyStr.contains "<command>" reply = true ->
   exists inner,
     parse_verify_action reply
     = Return (Some {| action := command; args := PyStr.strip inner |}))
  /\ (PyStr.contains "<command>" reply = false ->
      PyStr.contains "<issue>" reply = true ->
      exists inner,
        parse_verify_action reply
        = Return (Some {| action := issue;
                          args := PyStr.lower (PyStr.strip inner) |}))
  /\ (Setup.clean_response P reply = Return c ->
      (forall x,
          Setup.extract_tag_content P c "command" = Some x -> x <> "" ->
          Setup.parse P reply = Return (Some (Setup.Command x)))
      /\ (PyStr.truthy (Setup.extract_tag_content P c "command") = false ->
          forall q,
            Setup.extract_tag_content P c "search" = Some q -> q <> "" ->
            Setup.parse P reply = Return (Some (Setup.Search q)))
      /\ (PyStr.truthy (Setup.extract_tag_content P c "command") = false ->
          PyStr.truthy (Setup.extract_tag_content P c "search") = false ->
          Setup.parse P reply
          = Return (if PyStr.contains "<stop>" c
                       && PyStr.contains "</stop>" c
                    then Some Setup.Stop else None)))
  /\ (forall pre text post,
         text <> "" ->
         PyStr.contains "<think>"
           (pre ++ "<command>" ++ text ++ "</command>" ++ post) = false ->
         PyStr.contains "<command>" pre = false ->
         PyStr.contains "</command>" text = false ->
         Setup.parse Setup.spec_parser
           (pre ++ "<command>" ++ text ++ "</command>" ++ post)
         = Return (Some (Setup.Command text))).
Proof.
  split; [|split; [|split]].
  - apply ParseFacts.verify_command.
  - apply ParseFacts.verify_issue.
  - intros Hc. split; [|split].
    + intros x. now apply ParseFacts.setup_parse_command.
    + intros Hx q. now apply ParseFacts.setup_parse_search.
    + now apply ParseFacts.setup_parse_rest.
  - intros pre text post Hne Hthink Hpre Htext.
    apply ParseFacts.setup_parse_command
      with (c := (pre ++ "<command>" ++ text ++ "</command>" ++ post)%string).
    + cbn [Setup.spec_parser Setup.clean_response].
      unfold Setup.spec_clean_response, drop_reasoning.
      now rewrite Hthink.
    + now apply ParseFacts.spec_extract_command.
    + assumption.
Qed.

(** Replies for C6: a command and a stop under the setup grammar, either
    way round; a search and a stop; an empty command and a stop; and under
    the verify grammar an issue with a command, and an issue alone. *)
Lemma parser_priority_witness :
  Setup.parse Setup.spec_parser "<stop></stop> <command>make test</command>"
  = Return (Some (Setup.Command "make test"))
  /\ Setup.parse Setup.spec_parser "<command>make test</command><stop></stop>"
     = Return (Some (Setup.Command "make test"))
  /\ Setup.parse Setup.spec_parser "<stop></stop><search>pip error</search>"
     = Return (Some (Setup.Search "pip error"))
  /\ Setup.parse Setup.spec_parser "<command></command><stop></stop>"
     = Return (if PyStr.contains "<stop>" "<command></command><stop></stop>"
                  && PyStr.contains "</stop>"
                       "<command></command><stop></stop>"
               then Some Setup.Stop else None)
  /\ (exists inner,
         parse_verify_action
           "<issue>none</issue> <command>pytest -rA</command>"
         = Return (Some {| action := command; args := PyStr.strip inner |}))
  /\ (exists inner,
         parse_verify_action "The tests pass. <issue>None</issue>"
         = Return (Some {| action := issue;
                           args := PyStr.lower (PyStr.strip inner) |})).
Proof.
  destruct (parser_priority Setup.spec_parser
              "<issue>none</issue> <command>pytest -rA</command>" "")
    as (Hv & _ & _ & Hs).
  destruct (parser_priority Setup.spec_parser
              "The tests pass. <issue>None</issue>" "")
    as (_ & Hi & _ & _).
  destruct (parser_priority Setup.spec_parser
              "<stop></stop><search>pip error</search>"
              "<stop></stop><search>pip error</search>")
    as (_ & _ & Hq & _).
  destruct (parser_priority Setup.spec_parser
              "<command></command><stop></stop>"
              "<command></command><stop></stop>")
    as (_ & _ & He & _).
  destruct (Hq eq_refl) as (_ & Hsearch & _).
  destruct (He eq_refl) as (_ & _ & Hrest).
  split; [|split; [|split; [|split; [|split]]]].
  - apply (Hs "<stop></stop> " "make test" ""); [discriminate|reflexivity..].
  - apply (Hs "" "make test" "<stop></stop>"); [discriminate|reflexivity..].
  - apply Hsearch; [reflexivity|reflexivity|discriminate].
  - apply Hrest; reflexivity.
  - apply Hv. reflexivity.
  - apply Hi; reflexivity.
Defined.

(** C6 as stated fails under the setup grammar: this reply holds a command
    tag and a stop tag and parses as a stop, because the content of the
    command tag is empty and [if command:] does not hold. *)
Lemma empty_command_yields_to_stop :
  PyStr.contains "<command>" "<command></command><stop></stop>" = true
  /\ PyStr.contains "</command>" "<command></command><stop></stop>" = true
  /\ PyStr.contains "<stop>" "<command></command><stop></stop>" = true
  /\ Setup.extract_tag_content Setup.spec_parser
       "<command></command><stop></stop>" "command" = Some ""
  /\ Setup.parse Setup.spec_parser "<command></command><stop></stop>"
     = Return (Some Setup.Stop).
Proof. repeat split. Qed.

(** C7, as amended.  In the verify loop every pass that executes an
    action, the terminal issue included, appends the reply and then the
    observation before the loop goes on or stops.  In the setup loop a pass
    that goes on (command, search, no action) appends the reply and then
    the observation; a pass that stops the loop has appended the reply
    alone: the loop breaks before the observation of a stop is appended. *)
Theorem observation_appended_unless_setup_stops
  (W : World) (P : Setup.ActionParser) :
  (forall n (l l' : locals W) k,
      body n l = (l', Return k) ->
      exists reply c a s' ob,
        llm_invoke W (List.length (calls l)) (input_messages n (messages l))
        = Return reply
        /\ drop_reasoning reply = Return c
        /\ parse_verify_action c = Return (Some a)
        /\ observation_for_verify_action W (Some a) (sess l)
           = (s', Return ob)
        /\ messages l'
           = messages l
             ++ [AIMessage c;
                 HumanMessage ("Observation:" ++ nl ++ content ob)]
        /\ (k = Break <-> action a = issue))
  /\ (forall start n (l l' : Setup.locals W),
         Setup.body P start n l = (l', Return Continue) ->
         exists reply a s' ob,
           llm_invoke W (List.length (Setup.calls l))
             (Setup.input_messages n (Setup.commands l) (Setup.messages l))
           = Return reply
           /\ Setup.parse_setup_action P reply = Return a
           /\ a <> Some Setup.Stop
           /\ Setup.observation_for_setup_action W
                (S (List.length (Setup.calls l))) (Setup.sess l) a
              = (s', Return ob)
           /\ Setup.messages l'
              = Setup.messages l
                ++ [AIMessage reply;
                    HumanMessage
                      ("Observation:" ++ nl ++ Setup.content ob)])
  /\ (forall start n (l l' : Setup.locals W),
         Setup.body P start n l = (l', Return Break) ->
         exists reply,
           llm_invoke W (List.length (Setup.calls l))
             (Setup.input_messages n (Setup.commands l) (Setup.messages l))
           = Return reply
           /\ Setup.parse_setup_action P reply = Return (Some Setup.Stop)
           /\ Setup.messages l' = Setup.messages l ++ [AIMessage reply]).
Proof.
  split; [|split].
  - intros n l l' k H.
    rewrite VerifyFacts.verify_body_eq in H. cbv zeta in H.
    destruct (llm_invoke W _ _) as [reply|e] eqn:Hllm; [|discriminate].
    destruct (drop_reasoning reply) as [c|e] eqn:Hdrop; [|discriminate].
    destruct (parse_verify_action c) as [[a|]|e] eqn:Hparse; try discriminate.
    assert (Hsess :
              sess (match action a with
                    | command =>
                        with_commands (fun cs => cs ++ [args a])
                          (with_messages (fun m => m ++ [AIMessage c])
                             (with_call (input_messages n (messages l))
                                (with_step (fun s => (s + 1)%Z) l)))
                    | issue =>
                        with_messages (fun m => m ++ [AIMessage c])
                          (with_call (input_messages n (messages l))
                             (with_step (fun s => (s + 1)%Z) l))
                    end) = sess l)
      by (destruct (action a); reflexivity).
    rewrite Hsess in H.
    destruct (observation_for_verify_action W (Some a) (sess l))
      as [s' [ob|e]] eqn:Hob; [|discriminate].
    exists reply, c, a, s', ob.
    repeat split; try reflexivity; try assumption.
    + destruct (action a); [|destruct (String.eqb (content ob) "")];
        inversion H; subst; cbn; now rewrite <- app_assoc.
    + destruct (action a); [|reflexivity].
      intros ->. inversion H.
    + destruct (action a); [discriminate|].
      intros _. destruct (String.eqb (content ob) ""); now inversion H.
  - intros start n l l' H.
    rewrite SetupFacts.setup_body_eq in H. cbv zeta in H.
    destruct start as [t0|]; [|discriminate].
    destruct (Setup.timed_out _ _); [discriminate|].
    destruct (llm_invoke W _ _) as [reply|e] eqn:Hllm; [|discriminate].
    destruct (Setup.parse_setup_action P reply) as [a|e] eqn:Hparse;
      [|discriminate].
    exists reply, a.
    destruct a as [[x|q|]|];
      cbn [Setup.calls Setup.sess Setup.with_commands Setup.with_messages
           Setup.with_call Setup.with_step Setup.with_tick] in H;
      rewrite length_app in H; cbn [List.length] in H;
      rewrite Nat.add_1_r in H;
      destruct (Setup.observation_for_setup_action W _ _ _)
        as [s' [ob|e]] eqn:Hob; try discriminate;
      destruct (Setup.is_stop ob) eqn:Hstop; try discriminate;
      try (exists s', ob; inversion H; subst; cbn;
           rewrite <- app_assoc; repeat split; congruence).
    cbn in Hob. inversion Hob; subst. discriminate.
  - intros start n l l' H.
    rewrite SetupFacts.setup_body_eq in H. cbv zeta in H.
    destruct start as [t0|]; [|discriminate].
    destruct (Setup.timed_out _ _); [discriminate|].
    destruct (llm_invoke W _ _) as [reply|e] eqn:Hllm; [|discriminate].
    destruct (Setup.parse_setup_action P reply) as [a|e] eqn:Hparse;
      [|discriminate].
    exists reply.
    destruct (Setup.observation_for_setup_action W _ _ a)
      as [s' [ob|e]] eqn:Hob; [|discriminate].
    destruct (Setup.is_stop ob) eqn:Hstop; [|discriminate].
    assert (a = Some Setup.Stop) as ->.
    { destruct a as [[x|q|]|]; cbn in Hob; try reflexivity.
      - destruct (Setup.sess l) as [s0|]; [|discriminate].
        destruct (send_command W s0 x) as [s1 [text|e]];
          inversion Hob; subst; discriminate.
      - destruct (search_invoke W _ q);
          inversion Hob; subst; discriminate.
      - inversion Hob; subst; discriminate. }
    inversion H; subst. repeat split; try assumption; reflexivity.
Qed.

(** Passes for C7: the verify loop on an issue, the setup loop on a
    command, and the setup loop on a stop. *)
Lemma observation_appended_unless_setup_stops_witness :
  (exists l',
      body 2 (entry (scripted (always "<issue>Tests FAIL</issue>") noon)
                (state_with None))
      = (l', Return Break)
      /\ exists reply c a s' ob,
          llm_invoke (scripted (always "<issue>Tests FAIL</issue>") noon) 0
            (input_messages 2
               [SystemMessage "verify: system"; HumanMessage "verify: task"])
          = Return reply
          /\ drop_reasoning reply = Return c
          /\ parse_verify_action c = Return (Some a)
          /\ observation_for_verify_action
               (scripted (always "<issue>Tests FAIL</issue>") noon)
               (Some a) (Some tt)
             = (s', Return ob)
          /\ messages l'
             = [SystemMessage "verify: system"; HumanMessage "verify: task"]
               ++ [AIMessage c;
                   HumanMessage ("Observation:" ++ nl ++ content ob)]
          /\ (Break = Break <-> action a = issue))
  /\ (exists l',
         Setup.body Setup.spec_parser (Some 0%Q) 2
           (Setup.entry (scripted (always "<command>ls</command>") noon)
              (state_with None))
         = (l', Return Continue)
         /\ exists reply a s' ob,
             llm_invoke (scripted (always "<command>ls</command>") noon) 0
               (Setup.input_messages 2 []
                  [SystemMessage "setup: system"; HumanMessage "setup: task"])
             = Return reply
             /\ Setup.parse_setup_action Setup.spec_parser reply = Return a
             /\ a <> Some Setup.Stop
             /\ Setup.observation_for_setup_action
                  (scripted (always "<command>ls</command>") noon)
                  1 (Some tt) a
                = (s', Return ob)
             /\ Setup.messages l'
                = [SystemMessage "setup: system"; HumanMessage "setup: task"]
                  ++ [AIMessage reply;
                      HumanMessage
                        ("Observation:" ++ nl ++ Setup.content ob)])
  /\ (exists l',
         Setup.body Setup.spec_parser (Some 0%Q) 2
           (Setup.entry (scripted (always "<stop></stop>") noon)
              (state_with None))
         = (l', Return Break)
         /\ exists reply,
             llm_invoke (scripted (always "<stop></stop>") noon) 0
               (Setup.input_messages 2 []
                  [SystemMessage "setup: system"; HumanMessage "setup: task"])
             = Return reply
             /\ Setup.parse_setup_action Setup.spec_parser reply
                = Return (Some Setup.Stop)
             /\ Setup.messages l'
                = [SystemMessage "setup: system"; HumanMessage "setup: task"]
                  ++ [AIMessage reply]).
Proof.
  split; [|split].
  - destruct (observation_appended_unless_setup_stops
                (scripted (always "<issue>Tests FAIL</issue>") noon)
                Setup.spec_parser) as (H & _ & _).
    eexists. split; [vm_compute; reflexivity|].
    apply (H 2
             (entry (scripted (always "<issue>Tests FAIL</issue>") noon)
                (state_with None)) _ Break).
    vm_compute. reflexivity.
  - destruct (observation_appended_unless_setup_stops
                (scripted (always "<command>ls</command>") noon)
                Setup.spec_parser) as (_ & H & _).
    eexists. split; [vm_compute; reflexivity|].
    apply (H (Some 0%Q) 2
             (Setup.entry (scripted (always "<command>ls</command>") noon)
                (state_with None)) _).
    vm_compute. reflexivity.
  - destruct (observation_appended_unless_setup_stops
                (scripted (always "<stop></stop>") noon)
                Setup.spec_parser) as (_ & _ & H).
    eexists. split; [vm_compute; reflexivity|].
    apply (H (Some 0%Q) 2
             (Setup.entry (scripted (always "<stop></stop>") noon)
                (state_with None)) _).
    vm_compute. reflexivity.
Defined.

(** C7 as stated fails for the setup loop: after a stop, the messages end
    with the reply; no observation follows it. *)
Lemma setup_stop_appends_no_observation :
  exists l r,
    Setup.setup (scripted (always "<stop></stop>") noon)
      Setup.spec_parser 3 (state_with None)
    = Some (l, Return (Update r))
    /\ Setup.step l = 1%Z
    /\ Setup.r_messages r
       = [SystemMessage "setup: system"; HumanMessage "setup: task";
          AIMessage "<stop></stop>"].
Proof.
  do 2 eexists. split; [vm_compute; reflexivity|]. split; reflexivity.
Qed.

(** C8, as amended.  [verify] looks at [state["exception"]] before
    anything else and raises it again: no message is built and the oracle
    is not called.  [setup] has no such test.  In both stages an exception
    that derives from [Exception] and is raised inside the stage comes back
    as the [exception] entry of the returned update and is not raised to
    the caller. *)
Theorem exceptions_are_captured
  (W : World) (P : Setup.ActionParser) (N : Z)
  (state : AgentState (Session W)) :
  (forall e,
      exception state = Some e ->
      exists l,
        verify_call W N state = Some (l, Raise e)
        /\ calls l = [] /\ messages l = [] /\ step l = 0%Z
        /\ verify W N state
           = Some (l, if derives_Exception e
                      then Return (ExceptionUpdate e) else Raise e))
  /\ (forall l e,
         verify_call W N state = Some (l, Raise e) ->
         derives_Exception e = true ->
         verify W N state = Some (l, Return (ExceptionUpdate e)))
  /\ (forall l e,
         Setup.setup_call W P N state = Some (l, Raise e) ->
         derives_Exception e = true ->
         Setup.setup W P N state = Some (l, Return (ExceptionUpdate e)))
  /\ (forall l e,
         verify W N state = Some (l, Raise e) -> derives_Exception e = false)
  /\ (forall l e,
         Setup.setup W P N state = Some (l, Raise e) ->
         derives_Exception e = false).
Proof.
  repeat split.
  - intros e He. unfold verify, verify_call. rewrite He.
    eexists. repeat split.
  - intros l e H He. unfold verify. rewrite H. cbn. now rewrite He.
  - intros l e H He. unfold Setup.setup. rewrite H. cbn. now rewrite He.
  - intros l e H. unfold verify in H.
    destruct (verify_call W N state) as [[l1 [r|e1]]|]; try discriminate.
    cbn in H. destruct (derives_Exception e1) eqn:E; [discriminate|].
    now inversion H; subst.
  - intros l e H. unfold Setup.setup in H.
    destruct (Setup.setup_call W P N state) as [[l1 [r|e1]]|];
      try discriminate.
    cbn in H. destruct (derives_Exception e1) eqn:E; [discriminate|].
    now inversion H; subst.
Qed.

(** Runs for C8: an earlier stage has left a [RuntimeError] in the state;
    the verify loop fails inside; the setup loop times out; and the oracle
    is interrupted from the keyboard, in either loop. *)
Lemma exceptions_are_captured_witness :
  (exists l,
      verify_call (scripted (always "<issue>none</issue>") noon) 5
        (state_with (Some (Foreign "RuntimeError" true)))
      = Some (l, Raise (Foreign "RuntimeError" true))
      /\ calls l = [] /\ messages l = [] /\ step l = 0%Z
      /\ verify (scripted (always "<issue>none</issue>") noon) 5
           (state_with (Some (Foreign "RuntimeError" true)))
         = Some (l, Return (ExceptionUpdate (Foreign "RuntimeError" true))))
  /\ (exists l,
         verify (scripted (always "no tag") noon) 5 (state_with None)
         = Some (l, Return (ExceptionUpdate
                              (AttributeError
                                 "'NoneType' object has no attribute 'action'"))))
  /\ (exists l,
         Setup.setup (scripted (always "<stop></stop>") (fun _ => 1860%Q))
           Setup.spec_parser 5 (state_with None)
         = Some (l, Return (ExceptionUpdate
                              (TimeoutError
                                 "Reached global timeout of 30 minutes"))))
  /\ derives_Exception (Foreign "KeyboardInterrupt" false) = false
  /\ derives_Exception (Foreign "SystemExit" false) = false.
Proof.
  split; [|split; [|split; [|split]]].
  - destruct (exceptions_are_captured
                (scripted (always "<issue>none</issue>") noon)
                Setup.spec_parser 5
                (state_with (Some (Foreign "RuntimeError" true))))
      as (H & _).
    apply (H (Foreign "RuntimeError" true)). reflexivity.
  - destruct (exceptions_are_captured
                (scripted (always "no tag") noon)
                Setup.spec_parser 5 (state_with None))
      as (_ & H & _).
    eexists. eapply H; [vm_compute; reflexivity|reflexivity].
  - destruct (exceptions_are_captured
                (scripted (always "<stop></stop>") (fun _ => 1860%Q))
                Setup.spec_parser 5 (state_with None))
      as (_ & _ & H & _).
    eexists. eapply H; [vm_compute; reflexivity|reflexivity].
  - destruct (exceptions_are_captured
                (scripted (fun _ => Raise (Foreign "KeyboardInterrupt" false))
                   noon)
                Setup.spec_parser 5 (state_with None))
      as (_ & _ & _ & H & _).
    eapply H. vm_compute. reflexivity.
  - destruct (exceptions_are_captured
                (scripted (fun _ => Raise (Foreign "SystemExit" false)) noon)
                Setup.spec_parser 5 (state_with None))
      as (_ & _ & _ & _ & H).
    eapply H. vm_compute. reflexivity.
Defined.

(** C8 as stated fails for [setup]: with an exception already in the state
    it runs its loop, calls the oracle and returns an ordinary update. *)
Lemma setup_runs_on_a_failed_state :
  exception (state_with (Some (Foreign "RuntimeError" true)))
  = Some (Foreign "RuntimeError" true)
  /\ exists l r,
      Setup.setup (scripted (always "<stop></stop>") noon)
        Setup.spec_parser 3
        (state_with (Some (Foreign "RuntimeError" true)))
      = Some (l, Return (Update r))
      /\ List.length (Setup.calls l) = 1.
Proof.
  split; [reflexivity|].
  do 2 eexists. split; [vm_compute; reflexivity|]. reflexivity.
Qed.

(** C9.  One call of [LLMProvider.invoke] makes between 1 and 5 attempts
    on the model and then returns or raises: the attempts before the last
    failed with an [Exception]; a fifth failure is raised to the caller as
    [RetryError].  The first attempt is made at once, and before each
    further attempt the call sleeps for the wait computed after the
    attempt [k] before it, which is [5 * 2 ** (k - 1)] plus a jitter of at
    most 3 and stays below the cap of 120. *)
Theorem oracle_retry_policy
  (A : Type) (fn : nat -> outcome A) (random : nat -> Q) :
  exists n r,
    LLM.invoke fn random = Some (LLM.schedule random n, r)
    /\ 1 <= n <= 5
    /\ LLM.attempts (LLM.schedule random n) = n
    /\ hd_error (LLM.schedule random n) = Some (LLM.Attempt 1)
    /\ (forall j, 1 <= j < n ->
                  exists e, fn j = Raise e /\ derives_Exception e = true)
    /\ match fn n with
       | Return a => r = Return a
       | Raise e =>
           if derives_Exception e
           then n = 5 /\ r = Raise (RetryError e)
           else r = Raise e
       end
    /\ (forall k,
           1 <= k <= 4 -> (0 <= random k <= 1)%Q ->
           let w := LLM.wait_exponential_jitter 5 120 3 k (random k) in
           let base := (5 * inject_Z (2 ^ Z.of_nat (k - 1)))%Q in
           (w == base + 3 * random k)%Q
           /\ (base <= w <= base + 3)%Q
           /\ (w <= 120)%Q).
Proof.
  destruct (RetryFacts.retrying_trace A fn random 5 1 []
              ltac:(lia) ltac:(lia))
    as (n & r & Hn & Hrun & Hbefore & Hlast).
  exists n, r. repeat split; try lia; try assumption.
  - apply RetryFacts.attempts_schedule. lia.
  - apply (RetryFacts.wait_value k (random k)); assumption.
  - apply (RetryFacts.wait_value k (random k)); assumption.
  - apply (RetryFacts.wait_value k (random k)); assumption.
  - apply (RetryFacts.wait_value k (random k)); assumption.
Qed.

(** A call for C9: the model fails twice with a rate limit and then
    answers; half of the jitter is drawn each time. *)
Lemma oracle_retry_policy_witness :
  (LLM.wait_exponential_jitter 5 120 3 2 (1 # 2)
   == 5 * inject_Z (2 ^ Z.of_nat (2 - 1)) + 3 * (1 # 2))%Q
  /\ (5 * inject_Z (2 ^ Z.of_nat (2 - 1))
      <= LLM.wait_exponential_jitter 5 120 3 2 (1 # 2)
      <= 5 * inject_Z (2 ^ Z.of_nat (2 - 1)) + 3)%Q
  /\ (LLM.wait_exponential_jitter 5 120 3 2 (1 # 2) <= 120)%Q.
Proof.
  destruct (oracle_retry_policy string
              (fun k => if k <? 3
                        then Raise (Foreign "RateLimitError" true)
                        else Return "ok")
              (fun _ => (1 # 2)%Q))
    as (n & r & _ & _ & _ & _ & _ & _ & Hwait).
  apply (Hwait 2).
  - lia.
  - split; discriminate.
Defined.

(** C10, as amended.  Let the content of the reply be the reply itself
    or, for a reply that holds [<think>], what the cut of lines 166-167
    leaves of it; let the content hold no [<command>], and let its first
    issue tag be [<issue>TEXT</issue>] with no issue tag, opening or
    closing, inside [TEXT].  The action it parses to carries [TEXT]
    stripped of surrounding whitespace and lowercased, the loop ends on
    that pass, and [verify] returns this text as the issue, unless the text
    is the sentinel "none" or empty, in which case the returned issue is
    [None]. *)
Theorem issue_text_is_normalised
  (W : World) (max_steps : Z) (state : AgentState (Session W))
  (l : locals W) (raw pre text post : string) :
  let content := (pre ++ "<issue>" ++ text ++ "</issue>" ++ post)%string in
  let t := PyStr.lower (PyStr.strip text) in
  exception state = None ->
  reaches max_steps state l ->
  (step l < max_steps)%Z ->
  llm_invoke W (List.length (calls l))
    (input_messages (List.length (prefix W state)) (messages l))
  = Return raw ->
  drop_reasoning raw = Return content ->
  PyStr.contains "<command>" content = false ->
  PyStr.contains "<issue>" pre = false ->
  PyStr.contains "<issue>" text = false ->
  PyStr.contains "</issue>" text = false ->
  parse_verify_action content
  = Return (Some {| action := issue; args := t |})
  /\ exists l' r,
      verify W max_steps state = Some (l', Return (Update r))
      /\ messages l'
         = messages l
           ++ [AIMessage content;
               HumanMessage ("Observation:" ++ nl
                               ++ (if String.eqb t "none" then "" else t))]
      /\ r_success r = (String.eqb t "none" || String.eqb t "")%bool
      /\ r_issue r = if (String.eqb t "none" || String.eqb t "")%bool
                     then None else Some t.
Proof.
  intros content t Hexc Hreach Hlt Hllm Hdrop Hcmd Hpre Ht1 Ht2.
  assert (Hparse : parse_verify_action content
                   = Return (Some {| action := issue; args := t |}))
    by (apply ParseFacts.verify_issue_tag; assumption).
  split; [assumption|].
  destruct (VerifyFacts.run_issue W max_steps state l raw content t
              Hexc Hreach Hlt Hllm Hdrop Hparse)
    as (l' & r & Hrun & _ & Hmsgs & _ & Hsucc & Hiss).
  exists l', r. auto.
Qed.

Lemma issue_text_is_normalised_witness :
  (parse_verify_action
     ("Done. " ++ "<issue>" ++ "  Missing dependency LibFoo " ++ "</issue>"
        ++ "")
   = Return (Some {| action := issue; args := "missing dependency libfoo" |})
   /\ exists l' r,
       verify (scripted
                 (always "Done. <issue>  Missing dependency LibFoo </issue>")
                 noon) 1 (state_with None)
       = Some (l', Return (Update r))
       /\ messages l'
          = [SystemMessage "verify: system"; HumanMessage "verify: task"]
            ++ [AIMessage "Done. <issue>  Missing dependency LibFoo </issue>";
                HumanMessage ("Observation:" ++ nl
                                ++ "missing dependency libfoo")]
       /\ r_success r = false
       /\ r_issue r = Some "missing dependency libfoo")
  /\ (parse_verify_action
        ("Done. " ++ "<issue>" ++ " Missing Dependency LibFoo " ++ "</issue>"
           ++ "")
      = Return (Some {| action := issue;
                        args := "missing dependency libfoo" |})
      /\ exists l' r,
          verify (scripted
                    (always
                       "<think>check the log</think>Done. <issue> Missing Dependency LibFoo </issue>")
                    noon) 1 (state_with None)
          = Some (l', Return (Update r))
          /\ messages l'
             = [SystemMessage "verify: system"; HumanMessage "verify: task"]
               ++ [AIMessage
                     "Done. <issue> Missing Dependency LibFoo </issue>";
                   HumanMessage ("Observation:" ++ nl
                                   ++ "missing dependency libfoo")]
          /\ r_success r = false
          /\ r_issue r = Some "missing dependency libfoo").
Proof.
  split.
  - apply (issue_text_is_normalised
             (scripted
                (always "Done. <issue>  Missing dependency LibFoo </issue>")
                noon) 1 (state_with None)
             (entry (scripted
                       (always
                          "Done. <issue>  Missing dependency LibFoo </issue>")
                       noon) (state_with None))
             "Done. <issue>  Missing dependency LibFoo </issue>"
             "Done. " "  Missing dependency LibFoo " "");
      try reflexivity. constructor.
  - apply (issue_text_is_normalised
             (scripted
                (always
                   "<think>check the log</think>Done. <issue> Missing Dependency LibFoo </issue>")
                noon) 1 (state_with None)
             (entry (scripted
                       (always
                          "<think>check the log</think>Done. <issue> Missing Dependency LibFoo </issue>")
                       noon) (state_with None))
             "<think>check the log</think>Done. <issue> Missing Dependency LibFoo </issue>"
             "Done. " " Missing Dependency LibFoo " "");
      try reflexivity. constructor.
Defined.

(** C10 as stated fails.  The reply [<issue>None</issue>] starts with an
    issue tag whose text, stripped and lowercased, is "none", and the
    issue [verify] returns is [None], not that text.  A reply that starts
    with an issue tag and goes on with a command tag parses as the
    command: the loop records no issue at all.  And when the text between
    [<issue>] and [</issue>] holds another [<issue>], the issue returned
    is the text up to that tag only. *)
Lemma sentinel_issue_is_not_returned :
  (PyStr.lower (PyStr.strip "None") = "none"
   /\ exists l r,
       verify (scripted (always "<issue>None</issue>") noon) 1
         (state_with None)
       = Some (l, Return (Update r))
       /\ r_issue r = None
       /\ r_issue r <> Some (PyStr.lower (PyStr.strip "None")))
  /\ (parse_verify_action "<issue>Broken</issue><command>ls</command>"
      = Return (Some {| action := command; args := "ls" |})
      /\ exists l r,
          verify (scripted
                    (always "<issue>Broken</issue><command>ls</command>")
                    noon) 1 (state_with None)
          = Some (l, Return (Update r))
          /\ r_issue r = None
          /\ r_commands r = ["ls"])
  /\ (exists l r,
         verify (scripted
                   (always "<issue>See the <issue> tag: BUILD failed</issue>")
                   noon) 1 (state_with None)
         = Some (l, Return (Update r))
         /\ r_issue r = Some "see the"
         /\ r_issue r
            <> Some (PyStr.lower
                       (PyStr.strip "See the <issue> tag: BUILD failed"))).
Proof.
  split; [|split].
  - split; [reflexivity|].
    do 2 eexists. split; [vm_compute; reflexivity|].
    split; [reflexivity|discriminate].
  - split; [reflexivity|].
    do 2 eexists. split; [vm_compute; reflexivity|].
    split; reflexivity.
  - do 2 eexists. split; [vm_compute; reflexivity|].
    split; [reflexivity|].
    vm_compute. discriminate.
Qed.

End Claims.

(* ================================================================== *)
(** * More about the two loops *)
(* ================================================================== *)

Module VerifyMore.
Import Verify VerifyFacts.

Ltac fields :=
  cbn [messages commands step success issue_text sess calls
       with_messages with_commands with_step with_success with_issue
       with_sess with_call] in *.

Ltac body_cases H :=
  rewrite verify_body_eq in H; cbv zeta in H;
  repeat match type of H with
         | context [match ?x with _ => _ end] => destruct x eqn:?
         end;
  inversion H; subst; clear H.

Section Loop.

Variable W : World.

(** What the observation leaves of the session. *)
Lemma observation_session (a : VerifyAction) (s : Session W)
  (s' : option (Session W)) (o : outcome VerifyObservation) :
  observation_for_verify_action W (Some a) (Some s) = (s', o) ->
  s' = Some (match action a with
             | command => fst (send_command W s (args a))
             | issue => s
             end).
Proof.
  unfold observation_for_verify_action. destruct (action a).
  - destruct (send_command W s (args a)) as [s1 [text|e]];
      intros [= <- _]; reflexivity.
  - destruct (String.eqb (args a) "none"); intros [= <- _]; reflexivity.
Qed.

Lemma observation_no_session (a : option VerifyAction)
  (s' : option (Session W)) (o : outcome VerifyObservation) :
  observation_for_verify_action W a None = (s', o) -> s' = None.
Proof.
  unfold observation_for_verify_action. destruct a as [a|].
  - destruct (action a); [|destruct (String.eqb (args a) "none")];
      intros [= <- _]; reflexivity.
  - intros [= <- _]; reflexivity.
Qed.

(** A pass leaves the session that the commands recorded so far lead to. *)
Lemma verify_body_replay (n : nat) (s0 : Session W) (l l' : locals W)
  (o : outcome control) :
  body n l = (l', o) ->
  sess l = Some (replay W s0 (commands l)) ->
  sess l' = Some (replay W s0 (commands l')).
Proof.
  intros H Hs. rewrite verify_body_eq in H. cbv zeta in H.
  destruct (llm_invoke W _ _) as [r|e]; [|now inversion H; subst].
  destruct (drop_reasoning r) as [c|e]; [|now inversion H; subst].
  destruct (parse_verify_action c) as [[a|]|e];
    [|now inversion H; subst..].
  destruct (action a) eqn:Ha; fields; rewrite Hs in H;
    destruct (observation_for_verify_action W (Some a) _)
      as [s' [ob|e]] eqn:Hob;
    apply observation_session in Hob; rewrite Ha in Hob; subst s'.
  - inversion H; subst. fields. unfold replay.
    now rewrite fold_left_app.
  - inversion H; subst. fields. unfold replay.
    now rewrite fold_left_app.
  - destruct (String.eqb (content ob) ""); inversion H; subst; reflexivity.
  - inversion H; subst. reflexivity.
Qed.

(** Without a session a pass leaves none. *)
Lemma verify_body_no_session (n : nat) (l l' : locals W)
  (o : outcome control) :
  body n l = (l', o) -> sess l = None -> sess l' = None.
Proof.
  intros H Hs. rewrite verify_body_eq in H. cbv zeta in H.
  destruct (llm_invoke W _ _) as [r|e]; [|now inversion H; subst].
  destruct (drop_reasoning r) as [c|e]; [|now inversion H; subst].
  destruct (parse_verify_action c) as [[a|]|e];
    [|now inversion H; subst..].
  destruct (action a) eqn:Ha; fields; rewrite Hs in H;
    destruct (observation_for_verify_action W (Some a) _)
      as [s' [ob|e]] eqn:Hob;
    apply observation_no_session in Hob; subst s';
    try (inversion H; subst; reflexivity).
  destruct (String.eqb (content ob) ""); inversion H; subst; reflexivity.
Qed.

(** A pass in which the reply is a command that the session runs. *)
Lemma verify_body_command (n : nat) (l : locals W)
  (reply c text : string) (a : VerifyAction) (s s' : Session W) :
  llm_invoke W (List.length (calls l)) (input_messages n (messages l))
  = Return reply ->
  drop_reasoning reply = Return c ->
  parse_verify_action c = Return (Some a) ->
  action a = command ->
  sess l = Some s ->
  send_command W s (args a) = (s', Return text) ->
  body n l
  = (with_messages
       (fun m => m ++ [HumanMessage ("Observation:" ++ nl ++ text)])
       (with_sess (Some s')
          (with_commands (fun cs => cs ++ [args a])
             (with_messages (fun m => m ++ [AIMessage c])
                (with_call (input_messages n (messages l))
                   (with_step (fun z => z + 1)%Z l))))),
     Return Continue).
Proof.
  intros Hllm Hdrop Hparse Ha Hsess Hsend.
  rewrite verify_body_eq. cbv zeta. rewrite Hllm, Hdrop, Hparse, Ha.
  cbn [observation_for_verify_action sess with_commands with_messages
       with_call with_step].
  rewrite Ha, Hsess, Hsend. reflexivity.
Qed.

(** A pass in which the reply is a command and there is no session. *)
Lemma verify_body_command_no_session (n : nat) (l : locals W)
  (reply c : string) (a : VerifyAction) :
  llm_invoke W (List.length (calls l)) (input_messages n (messages l))
  = Return reply ->
  drop_reasoning reply = Return c ->
  parse_verify_action c = Return (Some a) ->
  action a = command ->
  sess l = None ->
  body n l
  = (with_sess None
       (with_commands (fun cs => cs ++ [args a])
          (with_messages (fun m => m ++ [AIMessage c])
             (with_call (input_messages n (messages l))
                (with_step (fun z => z + 1)%Z l)))),
     Raise (AttributeError
              "'NoneType' object has no attribute 'send_command'")).
Proof.
  intros Hllm Hdrop Hparse Ha Hsess.
  rewrite verify_body_eq. cbv zeta. rewrite Hllm, Hdrop, Hparse, Ha.
  cbn [observation_for_verify_action sess with_commands with_messages
       with_call with_step].
  rewrite Ha, Hsess. reflexivity.
Qed.

(** The session is missing at the head of every pass when it is missing in
    the state. *)
Lemma verify_reaches_no_session (max_steps : Z)
  (state : AgentState (Session W)) (l : locals W) :
  session state = None -> reaches max_steps state l -> sess l = None.
Proof.
  intros Hs. induction 1 as [|l l' Hr IH Hlt Hb]; [exact Hs|].
  eapply verify_body_no_session; eauto.
Qed.

(** A pass that returns has appended the reply and the observation. *)
Lemma verify_body_two (n : nat) (l l' : locals W) (k : control) :
  body n l = (l', Return k) ->
  exists c ob,
    messages l' = messages l ++ [AIMessage c; HumanMessage ob].
Proof.
  intros H. body_cases H; fields; do 2 eexists;
    rewrite <- app_assoc; reflexivity.
Qed.

(** A pass that raises has appended the reply at most. *)
Lemma verify_body_raise (n : nat) (l l' : locals W) (e : exn) :
  body n l = (l', Raise e) ->
  messages l' = messages l
  \/ exists c, messages l' = messages l ++ [AIMessage c].
Proof. intros H. body_cases H; fields; eauto. Qed.

End Loop.

End VerifyMore.

Module SetupMore.
Import Setup SetupFacts.

Ltac fields :=
  cbn [messages commands step sess calls ticks
       with_messages with_commands with_step with_sess with_call
       with_tick] in *.

Ltac body_cases H :=
  rewrite setup_body_eq in H; cbv zeta in H;
  repeat match type of H with
         | context [match ?x with _ => _ end] => destruct x eqn:?
         end;
  inversion H; subst; clear H.

Section Loop.

Variable W : World.
Variable P : ActionParser.

(** What the observation leaves of the session. *)
Lemma setup_observation_session (k : nat) (a : option SetupAction)
  (s : Session W) (s' : option (Session W))
  (o : outcome SetupObservation) :
  observation_for_setup_action W k (Some s) a = (s', o) ->
  s' = Some (match a with
             | Some (Command c) => fst (send_command W s c)
             | _ => s
             end).
Proof.
  unfold observation_for_setup_action. destruct a as [[c|q|]|].
  - destruct (send_command W s c) as [s1 [text|e]];
      intros [= <- _]; reflexivity.
  - destruct (search_invoke W k q); intros [= <- _]; reflexivity.
  - intros [= <- _]; reflexivity.
  - intros [= <- _]; reflexivity.
Qed.

Lemma setup_observation_no_session (k : nat) (a : option SetupAction)
  (s' : option (Session W)) (o : outcome SetupObservation) :
  observation_for_setup_action W k None a = (s', o) -> s' = None.
Proof.
  unfold observation_for_setup_action. destruct a as [[c|q|]|];
    try (intros [= <- _]; reflexivity).
  destruct (search_invoke W k q); intros [= <- _]; reflexivity.
Qed.

(** A pass leaves the session that the commands recorded so far lead to. *)
Lemma setup_body_replay (start : option Q) (n : nat) (s0 : Session W)
  (l l' : locals W) (o : outcome control) :
  body P start n l = (l', o) ->
  sess l = Some (replay W s0 (commands l)) ->
  sess l' = Some (replay W s0 (commands l')).
Proof.
  intros H Hs. rewrite setup_body_eq in H. cbv zeta in H.
  destruct start as [t0|]; [|now inversion H; subst].
  destruct (timed_out _ _); [now inversion H; subst|].
  destruct (llm_invoke W _ _) as [r|e]; [|now inversion H; subst].
  destruct (parse_setup_action P r) as [a|e]; [|now inversion H; subst].
  assert (Hsess : forall x : locals W, sess x = sess l ->
            sess (match a with
                  | Some (Command c) =>
                      with_commands (fun cs => cs ++ [c]) x
                  | _ => x
                  end) = Some (replay W s0 (commands l))).
  { intros x Hx. destruct a as [[c|q|]|]; fields; congruence. }
  rewrite Hsess in H by reflexivity.
  destruct (observation_for_setup_action W _ _ a) as [s' [ob|e]] eqn:Hob;
    apply setup_observation_session in Hob; subst s'.
  - destruct (is_stop ob); inversion H; subst;
      destruct a as [[c|q|]|]; fields; try reflexivity;
      unfold replay; now rewrite fold_left_app.
  - inversion H; subst.
    destruct a as [[c|q|]|]; fields; try reflexivity;
      unfold replay; now rewrite fold_left_app.
Qed.

(** Without a session a pass leaves none. *)
Lemma setup_body_no_session (start : option Q) (n : nat)
  (l l' : locals W) (o : outcome control) :
  body P start n l = (l', o) -> sess l = None -> sess l' = None.
Proof.
  intros H Hs. rewrite setup_body_eq in H. cbv zeta in H.
  destruct start as [t0|]; [|now inversion H; subst].
  destruct (timed_out _ _); [now inversion H; subst|].
  destruct (llm_invoke W _ _) as [r|e]; [|now inversion H; subst].
  destruct (parse_setup_action P r) as [a|e]; [|now inversion H; subst].
  assert (Hsess : forall x : locals W, sess x = sess l ->
            sess (match a with
                  | Some (Command c) =>
                      with_commands (fun cs => cs ++ [c]) x
                  | _ => x
                  end) = None).
  { intros x Hx. destruct a as [[c|q|]|]; fields; congruence. }
  rewrite Hsess in H by reflexivity.
  destruct (observation_for_setup_action W _ _ a) as [s' [ob|e]] eqn:Hob;
    apply setup_observation_no_session in Hob; subst s'.
  - destruct (is_stop ob); inversion H; subst; reflexivity.
  - inversion H; subst; reflexivity.
Qed.

(** The session is missing at the head of every pass when it is missing in
    the state. *)
Lemma setup_reaches_no_session (max_steps : Z)
  (state : AgentState (Session W)) (l : locals W) :
  session state = None -> reaches P max_steps state l -> sess l = None.
Proof.
  intros Hs. induction 1 as [|l l' Hr IH Hlt Hb]; [exact Hs|].
  eapply setup_body_no_session; eauto.
Qed.

(** A pass in which the reply is a command and there is no session. *)
Lemma setup_body_command_no_session (t0 : Q) (n : nat) (l : locals W)
  (reply c : string) :
  timed_out (time_time W (ticks l)) t0 = false ->
  llm_invoke W (List.length (calls l))
    (input_messages n (commands l) (messages l)) = Return reply ->
  parse_setup_action P reply = Return (Some (Command c)) ->
  sess l = None ->
  body P (Some t0) n l
  = (with_sess None
       (with_commands (fun cs => cs ++ [c])
          (with_messages (fun m => m ++ [AIMessage reply])
             (with_call (input_messages n (commands l) (messages l))
                (with_step (fun z => z + 1)%Z (with_tick l))))),
     Raise (AttributeError
              "'NoneType' object has no attribute 'send_command'")).
Proof.
  intros Hclock Hllm Hparse Hsess.
  rewrite setup_body_eq. cbv zeta. rewrite Hclock, Hllm, Hparse.
  cbn [observation_for_setup_action sess with_commands with_messages
       with_call with_step with_tick].
  rewrite Hsess. reflexivity.
Qed.

(** A pass that goes on has appended the reply and the observation; a pass
    that stops the loop has appended the reply. *)
Lemma setup_body_two (start : option Q) (n : nat) (l l' : locals W) :
  body P start n l = (l', Return Continue) ->
  exists r ob, messages l' = messages l ++ [AIMessage r; HumanMessage ob].
Proof.
  intros H. body_cases H; fields; do 2 eexists;
    rewrite <- app_assoc; reflexivity.
Qed.

Lemma setup_body_one (start : option Q) (n : nat) (l l' : locals W) :
  body P start n l = (l', Return Break) ->
  exists r, messages l' = messages l ++ [AIMessage r].
Proof. intros H. body_cases H; fields; eexists; reflexivity. Qed.

End Loop.

End SetupMore.

(* ================================================================== *)
(** * Histories of whole steps *)
(* ================================================================== *)

Module HistoryFacts.

Lemma exchanges_app_pair (a : list message) (r ob : string) :
  exchanges a = true ->
  exchanges (a ++ [AIMessage r;
                   HumanMessage ("Observation:" ++ nl ++ ob)]) = true.
Proof.
  assert (H : forall n (a : list message), List.length a <= n ->
              exchanges a = true ->
              exchanges (a ++ [AIMessage r;
                               HumanMessage ("Observation:" ++ nl ++ ob)])
              = true).
  { induction n as [|n IH]; intros [|x [|y rest]] Hn Ha;
      try discriminate; try reflexivity; cbn in Hn; try lia.
    - cbn [exchanges] in Ha.
      change ((x :: y :: rest) ++ [AIMessage r;
                HumanMessage ("Observation:" ++ nl ++ ob)])
        with (x :: y :: (rest ++ [AIMessage r;
                HumanMessage ("Observation:" ++ nl ++ ob)])).
      cbn [exchanges].
      destruct (msg_role x); try discriminate.
      destruct (msg_role y); try discriminate.
      apply andb_true_iff in Ha as [Hs Hrest]. rewrite Hs. cbn [andb].
      destruct n as [|n]; [lia|].
      assert (IH' : forall a0 : list message, List.length a0 <= n ->
                exchanges a0 = true ->
                exchanges (a0 ++ [AIMessage r;
                             HumanMessage ("Observation:" ++ nl ++ ob)])
                = true).
      { intros a0 H0 H1. apply IH; [lia|assumption]. }
      apply IH'; [lia|assumption]. }
  apply (H (List.length a) a). lia.
Qed.

Section Loops.

Variable W : World.
Variable P : Setup.ActionParser.

(** A pass of the setup loop that goes on has appended a reply that is no
    stop, and its observation. *)
Lemma setup_pass_goes_on (start : option Q) (n : nat)
  (l l' : Setup.locals W) :
  Setup.body P start n l = (l', Return Continue) ->
  exists r ob,
    Setup.messages l'
    = Setup.messages l
      ++ [AIMessage r; HumanMessage ("Observation:" ++ nl ++ ob)]
    /\ Setup.parse_setup_action P r <> Return (Some Setup.Stop)
    /\ Setup.step l' = (Setup.step l + 1)%Z.
Proof.
  rewrite SetupFacts.setup_body_eq. cbv zeta.
  destruct start as [t0|]; [|discriminate].
  destruct (Setup.timed_out _ _); [discriminate|].
  destruct (llm_invoke W _ _) as [r|e]; [|discriminate].
  destruct (Setup.parse_setup_action P r) as [a|e] eqn:Hp; [|discriminate].
  destruct (Setup.observation_for_setup_action W _ _ a) as [s' [ob|e]] eqn:Ho;
    [|discriminate].
  destruct (Setup.is_stop ob) eqn:Hstop; [discriminate|].
  intros [= <-]. exists r, (Setup.content ob).
  split; [|split].
  - destruct a as [[c|q|]|]; cbn; now rewrite <- app_assoc.
  - intros H. rewrite Hp in H. injection H as ->.
    cbn in Ho. injection Ho as _ <-. discriminate.
  - destruct a as [[c|q|]|]; reflexivity.
Qed.

(** A pass of the setup loop that ends it has appended a reply that is a
    stop, and nothing else. *)
Lemma setup_pass_stops (start : option Q) (n : nat)
  (l l' : Setup.locals W) :
  Setup.body P start n l = (l', Return Break) ->
  exists r,
    Setup.messages l' = Setup.messages l ++ [AIMessage r]
    /\ Setup.parse_setup_action P r = Return (Some Setup.Stop)
    /\ Setup.step l' = (Setup.step l + 1)%Z.
Proof.
  rewrite SetupFacts.setup_body_eq. cbv zeta.
  destruct start as [t0|]; [|discriminate].
  destruct (Setup.timed_out _ _); [discriminate|].
  destruct (llm_invoke W _ _) as [r|e]; [|discriminate].
  destruct (Setup.parse_setup_action P r) as [a|e] eqn:Hp; [|discriminate].
  destruct (Setup.observation_for_setup_action W _ _ a) as [s' [ob|e]] eqn:Ho;
    [|discriminate].
  destruct (Setup.is_stop ob) eqn:Hstop; [|discriminate].
  intros [= <-]. exists r.
  destruct a as [[c|q|]|]; cbn in Ho.
  - destruct (Setup.sess _) as [s0|]; [|discriminate].
    destruct (send_command W s0 c) as [s1 [t|e]]; [|discriminate].
    injection Ho as _ <-. discriminate.
  - destruct (search_invoke W _ q); [|discriminate].
    injection Ho as _ <-. discriminate.
  - split; [reflexivity|]. split; [assumption|reflexivity].
  - injection Ho as _ <-. discriminate.
Qed.

(** A pass of the verify loop that returns has appended the content of a
    reply and its observation. *)
Lemma verify_pass_appends (n : nat) (l l' : Verify.locals W) (k : control) :
  Verify.body n l = (l', Return k) ->
  exists c ob,
    Verify.messages l'
    = Verify.messages l
      ++ [AIMessage c; HumanMessage ("Observation:" ++ nl ++ ob)]
    /\ Verify.step l' = (Verify.step l + 1)%Z.
Proof.
  rewrite VerifyFacts.verify_body_eq. cbv zeta.
  destruct (llm_invoke W _ _) as [r|e]; [|discriminate].
  destruct (Verify.drop_reasoning r) as [c|e]; [|discriminate].
  destruct (Verify.parse_verify_action c) as [[a|]|e]; try discriminate.
  destruct (Verify.observation_for_verify_action W (Some a) _)
    as [s' [ob|e]]; [|destruct (Verify.action a); discriminate].
  exists c, (Verify.content ob).
  destruct (Verify.action a).
  - injection H as <- _. cbn. split; [now rewrite <- app_assoc|reflexivity].
  - destruct (String.eqb (Verify.content ob) ""); injection H as <- _; cbn;
      (split; [now rewrite <- app_assoc|reflexivity]).
Qed.

End Loops.

End HistoryFacts.

(* ================================================================== *)
(** * Further properties of the code *)
(* ================================================================== *)

Module TagFacts.
Import PyStr PyStrFacts.

(** A tag that starts with [c] and has no other [c] does not occur in
    [u ++ v] when it occurs neither in [u] nor in [v] and [v] starts with
    [c]. *)
Lemma contains_app_false (c : ascii) (t u v : string) :
  char_in c t = false ->
  contains (String c t) u = false ->
  contains (String c t) (String c v) = false ->
  contains (String c t) (u ++ String c v) = false.
Proof.
  intros Hc. induction u as [|x u IH]; intros Hu Hv; [exact Hv|].
  apply contains_cons_false in Hu as [Hx Hu'].
  change ((String x u ++ String c v)%string)
    with (String x (u ++ String c v)).
  cbn [contains]. rewrite (IH Hu' Hv), orb_false_r.
  destruct (startswith (String c t) (String x (u ++ String c v))) eqn:E;
    [|reflexivity].
  change (String x (u ++ String c v))
    with ((String x u ++ String c v)%string) in E.
  apply no_straddle in E; [congruence|assumption|easy].
Qed.

(** An issue written as a reply holds no command tag when its text holds
    none. *)
Lemma no_command_in_issue (x : string) :
  contains "<command>" x = false ->
  contains "<command>" ("<issue>" ++ x ++ "</issue>") = false.
Proof.
  intros Hx.
  change (contains "<command>" ("<issue>" ++ x ++ "</issue>"))
    with (contains "<command>" (x ++ "</issue>")).
  now apply (contains_app_false "<" "command>" x "/issue>").
Qed.

End TagFacts.

(* ================================================================== *)
(** * The choice of the base image *)
(* ================================================================== *)

Module BaseImageFacts.
Import BaseImage.

Lemma mem_In (x : string) (l : list string) : mem x l = true <-> In x l.
Proof.
  unfold mem. rewrite existsb_exists. split.
  - intros (y & Hy & He). apply String.eqb_eq in He. now subst.
  - intros H. exists x. split; [assumption|apply String.eqb_refl].
Qed.

Lemma getitem_In {A : Type} (d : list (string * A)) (k : string) (v : A) :
  getitem d k = Return v -> In (k, v) d.
Proof.
  induction d as [|[k' v'] d IH]; simpl; [discriminate|].
  destruct (String.eqb k k') eqn:He.
  - apply String.eqb_eq in He. intros [= ->]. subst. now left.
  - intros H. right. now apply IH.
Qed.

Lemma getitem_missing {A : Type} (d : list (string * A)) (k : string) :
  (forall v, ~ In (k, v) d) -> getitem d k = Raise (Foreign "KeyError" true).
Proof.
  induction d as [|[k' v'] d IH]; simpl; [reflexivity|]. intros H.
  destruct (String.eqb k k') eqn:He.
  - apply String.eqb_eq in He. subst. exfalso. apply (H v'). now left.
  - apply IH. intros v Hin. apply (H v). now right.
Qed.

(** What [judge] accepts is in the list. *)
Lemma judge_accepted (cands : list string) (c image : string) :
  judge cands c = Return (Accepted image) -> In image cands.
Proof.
  unfold judge. destruct (PyStr.contains "<image>" c); [|discriminate].
  destruct (subscript (PyStr.split "<image>" c) 1) as [after|]; [|discriminate].
  destruct (subscript (PyStr.split "</image>" after) 0) as [i|];
    [|discriminate].
  destruct (mem i cands) eqn:Hm; [|discriminate].
  intros [= <-]. now apply mem_In.
Qed.

Section Loop.

Variable W : World.
Variable cands : list string.

(** One pass through the body, case by case. *)
Lemma select_body_eq (l : locals) :
  body W cands l
  = match llm_invoke W (List.length (calls l)) (messages l) with
    | Raise e => (called l, Raise e)
    | Return reply =>
        match Verify.drop_reasoning reply with
        | Raise e => (called l, Raise e)
        | Return c =>
            match judge cands c with
            | Raise e => (called l, Raise e)
            | Return (Accepted image) =>
                (with_base_image (Some image) (called l), Return Break)
            | Return (Rejected image) =>
                (with_messages
                   (fun m => m ++ [AIMessage c; select_again image cands])
                   (called l), Return Continue)
            | Return Unwrapped =>
                (with_messages (fun m => m ++ [AIMessage c; wrap_it])
                   (called l), Return Continue)
            end
        end
    end.
Proof.
  unfold body, invoke_llm, called. unfold_monad. cbn.
  destruct (llm_invoke W (List.length (calls l)) (messages l)) as [reply|e];
    [|reflexivity].
  destruct (Verify.drop_reasoning reply) as [c|e]; [|reflexivity].
  destruct (judge cands c) as [[image|image|]|e]; reflexivity.
Qed.

Lemma at_head_entry (docs : string) : at_head docs cands (entry docs cands).
Proof. repeat split. Qed.

Lemma at_head_cond (docs : string) (l : locals) :
  at_head docs cands l -> cond l = true.
Proof. intros (Hb & _). unfold cond. now rewrite Hb. Qed.

Lemma at_head_continue (docs : string) (l l' : locals) :
  at_head docs cands l -> body W cands l = (l', Return Continue) ->
  at_head docs cands l'
  /\ List.length (calls l') = Datatypes.S (List.length (calls l)).
Proof.
  intros (Hb & Ht & Hm & Hf). rewrite select_body_eq.
  destruct (llm_invoke W (List.length (calls l)) (messages l)) as [reply|e];
    [|discriminate].
  destruct (Verify.drop_reasoning reply) as [c|e]; [|discriminate].
  assert (Hhd : forall x y,
             nth_error (messages l ++ [x; y]) 0
             = Some (first_message docs cands)).
  { intros x y. destruct (messages l); [discriminate|exact Hf]. }
  destruct (judge cands c) as [[image|image|]|e]; try discriminate;
    intros [= <-]; unfold at_head; cbn [base_image trials messages calls
      with_messages with_call with_trials with_base_image called];
    rewrite !length_app, Hm, Ht; cbn [List.length];
    (split; [split; [assumption|]|lia]);
    (split; [lia|]); (split; [lia|]); apply Hhd.
Qed.

(** A pass that ends the loop by [break] has chosen from the list, and
    leaves the messages as the oracle was given them. *)
Lemma at_head_break (docs : string) (l l' : locals) :
  at_head docs cands l -> body W cands l = (l', Return Break) ->
  exists image,
    base_image l' = Some image /\ In image cands
    /\ messages l' = messages l
    /\ calls l' = calls l ++ [messages l]
    /\ trials l' = (trials l + 1)%Z.
Proof.
  intros _. rewrite select_body_eq.
  destruct (llm_invoke W (List.length (calls l)) (messages l)) as [reply|e];
    [|discriminate].
  destruct (Verify.drop_reasoning reply) as [c|e]; [|discriminate].
  destruct (judge cands c) as [[image|image|]|e] eqn:Hj; try discriminate.
  intros [= <-]. exists image. cbn.
  split; [reflexivity|]. split; [now apply judge_accepted with (c := c)|].
  repeat split.
Qed.

(** While the oracle names nothing from the list the loop goes on. *)
Lemma select_loop_goes_on (docs : string) :
  (forall k input, exists reply c v,
      llm_invoke W k input = Return reply
      /\ Verify.drop_reasoning reply = Return c
      /\ judge cands c = Return v
      /\ forall image, v <> Accepted image) ->
  forall fuel l, at_head docs cands l -> while fuel cond (body W cands) l = None.
Proof.
  intros Hllm. induction fuel as [|fuel IH]; intros l Hl.
  - simpl. now rewrite (at_head_cond docs l Hl).
  - destruct (Hllm (List.length (calls l)) (messages l))
      as (reply & c & v & Hr & Hd & Hj & Hv).
    assert (Hb : exists l', body W cands l = (l', Return Continue)).
    { rewrite select_body_eq, Hr, Hd, Hj.
      destruct v as [image|image|]; [now destruct (Hv image)| |]; eauto. }
    destruct Hb as (l' & Hb).
    rewrite (while_unfold cond (body W cands) fuel l l'
               (at_head_cond docs l Hl) Hb).
    apply IH. exact (proj1 (at_head_continue docs l l' Hl Hb)).
Qed.

(** [k] replies that name nothing from the list, then one that does: the
    loop ends in the pass after them. *)
Lemma select_loop_after (docs : string) (k : nat) :
  forall l, at_head docs cands l ->
  (forall j input, List.length (calls l) <= j < List.length (calls l) + k ->
      exists reply c v,
        llm_invoke W j input = Return reply
        /\ Verify.drop_reasoning reply = Return c
        /\ judge cands c = Return v
        /\ forall image, v <> Accepted image) ->
  (forall input, exists reply c image,
      llm_invoke W (List.length (calls l) + k) input = Return reply
      /\ Verify.drop_reasoning reply = Return c
      /\ judge cands c = Return (Accepted image)) ->
  forall fuel, k < fuel ->
  exists l',
    while fuel cond (body W cands) l = Some (l', Return tt)
    /\ List.length (calls l') = List.length (calls l) + k + 1
    /\ List.length (messages l') = 1 + 2 * (List.length (calls l) + k)
    /\ trials l' = Z.of_nat (List.length (calls l'))
    /\ exists image, base_image l' = Some image /\ In image cands.
Proof.
  induction k as [|k IH]; intros l Hl Hrej Hacc fuel Hfuel;
    (destruct fuel as [|fuel]; [lia|]).
  - destruct (Hacc (messages l)) as (reply & c & image & Hr & Hd & Hj).
    rewrite Nat.add_0_r in Hr.
    assert (Hb : body W cands l
                 = (with_base_image (Some image) (called l), Return Break)).
    { now rewrite select_body_eq, Hr, Hd, Hj. }
    rewrite (while_break cond (body W cands) fuel l _
               (at_head_cond docs l Hl) Hb).
    eexists. split; [reflexivity|]. cbn.
    destruct Hl as (_ & Ht & Hm & _).
    rewrite length_app. cbn. split; [lia|]. split; [lia|]. split; [lia|].
    exists image. split; [reflexivity|]. now apply judge_accepted with (c := c).
  - destruct (Hrej (List.length (calls l)) (messages l))
      as (reply & c & v & Hr & Hd & Hj & Hv); [lia|].
    assert (Hb : exists l1, body W cands l = (l1, Return Continue)).
    { rewrite select_body_eq, Hr, Hd, Hj.
      destruct v as [image|image|]; [now destruct (Hv image)| |]; eauto. }
    destruct Hb as (l1 & Hb).
    destruct (at_head_continue docs l l1 Hl Hb) as (Hl1 & Hc1).
    rewrite (while_unfold cond (body W cands) fuel l l1
               (at_head_cond docs l Hl) Hb).
    destruct (IH l1 Hl1) with (fuel := fuel)
      as (l' & Hw & Hcalls & Hmsgs & Htr & Hi).
    + intros j input Hj'. apply Hrej. lia.
    + intros input. rewrite Hc1.
      replace (Datatypes.S (List.length (calls l)) + k)
        with (List.length (calls l) + Datatypes.S k) by lia.
      apply Hacc.
    + lia.
    + exists l'. split; [assumption|]. rewrite Hmsgs, Htr, Hcalls, Hc1.
      split; [lia|]. split; [lia|]. split; [reflexivity|]. assumption.
Qed.

End Loop.

End BaseImageFacts.

(* ================================================================== *)
(** * Fetching, patches and hints *)
(* ================================================================== *)

Module UtilsFacts.
Import Utils.

Lemma startswith_prefix (a b s : string) :
  PyStr.startswith (a ++ b) s = true -> PyStr.startswith a s = true.
Proof.
  revert s. induction a as [|c a IH]; intros s; [reflexivity|].
  destruct s as [|d s]; simpl; [discriminate|].
  intros H. apply andb_true_iff in H as [Hc H].
  rewrite Hc. simpl. now apply IH.
Qed.

(** A string that holds [a ++ b] holds [a]. *)
Lemma contains_prefix (a b s : string) :
  PyStr.contains (a ++ b) s = true -> PyStr.contains a s = true.
Proof.
  induction s as [|c s IH]; simpl.
  - rewrite !orb_false_r. apply startswith_prefix.
  - intros H. apply orb_true_iff in H as [H|H]; apply orb_true_iff.
    + left. now apply startswith_prefix with (b := b).
    + right. now apply IH.
Qed.

Lemma is_test_two_words (p : string) :
  is_test p = PyStr.contains "test" p || PyStr.contains "e2e" p.
Proof.
  unfold is_test, test_words. cbn [existsb]. rewrite orb_false_r.
  destruct (PyStr.contains "test" p) eqn:Ht; [reflexivity|].
  assert (H1 : PyStr.contains "tests" p = false).
  { destruct (PyStr.contains "tests" p) eqn:E; [|reflexivity].
    rewrite (contains_prefix "test" "s" p E) in Ht. discriminate. }
  assert (H2 : PyStr.contains "testing" p = false).
  { destruct (PyStr.contains "testing" p) eqn:E; [|reflexivity].
    rewrite (contains_prefix "test" "ing" p E) in Ht. discriminate. }
  rewrite H1, H2. cbn. now rewrite orb_false_r.
Qed.

Lemma sort_hunks_from (files : list PatchedFile) (a b : string) :
  fold_left
    (fun acc hunk =>
       if is_test (path hunk)
       then (fst acc, (snd acc ++ diff hunk)%string)
       else ((fst acc ++ diff hunk)%string, snd acc))
    files (a, b)
  = ((a ++ concat_str
            (map diff (filter (fun h => negb (is_test (path h))) files)))%string,
     (b ++ concat_str
            (map diff (filter (fun h => is_test (path h)) files)))%string).
Proof.
  revert a b. induction files as [|h files IH]; intros a b; simpl.
  - now rewrite !PyStrFacts.append_nil_r.
  - destruct (is_test (path h)); simpl; rewrite IH; simpl;
      now rewrite PyStrFacts.append_assoc.
Qed.

Lemma fold_append {A B : Type} (f : A -> B) (l : list A) (acc : list B) :
  fold_left (fun urls x => urls ++ [f x]) l acc = acc ++ map f l.
Proof.
  revert acc. induction l as [|x l IH]; intros acc; simpl.
  - now rewrite app_nil_r.
  - rewrite IH, <- app_assoc. reflexivity.
Qed.

(** The loop over the comments, when every [updatedAt] can be read. *)
Lemma sift_from (mktime : string -> outcome Q) (commit_time : Q)
  (l a b : list Comment) :
  (forall c, In c l -> exists t, mktime (updatedAt c) = Return t) ->
  fold_left (sift mktime commit_time) l (Return (a, b))
  = Return (a ++ filter (is_hint mktime commit_time) l, b ++ l).
Proof.
  revert a b. induction l as [|x l IH]; intros a b Hread; simpl.
  - now rewrite !app_nil_r.
  - destruct (Hread x (or_introl eq_refl)) as (t & Ht).
    unfold is_hint at 1. rewrite Ht.
    rewrite IH by (intros c Hc; apply Hread; now right).
    destruct (before t commit_time); simpl; now rewrite <- !app_assoc.
Qed.

(** [_extract_hints] in closed form, for dates that can be read; the
    assertion of line 102 holds. *)
Lemma extract_hints_eq (timestamp mktime : string -> outcome Q)
  (pull : Pull) (repo : Repo) (issue : Issue) :
  match get_pull_commits repo (pull_number pull) with
  | [] => True
  | first :: _ =>
      (exists commit_time, timestamp (date first) = Return commit_time)
      /\ forall comment,
          In comment (get_issue_comments repo (number issue)) ->
          exists t, mktime (updatedAt comment) = Return t
  end ->
  _extract_hints timestamp mktime pull repo (number issue)
  = Return (fst (hints_of timestamp mktime pull repo issue),
            snd (hints_of timestamp mktime pull repo issue),
            map commit_url (get_pull_commits repo (pull_number pull))).
Proof.
  unfold _extract_hints, hints_of.
  destruct (get_pull_commits repo (pull_number pull)) as [|first rest] eqn:Hc;
    [reflexivity|].
  intros ((t0 & Ht0) & Hread). rewrite Ht0.
  rewrite (sift_from mktime t0 _ [] [] Hread), fold_append.
  rewrite !app_nil_l.
  pose proof (filter_length_le (is_hint mktime t0)
                (get_issue_comments repo (number issue))) as Hle.
  apply Nat.leb_le in Hle. rewrite Hle. reflexivity.
Qed.

Section Get.

Variable R : Type.
Variable requests_get : nat -> string -> fetched R.
Variable url : string.
Variable max_retries : Z.

Lemma get_head_entry : at_head requests_get url max_retries (entry R).
Proof.
  unfold at_head, entry. cbn. repeat split; auto. intros j Hj. lia.
Qed.

Lemma get_head_continue (l l' : locals R) :
  at_head requests_get url max_retries l ->
  body requests_get url max_retries l = (l', Return Continue) ->
  at_head requests_get url max_retries l'.
Proof.
  intros (Ha & Hb & Hr & Hq & Hs & Hf). unfold body.
  destruct (requests_get (List.length (requests l)) url) eqn:Hg;
    try discriminate.
  destruct (attempt l <? max_retries - 1)%Z eqn:Hlt; [|discriminate].
  apply Z.ltb_lt in Hlt. intros [= <-]. unfold at_head. cbn.
  rewrite length_app. cbn [List.length].
  replace (List.length (requests l) + 1) with
    (Datatypes.S (List.length (requests l))) by lia.
  split; [lia|]. split; [right; lia|]. split; [assumption|].
  split; [|split].
  - rewrite Hq at 1. now rewrite <- repeat_cons.
  - rewrite Hs. now rewrite <- repeat_cons.
  - intros j Hj. destruct (Nat.eq_dec j (List.length (requests l))) as [->|];
      [assumption|apply Hf; lia].
Qed.

Lemma get_head_end (l l' : locals R) (o : outcome control) :
  at_head requests_get url max_retries l ->
  (attempt l <? max_retries)%Z = true ->
  body requests_get url max_retries l = (l', o) ->
  o <> Return Continue ->
  ended requests_get url max_retries l'
    match o with
    | Return _ => Return (returned l')
    | Raise e => Raise e
    end.
Proof.
  intros (Ha & Hb & Hr & Hq & Hs & Hf) Hc. apply Z.ltb_lt in Hc.
  unfold body. intros Hbody Ho.
  exists (List.length (requests l)).
  assert (Hreq : requests l ++ [url]
                 = repeat url (Datatypes.S (List.length (requests l)))).
  { rewrite Hq at 1. now rewrite <- repeat_cons. }
  destruct (requests_get (List.length (requests l)) url) eqn:Hg.
  - injection Hbody as <- <-. cbn. rewrite length_app. cbn [List.length].
    repeat split; try assumption; lia.
  - injection Hbody as <- <-. cbn. rewrite length_app. cbn [List.length].
    repeat split; try assumption; lia.
  - destruct (attempt l <? max_retries - 1)%Z eqn:Hlt.
    + injection Hbody as <- <-. now destruct Ho.
    + apply Z.ltb_ge in Hlt.
      injection Hbody as <- <-. cbn. rewrite length_app. cbn [List.length].
      repeat split; try assumption; lia.
  - injection Hbody as <- <-. cbn. rewrite length_app. cbn [List.length].
    repeat split; try assumption; lia.
Qed.

Lemma get_total :
  exists r,
    while (Z.to_nat max_retries) (fun l => (attempt l <? max_retries)%Z)
      (body requests_get url max_retries) (entry R) = Some r.
Proof.
  apply (while_total (fun l : locals R => (attempt l <? max_retries)%Z)
           (body requests_get url max_retries)
           (fun l => Z.to_nat (max_retries - attempt l))).
  - intros s Hs. apply Z.ltb_lt in Hs. lia.
  - intros s s' Hs. apply Z.ltb_lt in Hs. unfold body.
    destruct (requests_get (List.length (requests s)) url);
      try discriminate.
    destruct (attempt s <? max_retries - 1)%Z eqn:Hlt; [|discriminate].
    intros [= <-]. cbn. lia.
  - cbn. lia.
Qed.

(** The call returns, and what it has done is this. *)
Lemma get_spec :
  exists l o,
    wrapped_requests_get requests_get url max_retries = Some (l, o)
    /\ ((max_retries <= 0)%Z /\ l = entry R /\ o = Return None
        \/ ended requests_get url max_retries l o).
Proof.
  unfold wrapped_requests_get.
  destruct get_total as [[l o] Hw]. rewrite Hw.
  exists l, match o with Return _ => Return (returned l) | Raise e => Raise e end.
  split; [destruct o; reflexivity|].
  refine (while_rule (fun l : locals R => (attempt l <? max_retries)%Z)
            (body requests_get url max_retries)
            (at_head requests_get url max_retries)
            (fun l o =>
               (max_retries <= 0)%Z /\ l = entry R
               /\ match o with
                  | Return _ => Return (returned l)
                  | Raise e => Raise e
                  end = Return None
               \/ ended requests_get url max_retries l
                    match o with
                    | Return _ => Return (returned l)
                    | Raise e => Raise e
                    end)
            _ _ _ _ (Z.to_nat max_retries) (entry R) l o get_head_entry Hw).
  - intros s (Ha & Hb & Hr & Hq & Hs & Hf) Hc. apply Z.ltb_ge in Hc.
    left. destruct Hb as [Hb|Hb]; [|lia].
    rewrite Hb in *. cbn in *. split; [lia|]. split; [|now rewrite Hr].
    destruct s. cbn in *. unfold entry. congruence.
  - intros s s' Hs _ Hb. now apply get_head_continue with (l := s).
  - intros s s' Hs Hc Hb. right.
    apply (get_head_end s s' (Return Break) Hs Hc Hb). discriminate.
  - intros s s' e Hs Hc Hb. right.
    apply (get_head_end s s' (Raise e) Hs Hc Hb). discriminate.
Qed.

End Get.

(** The loop over the resolved issues when none of them is found. *)
Lemma gather_none (timestamp mktime : string -> outcome Q)
  (pull : Pull) (repo : Repo) (issues : list Z) (g : gathered) :
  flat_map (fun issue_number =>
              match get_issue repo issue_number with
              | Some issue => [issue]
              | None => []
              end) issues = [] ->
  fold_left (gather timestamp mktime pull repo) issues (Return g) = Return g.
Proof.
  induction issues as [|i issues IH]; [reflexivity|].
  cbn [flat_map fold_left]. unfold gather at 2.
  destruct (get_issue repo i) as [issue|]; [discriminate|].
  intros H. now apply IH.
Qed.

(** The loop over the resolved issues, from any values of the variables,
    for dates that can be read. *)
Lemma gather_from (timestamp mktime : string -> outcome Q)
  (pull : Pull) (repo : Repo) (issues : list Z) (g : gathered) :
  let fs := flat_map (fun issue_number =>
                        match get_issue repo issue_number with
                        | Some issue => [issue]
                        | None => []
                        end) issues in
  match get_pull_commits repo (pull_number pull) with
  | [] => True
  | first :: _ =>
      (exists commit_time, timestamp (date first) = Return commit_time)
      /\ forall issue comment,
          In issue fs ->
          In comment (get_issue_comments repo (number issue)) ->
          exists t, mktime (updatedAt comment) = Return t
  end ->
  fold_left (gather timestamp mktime pull repo) issues (Return g)
  = Return
      {| problem_text :=
           problem_text g
           ++ concat_str
                (map (fun i => or_empty (title i) ++ nl
                               ++ or_empty (body_text i) ++ nl) fs);
         hint_text :=
           hint_text g
           ++ concat_str
                (map (fun i => fst (hints_of timestamp mktime pull repo i)
                               ++ nl ++ nl) fs);
         all_hint_text :=
           all_hint_text g
           ++ concat_str
                (map (fun i => snd (hints_of timestamp mktime pull repo i)
                               ++ nl ++ nl) fs);
         commit_urls :=
           match fs with
           | [] => commit_urls g
           | _ :: _ =>
               Some (map commit_url (get_pull_commits repo (pull_number pull)))
           end |}%string.
Proof.
  revert g. induction issues as [|i issues IH]; intros g; cbn zeta.
  - intros _. cbn. rewrite !PyStrFacts.append_nil_r. now destruct g.
  - cbn [fold_left flat_map]. unfold gather at 2.
    destruct (get_issue repo i) as [issue|] eqn:Hi.
    + intros Hread.
      assert (Hhere :
                match get_pull_commits repo (pull_number pull) with
                | [] => True
                | first :: _ =>
                    (exists commit_time,
                        timestamp (date first) = Return commit_time)
                    /\ forall comment,
                        In comment (get_issue_comments repo (number issue)) ->
                        exists t, mktime (updatedAt comment) = Return t
                end).
      { destruct (get_pull_commits repo (pull_number pull)); [exact I|].
        destruct Hread as (H0 & H1). split; [assumption|].
        intros cm Hcm. apply (H1 issue cm); [now left|assumption]. }
      assert (Hrest :
                match get_pull_commits repo (pull_number pull) with
                | [] => True
                | first :: _ =>
                    (exists commit_time,
                        timestamp (date first) = Return commit_time)
                    /\ forall issue0 comment,
                        In issue0
                          (flat_map
                             (fun issue_number =>
                                match get_issue repo issue_number with
                                | Some issue1 => [issue1]
                                | None => []
                                end) issues) ->
                        In comment (get_issue_comments repo (number issue0)) ->
                        exists t, mktime (updatedAt comment) = Return t
                end).
      { destruct (get_pull_commits repo (pull_number pull)); [exact I|].
        destruct Hread as (H0 & H1). split; [assumption|].
        intros i0 cm Hi0 Hcm. apply (H1 i0 cm); [now right|assumption]. }
      rewrite (extract_hints_eq timestamp mktime pull repo issue Hhere).
      rewrite (IH _ Hrest). cbn zeta. unfold concat_str.
      change ([issue] ++ flat_map ?f issues) with (issue :: flat_map f issues).
      cbn [app map fold_right
        problem_text hint_text all_hint_text commit_urls].
      f_equal. f_equal.
      * now rewrite !PyStrFacts.append_assoc.
      * now rewrite !PyStrFacts.append_assoc.
      * now rewrite !PyStrFacts.append_assoc.
      * now destruct (flat_map _ issues).
    + intros Hread. rewrite app_nil_l in Hread. rewrite (IH _ Hread).
      reflexivity.
Qed.

End UtilsFacts.

(* ================================================================== *)
(** * The numbering of the logs *)
(* ================================================================== *)

Module LoggingFacts.
Import Logging.

Lemma stem_eq (f : string) : stem f = Return (stem_of f).
Proof.
  unfold stem, stem_of. rewrite PyStrFacts.split_head by discriminate.
  reflexivity.
Qed.

(** The digits of a number written out are decimal digits. *)
Lemma digits_of_uint (d : Decimal.uint) :
  all_chars isdigit_char (NilEmpty.string_of_uint d) = true.
Proof. induction d; simpl; try assumption; reflexivity. Qed.

Lemma string_of_uint_empty (d : Decimal.uint) :
  NilEmpty.string_of_uint d = "" -> d = Decimal.Nil.
Proof. destruct d; simpl; intros H; [reflexivity|discriminate..]. Qed.

Lemma to_uint_nonnil (n : N) : N.to_uint n <> Decimal.Nil.
Proof.
  destruct n as [|p]; simpl; [discriminate|].
  apply DecimalPos.Unsigned.to_uint_nonnil.
Qed.

Lemma str_nonempty (n : N) : str n <> "".
Proof.
  unfold str. intros H. apply string_of_uint_empty in H.
  now apply to_uint_nonnil in H.
Qed.

Lemma isdigit_str (n : N) : isdigit (str n) = true.
Proof.
  pose proof (str_nonempty n) as Hne. unfold isdigit.
  destruct (str n) as [|c r] eqn:E; [contradiction|].
  rewrite <- E. apply digits_of_uint.
Qed.

Lemma int_str (n : N) : int (str n) = Return n.
Proof.
  pose proof (str_nonempty n) as Hne. unfold int.
  destruct (str n) as [|c r] eqn:E; [contradiction|].
  rewrite <- E. unfold str. rewrite NilEmpty.usu.
  now rewrite DecimalN.Unsigned.of_to.
Qed.

(** A string of digits holds no dot. *)
Lemma digits_hold_no_dot (s : string) :
  all_chars isdigit_char s = true -> PyStr.contains "." s = false.
Proof.
  induction s as [|c s IH]; [reflexivity|].
  cbn [all_chars PyStr.contains PyStr.startswith].
  intros H. apply andb_true_iff in H as [Hc Hs].
  rewrite (IH Hs), orb_false_r.
  destruct (Ascii.eqb_spec "."%char c) as [<-|]; [discriminate|reflexivity].
Qed.

(** The stem of the name of a log is its number. *)
Lemma stem_of_log (n : N) : stem_of (str n ++ ".md") = str n.
Proof.
  unfold stem_of. change ".md" with ("." ++ "md")%string.
  rewrite (PyStrFacts.partition_first "." (str n) "md");
    [reflexivity|reflexivity|].
  apply digits_hold_no_dot. unfold str. apply digits_of_uint.
Qed.

(** [existing_files] is a filter. *)
Lemma existing_files_eq (names : list string) :
  existing_files names
  = Return (filter (fun f => isdigit (stem_of f)) names).
Proof.
  induction names as [|f names IH]; [reflexivity|].
  simpl. rewrite stem_eq, IH. now destruct (isdigit (stem_of f)).
Qed.


(** The numbers read are those of the files, one each. *)
Lemma existing_numbers_in (files : list string) (ns : list N) (f : string) :
  existing_numbers files = Return ns -> In f files ->
  exists n, int (stem_of f) = Return n /\ In n ns.
Proof.
  revert ns. induction files as [|x files IH]; intros ns; simpl; [easy|].
  rewrite stem_eq. destruct (int (stem_of x)) as [n|e] eqn:Hn; [|discriminate].
  destruct (existing_numbers files) as [ms|e]; [|discriminate].
  intros [= <-] [->|Hin].
  - exists n. split; [assumption|now left].
  - destruct (IH ms eq_refl Hin) as (k & Hk & Hin'). exists k.
    split; [assumption|now right].
Qed.

(** A file whose number cannot be read stops the reading. *)
Lemma existing_numbers_raise (files : list string) (f : string) :
  In f files ->
  int (stem_of f) = Raise (Foreign "ValueError" true) ->
  existing_numbers files = Raise (Foreign "ValueError" true).
Proof.
  induction files as [|x files IH]; simpl; [easy|].
  rewrite stem_eq. intros [->|Hin] Hf.
  - now rewrite Hf.
  - destruct (int (stem_of x)) as [n|e] eqn:Hn.
    + now rewrite (IH Hin Hf).
    + unfold int in Hn. destruct (stem_of x); [congruence|].
      destruct (NilEmpty.uint_of_string _); congruence.
Qed.

Lemma max_of_le (n : N) (ns : list N) : (n <= max_of n ns)%N.
Proof.
  unfold max_of. revert n. induction ns as [|m ns IH]; intros n; simpl.
  - lia.
  - specialize (IH (N.max n m)). lia.
Qed.

Lemma max_of_in (n : N) (ns : list N) (k : N) :
  In k ns -> (k <= max_of n ns)%N.
Proof.
  unfold max_of. revert n. induction ns as [|m ns IH]; intros n; simpl;
    [easy|].
  intros [->|Hin]; [|now apply IH].
  pose proof (max_of_le (N.max n k) ns) as H. unfold max_of in H. lia.
Qed.


(** Every number read is below the next number. *)
Lemma next_number_above (ns : list N) (k : N) :
  In k ns -> (k < next_number ns)%N.
Proof.
  destruct ns as [|n ns]; [easy|]. simpl.
  intros [->|Hin].
  - pose proof (max_of_le k ns). lia.
  - pose proof (max_of_in n ns k Hin). lia.
Qed.


(** A name that is not in the folder is written as a new file, behind the
    others. *)
Lemma write_new (name text : string) (d : folder) :
  ~ In name (map fst d) -> write name text d = d ++ [(name, text)].
Proof.
  induction d as [|[n t] d IH]; simpl; [reflexivity|].
  intros H. destruct (String.eqb_spec n name) as [->|_].
  - exfalso. apply H. now left.
  - f_equal. apply IH. intros Hin. apply H. now right.
Qed.

(** The name of the log of a call is the name of no file in the folder. *)
Lemma log_file_fresh (names : list string) (p : string) :
  log_file names = Return p ->
  exists n, p = (str n ++ ".md")%string /\ ~ In p names.
Proof.
  unfold log_file. rewrite existing_files_eq.
  destruct (existing_numbers _) as [ns|e] eqn:Hns; [|discriminate].
  intros [= <-]. exists (next_number ns). split; [reflexivity|].
  intros Hin.
  assert (Hf : In (str (next_number ns) ++ ".md")%string
                 (filter (fun f => isdigit (stem_of f)) names)).
  { apply filter_In. split; [assumption|].
    rewrite stem_of_log. apply isdigit_str. }
  destruct (existing_numbers_in _ _ _ Hns Hf) as (k & Hk & Hkin).
  rewrite stem_of_log, int_str in Hk. injection Hk as <-.
  pose proof (next_number_above ns _ Hkin). lia.
Qed.


End LoggingFacts.

(* ================================================================== *)
(** * The merge by classification *)
(* ================================================================== *)

Module MergeFacts.
Import Merge.

Section Merge.

Variable json_loads : string -> outcome json.

Variable open_w : string -> option exn.

(** Lines after lines. *)
Lemma merge_lines_app (a b : list string) (o : outputs) :
  merge_lines json_loads o (a ++ b)
  = match merge_lines json_loads o a with
    | (o', Return _) => merge_lines json_loads o' b
    | (o', Raise e) => (o', Raise e)
    end.
Proof.
  revert o. induction a as [|x a IHa]; intros o; [reflexivity|].
  rewrite <- app_comm_cons. cbn [merge_lines].
  destruct (merge_line json_loads o x) as [o1 [u|e]]; [apply IHa|reflexivity].
Qed.

(** The loop over files that are no outputs and are read to their end is
    the loop over their lines, one file after the other. *)
Lemma merge_files_plain (sf ef : string) (files : list jsonl_file)
  (o : outputs) :
  Forall (plain sf ef) files ->
  merge_files json_loads sf ef o files
  = Some (merge_lines json_loads o (all_lines files)).
Proof.
  revert o. induction files as [|f files IH]; intros o Hplain;
    [reflexivity|].
  inversion Hplain as [|f' fs' (Hs & He & ls & Hls) Hrest]; subst.
  cbn [merge_files]. unfold read_input, all_lines. cbn [flat_map].
  destruct (String.eqb_spec (path f) sf) as [E|_]; [contradiction|].
  destruct (String.eqb_spec (path f) ef) as [E|_]; [contradiction|].
  rewrite Hls. cbn [lines failure]. rewrite merge_lines_app.
  destruct (merge_lines json_loads o ls) as [o' [u|e]]; [|reflexivity].
  apply (IH o' Hrest).
Qed.

(** A line that passes is written to the output of its classification, or
    nowhere. *)
Lemma merge_line_passes (o : outputs) (raw : string) :
  passes json_loads raw = true ->
  merge_line json_loads o raw
  = ({| sec_outf := sec_outf o ++ written json_loads "Security" [raw];
        eff_outf := eff_outf o ++ written json_loads "Efficiency" [raw] |},
     Return tt).
Proof.
  unfold passes, merge_line, written, classified. cbn [filter].
  destruct (String.eqb (PyStr.strip raw) "") eqn:Hblank.
  - intros _. cbn. rewrite !app_nil_r. now destruct o.
  - cbn [orb negb andb].
    destruct (json_loads (PyStr.strip raw)) as [[items|]|e];
      try discriminate.
    + intros _.
      destruct (get items "classification" (VString "NA")) as [c|];
        try (cbn; rewrite !app_nil_r; now destruct o).
      destruct (String.eqb c "Security") eqn:Hs.
      * apply String.eqb_eq in Hs. subst c. cbn. rewrite app_nil_r.
        reflexivity.
      * destruct (String.eqb c "Efficiency") eqn:He.
        -- cbn. rewrite app_nil_r. reflexivity.
        -- cbn. rewrite !app_nil_r. now destruct o.
    + intros ->. cbn. rewrite !app_nil_r. now destruct o.
Qed.

Lemma written_cons (c raw : string) (lines : list string) :
  written json_loads c (raw :: lines)
  = written json_loads c [raw] ++ written json_loads c lines.
Proof.
  unfold written. cbn [filter].
  destruct (classified json_loads c raw); reflexivity.
Qed.

(** Lines that all pass. *)
Lemma merge_lines_pass (lines : list string) (o : outputs) :
  forallb (passes json_loads) lines = true ->
  merge_lines json_loads o lines
  = ({| sec_outf := sec_outf o ++ written json_loads "Security" lines;
        eff_outf := eff_outf o ++ written json_loads "Efficiency" lines |},
     Return tt).
Proof.
  revert o. induction lines as [|raw lines IH]; intros o.
  - intros _. cbn. rewrite !app_nil_r. now destruct o.
  - cbn [forallb merge_lines]. intros H. apply andb_true_iff in H as [Hp Hl].
    rewrite (merge_line_passes o raw Hp), (IH _ Hl).
    cbn [sec_outf eff_outf].
    rewrite (written_cons "Security" raw lines),
      (written_cons "Efficiency" raw lines).
    now rewrite !app_assoc.
Qed.

(** Lines that pass, then a line that is JSON and no object. *)
Lemma merge_lines_abort (pre post : list string) (bad : string)
  (o : outputs) :
  forallb (passes json_loads) pre = true ->
  passes json_loads bad = false ->
  exists e,
    merge_lines json_loads o (pre ++ bad :: post)
    = ({| sec_outf := sec_outf o ++ written json_loads "Security" pre;
          eff_outf := eff_outf o ++ written json_loads "Efficiency" pre |},
       Raise e)
    /\ (derives_Exception e = false ->
        json_loads (PyStr.strip bad) = Raise e).
Proof.
  revert o. induction pre as [|raw pre IH]; intros o.
  - intros _ Hbad. rewrite app_nil_l. cbn [merge_lines].
    unfold passes in Hbad. unfold merge_line.
    destruct (String.eqb (PyStr.strip bad) ""); [discriminate|].
    cbn [orb] in Hbad.
    destruct (json_loads (PyStr.strip bad)) as [[items|]|e];
      try discriminate.
    + exists (AttributeError "object has no attribute 'get'").
      split; [|cbn; discriminate].
      cbn. rewrite !app_nil_r. now destruct o.
    + rewrite Hbad. exists e. split; [|reflexivity].
      cbn. rewrite !app_nil_r. now destruct o.
  - rewrite <- app_comm_cons. cbn [forallb merge_lines]. intros H Hbad.
    apply andb_true_iff in H as [Hp Hl].
    rewrite (merge_line_passes o raw Hp).
    destruct (IH {| sec_outf := sec_outf o ++ written json_loads "Security" [raw];
                    eff_outf := eff_outf o
                                ++ written json_loads "Efficiency" [raw] |}
                Hl Hbad) as (e & He & Hder).
    exists e. rewrite He. cbn [sec_outf eff_outf]. split; [|assumption].
    rewrite (written_cons "Security" raw pre),
      (written_cons "Efficiency" raw pre).
    now rewrite !app_assoc.
Qed.

End Merge.

End MergeFacts.

Section Extras.

(** X1.  What [setup] and [verify] return as [messages] is the prefix the
    loop started from followed by what they return as [setup_messages] or
    [verify_messages]: nothing of the prefix is lost or changed.  The part
    behind the prefix is made of whole steps, a reply and the message with
    its observation for every step counted.  The one exception is the last
    step of [setup] when, and only when, the loop ended on a stop: that
    step has left its reply alone, the reply parses as the stop, and no
    reply before it does.  Without a stop the budget of steps is used up. *)
Theorem returned_history_extends_prefix
  (W : World) (P : Setup.ActionParser) (N : Z)
  (state : AgentState (Session W)) :
  (forall l r,
      Setup.setup W P N state = Some (l, Return (Update r)) ->
      Setup.r_messages r
      = Setup.prefix W state ++ Setup.r_setup_messages r
      /\ exists whole,
          exchanges whole = true
          /\ (forall x, In (AIMessage x) whole ->
                        Setup.parse_setup_action P x
                        <> Return (Some Setup.Stop))
          /\ ((Setup.r_setup_messages r = whole
               /\ Z.of_nat (List.length whole) = (2 * Setup.step l)%Z
               /\ (N <= Setup.step l)%Z)
              \/ exists reply,
                  Setup.r_setup_messages r = whole ++ [AIMessage reply]
                  /\ Setup.parse_setup_action P reply
                     = Return (Some Setup.Stop)
                  /\ Z.of_nat (List.length whole)
                     = (2 * Setup.step l - 2)%Z))
  /\ (forall l r,
         Verify.verify W N state = Some (l, Return (Update r)) ->
         Verify.r_messages r
         = Verify.prefix W state ++ Verify.r_verify_messages r
         /\ exchanges (Verify.r_verify_messages r) = true
         /\ (Z.of_nat (List.length (Verify.r_verify_messages r))
             = 2 * Verify.step l)%Z).
Proof.
  split.
  - intros l r Hrun. unfold Setup.setup, Setup.setup_call in Hrun.
    cbv zeta in Hrun.
    remember (List.length (Setup.prefix W state)) as n eqn:Hn.
    destruct (while _ _ _ _) as [[l1 [[]|e]]|] eqn:Hw;
      cbn [auto_catch] in Hrun;
      [|destruct (derives_Exception e); discriminate|discriminate].
    injection Hrun as <- <-.
    cbn [Setup.r_messages Setup.r_setup_messages].
    assert (H : exists rest whole,
               Setup.messages l1 = Setup.prefix W state ++ rest
               /\ exchanges whole = true
               /\ (forall x, In (AIMessage x) whole ->
                             Setup.parse_setup_action P x
                             <> Return (Some Setup.Stop))
               /\ ((rest = whole
                    /\ Z.of_nat (List.length whole) = (2 * Setup.step l1)%Z
                    /\ (N <= Setup.step l1)%Z)
                   \/ exists reply,
                       rest = whole ++ [AIMessage reply]
                       /\ Setup.parse_setup_action P reply
                          = Return (Some Setup.Stop)
                       /\ Z.of_nat (List.length whole)
                          = (2 * Setup.step l1 - 2)%Z)).
    { refine (while_rule _ _
                (fun l : Setup.locals W =>
                   exists whole,
                     Setup.messages l = Setup.prefix W state ++ whole
                     /\ exchanges whole = true
                     /\ (forall x, In (AIMessage x) whole ->
                                   Setup.parse_setup_action P x
                                   <> Return (Some Setup.Stop))
                     /\ (Z.of_nat (List.length whole) = 2 * Setup.step l)%Z)
                (fun (l : Setup.locals W) o =>
                   o = Return tt ->
                   exists rest whole,
                     Setup.messages l = Setup.prefix W state ++ rest
                     /\ exchanges whole = true
                     /\ (forall x, In (AIMessage x) whole ->
                                   Setup.parse_setup_action P x
                                   <> Return (Some Setup.Stop))
                     /\ ((rest = whole
                          /\ Z.of_nat (List.length whole)
                             = (2 * Setup.step l)%Z
                          /\ (N <= Setup.step l)%Z)
                         \/ exists reply,
                             rest = whole ++ [AIMessage reply]
                             /\ Setup.parse_setup_action P reply
                                = Return (Some Setup.Stop)
                             /\ Z.of_nat (List.length whole)
                                = (2 * Setup.step l - 2)%Z))
                _ _ _ _ _ _ _ _ _ Hw eq_refl).
      - intros s (whole & Hm & Hex & Hno & Hlen) Hc _.
        apply Z.ltb_ge in Hc. exists whole, whole.
        split; [assumption|]. split; [assumption|]. split; [assumption|].
        left. split; [reflexivity|]. split; assumption.
      - intros s s' (whole & Hm & Hex & Hno & Hlen) _ Hb.
        destruct (HistoryFacts.setup_pass_goes_on W P _ _ _ _ Hb)
          as (x & ob & Hx & Hnot & Hst).
        exists (whole ++ [AIMessage x;
                          HumanMessage ("Observation:" ++ nl ++ ob)]).
        split; [now rewrite Hx, Hm, app_assoc|].
        split; [now apply HistoryFacts.exchanges_app_pair|].
        split.
        + intros y Hy. apply in_app_or in Hy as [Hy|[Hy|[Hy|[]]]].
          * now apply Hno.
          * injection Hy as <-. assumption.
          * discriminate.
        + rewrite length_app. cbn [List.length]. lia.
      - intros s s' (whole & Hm & Hex & Hno & Hlen) _ Hb _.
        destruct (HistoryFacts.setup_pass_stops W P _ _ _ _ Hb)
          as (x & Hx & Hstop & Hst).
        exists (whole ++ [AIMessage x]), whole.
        split; [now rewrite Hx, Hm, app_assoc|].
        split; [assumption|]. split; [assumption|].
        right. exists x. split; [reflexivity|]. split; [assumption|lia].
      - intros s s' e _ _ _ He. discriminate.
      - exists []. cbn [Setup.entry Setup.messages Setup.step List.length].
        split; [now rewrite app_nil_r|]. split; [reflexivity|].
        split; [intros x []|reflexivity]. }
    destruct H as (rest & whole & Hm & Hex & Hno & Hend). rewrite Hm, Hn.
    rewrite WindowFacts.skipn_prefix. split; [reflexivity|].
    exists whole. auto.
  - intros l r Hrun. unfold Verify.verify, Verify.verify_call in Hrun.
    destruct (exception state) as [e0|].
    { cbn [auto_catch] in Hrun.
      destruct (derives_Exception e0); discriminate. }
    destruct (while _ _ _ _) as [[l1 [[]|e]]|] eqn:Hw;
      cbn [auto_catch] in Hrun;
      [|destruct (derives_Exception e); discriminate|discriminate].
    injection Hrun as <- <-.
    cbn [Verify.r_messages Verify.r_verify_messages].
    assert (H : exists rest,
               Verify.messages l1 = Verify.prefix W state ++ rest
               /\ exchanges rest = true
               /\ (Z.of_nat (List.length rest) = 2 * Verify.step l1)%Z).
    { refine (while_rule _ _
                (fun l : Verify.locals W =>
                   exists rest,
                     Verify.messages l = Verify.prefix W state ++ rest
                     /\ exchanges rest = true
                     /\ (Z.of_nat (List.length rest) = 2 * Verify.step l)%Z)
                (fun (l : Verify.locals W) o =>
                   o = Return tt ->
                   exists rest,
                     Verify.messages l = Verify.prefix W state ++ rest
                     /\ exchanges rest = true
                     /\ (Z.of_nat (List.length rest)
                         = 2 * Verify.step l)%Z)
                _ _ _ _ _ _ _ _ _ Hw eq_refl).
      - intros s HI _ _. exact HI.
      - intros s s' (rest & Hm & Hex & Hlen) _ Hb.
        destruct (HistoryFacts.verify_pass_appends W _ _ _ _ Hb)
          as (x & ob & Hx & Hst).
        exists (rest ++ [AIMessage x;
                         HumanMessage ("Observation:" ++ nl ++ ob)]).
        split; [now rewrite Hx, Hm, app_assoc|].
        split; [now apply HistoryFacts.exchanges_app_pair|].
        rewrite length_app. cbn [List.length]. lia.
      - intros s s' (rest & Hm & Hex & Hlen) _ Hb _.
        destruct (HistoryFacts.verify_pass_appends W _ _ _ _ Hb)
          as (x & ob & Hx & Hst).
        exists (rest ++ [AIMessage x;
                         HumanMessage ("Observation:" ++ nl ++ ob)]).
        split; [now rewrite Hx, Hm, app_assoc|].
        split; [now apply HistoryFacts.exchanges_app_pair|].
        rewrite length_app. cbn [List.length]. lia.
      - intros s s' e _ _ _ He. discriminate.
      - exists []. cbn [Verify.entry Verify.messages Verify.step List.length].
        split; [now rewrite app_nil_r|]. split; reflexivity. }
    destruct H as (rest & Hm & Hex & Hlen). rewrite Hm.
    unfold Verify.prefix. cbn [app skipn List.length]. auto.
Qed.

(** Runs for X1: a setup loop that stops on its third step, and a verify
    loop that reports an issue on its first. *)
Lemma returned_history_extends_prefix_witness :
  (exists l r,
      Setup.setup
        (scripted (fun k => if k <? 2 then Return "<command>ls</command>"
                            else Return "<stop></stop>") noon)
        Setup.spec_parser 9 (state_with None)
      = Some (l, Return (Update r))
      /\ Setup.step l = 3%Z
      /\ Setup.r_messages r
         = Setup.prefix
             (scripted (fun k => if k <? 2 then Return "<command>ls</command>"
                                 else Return "<stop></stop>") noon)
             (state_with None)
           ++ Setup.r_setup_messages r
      /\ exists whole,
          exchanges whole = true
          /\ (forall x, In (AIMessage x) whole ->
                        Setup.parse_setup_action Setup.spec_parser x
                        <> Return (Some Setup.Stop))
          /\ ((Setup.r_setup_messages r = whole
               /\ Z.of_nat (List.length whole) = (2 * Setup.step l)%Z
               /\ (9 <= Setup.step l)%Z)
              \/ exists reply,
                  Setup.r_setup_messages r = whole ++ [AIMessage reply]
                  /\ Setup.parse_setup_action Setup.spec_parser reply
                     = Return (Some Setup.Stop)
                  /\ Z.of_nat (List.length whole)
                     = (2 * Setup.step l - 2)%Z))
  /\ (exists l r,
         Verify.verify (scripted (always "<issue>broken</issue>") noon) 9
           (state_with None)
         = Some (l, Return (Update r))
         /\ Verify.r_messages r
            = Verify.prefix (scripted (always "<issue>broken</issue>") noon)
                (state_with None)
              ++ Verify.r_verify_messages r
         /\ exchanges (Verify.r_verify_messages r) = true
         /\ (Z.of_nat (List.length (Verify.r_verify_messages r))
             = 2 * Verify.step l)%Z).
Proof.
  split.
  - do 2 eexists. split; [vm_compute; reflexivity|].
    split; [reflexivity|].
    eapply (proj1 (returned_history_extends_prefix _ Setup.spec_parser 9 _)).
    vm_compute. reflexivity.
  - do 2 eexists. split; [vm_compute; reflexivity|].
    eapply (proj2 (returned_history_extends_prefix _ Setup.spec_parser 9 _)).
    vm_compute. reflexivity.
Defined.

(** X2.  The commands a loop has recorded are the commands the session has
    been sent, in that order and once each: however the loop ends, the
    session is the one that sending the recorded commands one after the
    other leads to. *)
Theorem session_follows_commands
  (W : World) (P : Setup.ActionParser) (N : Z)
  (state : AgentState (Session W)) (s0 : Session W) :
  session state = Some s0 ->
  (forall l o,
      Setup.setup W P N state = Some (l, o) ->
      Setup.sess l = Some (replay W s0 (Setup.commands l)))
  /\ (forall l o,
         Verify.verify W N state = Some (l, o) ->
         Verify.sess l = Some (replay W s0 (Verify.commands l))).
Proof.
  intros Hs. split.
  - intros l o Hrun. unfold Setup.setup, Setup.setup_call in Hrun.
    destruct (while _ _ _ _) as [[l1 o1]|] eqn:Hw; [|discriminate].
    assert (l1 = l) as -> by (destruct o1; now inversion Hrun).
    refine (while_rule _ _
              (fun l : Setup.locals W =>
                 Setup.sess l = Some (replay W s0 (Setup.commands l)))
              (fun (l : Setup.locals W) _ =>
                 Setup.sess l = Some (replay W s0 (Setup.commands l)))
              _ _ _ _ _ _ _ _ _ Hw); auto.
    + intros s s' HI _ Hb. eapply SetupMore.setup_body_replay; eauto.
    + intros s s' HI _ Hb. eapply SetupMore.setup_body_replay; eauto.
    + intros s s' e HI _ Hb. eapply SetupMore.setup_body_replay; eauto.
  - intros l o Hrun. unfold Verify.verify, Verify.verify_call in Hrun.
    destruct (exception state) as [e0|].
    { inversion Hrun; subst. exact Hs. }
    destruct (while _ _ _ _) as [[l1 o1]|] eqn:Hw; [|discriminate].
    assert (l1 = l) as -> by (destruct o1; now inversion Hrun).
    refine (while_rule _ _
              (fun l : Verify.locals W =>
                 Verify.sess l = Some (replay W s0 (Verify.commands l)))
              (fun (l : Verify.locals W) _ =>
                 Verify.sess l = Some (replay W s0 (Verify.commands l)))
              _ _ _ _ _ _ _ _ _ Hw); auto.
    + intros s s' HI _ Hb. eapply VerifyMore.verify_body_replay; eauto.
    + intros s s' HI _ Hb. eapply VerifyMore.verify_body_replay; eauto.
    + intros s s' e HI _ Hb. eapply VerifyMore.verify_body_replay; eauto.
Qed.

(** Runs for X2, with a session that keeps the commands it was sent. *)
Lemma session_follows_commands_witness :
  (exists l o,
      Setup.setup
        (recording (fun k => if k =? 0 then Return "<command>make</command>"
                             else Return "<command>make test</command>"))
        Setup.spec_parser 3 (recording_state (Some []))
      = Some (l, o)
      /\ Setup.commands l = ["make"; "make test"; "make test"]
      /\ Setup.sess l
         = Some (replay
                   (recording
                      (fun k => if k =? 0 then Return "<command>make</command>"
                                else Return "<command>make test</command>"))
                   [] (Setup.commands l)))
  /\ (exists l o,
         Verify.verify (recording (always "<command>pytest -rA</command>"))
           2 (recording_state (Some []))
         = Some (l, o)
         /\ Verify.sess l
            = Some (replay (recording (always "<command>pytest -rA</command>"))
                      [] (Verify.commands l))).
Proof.
  split.
  - do 2 eexists. split; [vm_compute; reflexivity|]. split; [reflexivity|].
    eapply (proj1 (session_follows_commands
                     (recording
                        (fun k => if k =? 0
                                  then Return "<command>make</command>"
                                  else Return "<command>make test</command>"))
                     Setup.spec_parser 3
                     (recording_state (Some [])) [] eq_refl)).
    vm_compute. reflexivity.
  - do 2 eexists. split; [vm_compute; reflexivity|].
    eapply (proj2 (session_follows_commands
                     (recording (always "<command>pytest -rA</command>"))
                     Setup.spec_parser 2
                     (recording_state (Some [])) [] eq_refl)).
    vm_compute. reflexivity.
Defined.

(** X3.  In the verify loop a reply that holds [<think>] and no [</think>]
    ends the loop: cutting the reasoning off raises [IndexError], which
    [verify] returns as the captured exception.  The step has been counted
    and the oracle called, but the reply is not among the messages. *)
Theorem unclosed_reasoning_ends_verify
  (W : World) (max_steps : Z) (state : AgentState (Session W))
  (l : Verify.locals W) (reply : string) :
  exception state = None ->
  Verify.reaches max_steps state l ->
  (Verify.step l < max_steps)%Z ->
  llm_invoke W (List.length (Verify.calls l))
    (Verify.input_messages (List.length (Verify.prefix W state))
       (Verify.messages l))
  = Return reply ->
  PyStr.contains "<think>" reply = true ->
  PyStr.contains "</think>" reply = false ->
  exists l',
    Verify.verify W max_steps state
    = Some (l', Return (ExceptionUpdate
                          (IndexError "list index out of range")))
    /\ Verify.messages l' = Verify.messages l
    /\ Verify.step l' = (Verify.step l + 1)%Z
    /\ List.length (Verify.calls l') = S (List.length (Verify.calls l)).
Proof.
  intros Hexc Hreach Hlt Hllm Hopen Hclose.
  assert (Hdrop : Verify.drop_reasoning reply
                  = Raise (IndexError "list index out of range")).
  { unfold Verify.drop_reasoning. rewrite Hopen.
    now apply PyStrFacts.split_second_missing. }
  unfold Verify.verify, Verify.verify_call. rewrite Hexc.
  rewrite (VerifyFacts.verify_reaches_while _ _ _ _ Hreach).
  replace (Z.to_nat (max_steps - Verify.step l))
    with (S (Z.to_nat (max_steps - Verify.step l - 1))) by lia.
  pose proof (VerifyFacts.verify_body_eq W
                (List.length (Verify.prefix W state)) l) as Hb.
  cbv zeta in Hb. rewrite Hllm, Hdrop in Hb.
  erewrite while_raise; [|now apply Z.ltb_lt|exact Hb].
  eexists. split; [reflexivity|].
  cbn. rewrite length_app. cbn. repeat split; lia.
Qed.

(** A run for X3. *)
Lemma unclosed_reasoning_ends_verify_witness :
  exists l',
    Verify.verify
      (scripted (always "<think>I should run the tests <command>ls</command>")
         noon) 4 (state_with None)
    = Some (l', Return (ExceptionUpdate
                          (IndexError "list index out of range")))
    /\ Verify.messages l'
       = [SystemMessage "verify: system"; HumanMessage "verify: task"]
    /\ Verify.step l' = (0 + 1)%Z
    /\ List.length (Verify.calls l') = 1.
Proof.
  apply (unclosed_reasoning_ends_verify
           (scripted
              (always "<think>I should run the tests <command>ls</command>")
              noon) 4 (state_with None)
           (Verify.entry
              (scripted
                 (always
                    "<think>I should run the tests <command>ls</command>")
                 noon) (state_with None))
           "<think>I should run the tests <command>ls</command>").
  - reflexivity.
  - constructor.
  - reflexivity.
  - reflexivity.
  - reflexivity.
  - reflexivity.
Defined.

(** X4.  When the state holds no session ([session] is [None], as in a
    state that [AgentState.create] has just made), the first command of
    either loop ends the stage with the captured [AttributeError] of
    [None.send_command]; the command is among the recorded commands of the
    loop all the same. *)
Theorem command_without_session
  (W : World) (P : Setup.ActionParser) (max_steps : Z)
  (state : AgentState (Session W)) :
  session state = None ->
  (forall (l : Verify.locals W) reply c a,
      exception state = None ->
      Verify.reaches max_steps state l ->
      (Verify.step l < max_steps)%Z ->
      llm_invoke W (List.length (Verify.calls l))
        (Verify.input_messages (List.length (Verify.prefix W state))
           (Verify.messages l))
      = Return reply ->
      Verify.drop_reasoning reply = Return c ->
      Verify.parse_verify_action c = Return (Some a) ->
      Verify.action a = Verify.command ->
      exists l',
        Verify.verify W max_steps state
        = Some (l', Return
                      (ExceptionUpdate
                         (AttributeError
                            "'NoneType' object has no attribute 'send_command'")))
        /\ Verify.commands l' = Verify.commands l ++ [Verify.args a])
  /\ (forall (l : Setup.locals W) t0 reply c,
         start_time state = Some t0 ->
         Setup.reaches P max_steps state l ->
         (Setup.step l < max_steps)%Z ->
         Setup.timed_out (time_time W (Setup.ticks l)) t0 = false ->
         llm_invoke W (List.length (Setup.calls l))
           (Setup.input_messages (List.length (Setup.prefix W state))
              (Setup.commands l) (Setup.messages l))
         = Return reply ->
         Setup.parse_setup_action P reply = Return (Some (Setup.Command c)) ->
         exists l',
           Setup.setup W P max_steps state
           = Some (l', Return
                         (ExceptionUpdate
                            (AttributeError
                               "'NoneType' object has no attribute 'send_command'")))
           /\ Setup.commands l' = Setup.commands l ++ [c]).
Proof.
  intros Hnone. split.
  - intros l reply c a Hexc Hreach Hlt Hllm Hdrop Hparse Ha.
    pose proof (VerifyMore.verify_reaches_no_session W _ _ _ Hnone Hreach)
      as Hs.
    unfold Verify.verify, Verify.verify_call. rewrite Hexc.
    rewrite (VerifyFacts.verify_reaches_while _ _ _ _ Hreach).
    replace (Z.to_nat (max_steps - Verify.step l))
      with (S (Z.to_nat (max_steps - Verify.step l - 1))) by lia.
    erewrite while_raise;
      [|now apply Z.ltb_lt
       |eapply VerifyMore.verify_body_command_no_session; eauto].
    eexists. split; reflexivity.
  - intros l t0 reply c Hstart Hreach Hlt Hclock Hllm Hparse.
    pose proof (SetupMore.setup_reaches_no_session W P _ _ _ Hnone Hreach)
      as Hs.
    unfold Setup.setup, Setup.setup_call.
    rewrite (SetupFacts.setup_reaches_while W P _ _ _ Hreach).
    replace (Z.to_nat (max_steps - Setup.step l))
      with (S (Z.to_nat (max_steps - Setup.step l - 1))) by lia.
    rewrite Hstart.
    erewrite while_raise;
      [|now apply Z.ltb_lt
       |eapply SetupMore.setup_body_command_no_session; eauto].
    eexists. split; reflexivity.
Qed.

(** Runs for X4. *)
Lemma command_without_session_witness :
  (exists l',
      Verify.verify (recording (always "<command>pytest -rA</command>")) 3
        (recording_state None)
      = Some (l', Return
                    (ExceptionUpdate
                       (AttributeError
                          "'NoneType' object has no attribute 'send_command'")))
      /\ Verify.commands l' = [] ++ ["pytest -rA"])
  /\ (exists l',
         Setup.setup (recording (always "<command>make</command>"))
           Setup.spec_parser 3 (recording_state None)
         = Some (l', Return
                       (ExceptionUpdate
                          (AttributeError
                             "'NoneType' object has no attribute 'send_command'")))
         /\ Setup.commands l' = [] ++ ["make"]).
Proof.
  split.
  - apply (proj1 (command_without_session
                    (recording (always "<command>pytest -rA</command>"))
                    Setup.spec_parser 3 (recording_state None) eq_refl)
             (Verify.entry
                (recording (always "<command>pytest -rA</command>"))
                (recording_state None))
             "<command>pytest -rA</command>" "<command>pytest -rA</command>"
             {| Verify.action := Verify.command;
                Verify.args := "pytest -rA" |});
      try reflexivity. constructor.
  - apply (proj2 (command_without_session
                    (recording (always "<command>make</command>"))
                    Setup.spec_parser 3 (recording_state None) eq_refl)
             (Setup.entry (recording (always "<command>make</command>"))
                (recording_state None))
             0%Q "<command>make</command>" "make");
      try reflexivity. constructor.
Defined.

(** X5.  A verify loop that uses up its budget without an issue judges
    nothing: with an oracle that always answers with a command and a
    session that runs every command, [verify] returns success [False] and
    issue [None], the same as before the first step, together with one
    test command for every step of the budget and the trial counted.  A
    budget of zero or less gives this result without a call of the
    oracle. *)
Theorem verify_out_of_budget_is_inconclusive
  (W : World) (N : Z) (state : AgentState (Session W)) :
  exception state = None ->
  session state <> None ->
  (forall k input, exists reply c a,
      llm_invoke W k input = Return reply
      /\ Verify.drop_reasoning reply = Return c
      /\ Verify.parse_verify_action c = Return (Some a)
      /\ Verify.action a = Verify.command) ->
  (forall s c, exists s' text, send_command W s c = (s', Return text)) ->
  exists l r,
    Verify.verify W N state = Some (l, Return (Update r))
    /\ Verify.r_success r = false
    /\ Verify.r_issue r = None
    /\ Z.of_nat (List.length (Verify.r_test_commands r)) = Z.max 0 N
    /\ Verify.r_commands r = Verify.r_test_commands r
    /\ Verify.r_trials r = (trials state + 1)%Z
    /\ Z.of_nat (List.length (Verify.calls l)) = Z.max 0 N.
Proof.
  intros Hexc Hsess Hllm Hsend.
  unfold Verify.verify, Verify.verify_call. rewrite Hexc.
  destruct (VerifyFacts.verify_loop_total W N state (Verify.entry W state))
    as [[l o] Hw].
  cbn [Verify.entry Verify.step] in Hw. rewrite Z.sub_0_r in Hw.
  rewrite Hw.
  set (I := fun l : Verify.locals W =>
              Verify.success l = false /\ Verify.issue_text l = None
              /\ Verify.step l = Z.of_nat (List.length (Verify.commands l))
              /\ Verify.step l = Z.of_nat (List.length (Verify.calls l))
              /\ (Verify.step l <= Z.max 0 N)%Z
              /\ Verify.sess l <> None).
  assert (Hpass : forall s, I s -> (Verify.step s <? N)%Z = true ->
            exists s',
              Verify.body (List.length (Verify.prefix W state)) s
              = (s', Return Continue) /\ I s').
  { intros s (Ha & Hb & Hc & Hd & He & Hf) Hlt. apply Z.ltb_lt in Hlt.
    destruct (Hllm (List.length (Verify.calls s))
                (Verify.input_messages (List.length (Verify.prefix W state))
                   (Verify.messages s)))
      as (reply & c & a & Hr & Hdrop & Hp & Hact).
    destruct (Verify.sess s) as [x|] eqn:Hx; [|easy].
    destruct (Hsend x (Verify.args a)) as (x' & text & Hx').
    eexists. split.
    - eapply VerifyMore.verify_body_command; eauto.
    - unfold I.
      cbn [Verify.messages Verify.commands Verify.step Verify.success
           Verify.issue_text Verify.sess Verify.calls
           Verify.with_messages Verify.with_commands Verify.with_step
           Verify.with_sess Verify.with_call].
      rewrite !length_app. cbn [List.length].
      repeat split; try assumption; try lia. discriminate. }
  assert (HQ : o = Return tt /\ I l /\ Verify.step l = Z.max 0 N).
  { refine (while_rule _ _ I
              (fun (l : Verify.locals W) o =>
                 o = Return tt /\ I l /\ Verify.step l = Z.max 0 N)
              _ _ _ _ _ _ _ _ _ Hw).
    - intros s HI Hge. apply Z.ltb_ge in Hge.
      split; [reflexivity|]. split; [exact HI|].
      destruct HI as (_ & _ & Hc & _ & He & _). lia.
    - intros s s' HI Hlt Hb.
      destruct (Hpass s HI Hlt) as (s'' & Hb'' & HI'). congruence.
    - intros s s' HI Hlt Hb.
      destruct (Hpass s HI Hlt) as (s'' & Hb'' & HI'). congruence.
    - intros s s' e HI Hlt Hb.
      destruct (Hpass s HI Hlt) as (s'' & Hb'' & HI'). congruence.
    - unfold I. cbn. repeat split; try lia. exact Hsess. }
  destruct HQ as (-> & (Ha & Hb & Hc & Hd & He & Hf) & Hstep).
  do 2 eexists. cbn [auto_catch]. split; [reflexivity|].
  cbn [Verify.r_success Verify.r_issue Verify.r_test_commands
       Verify.r_commands Verify.r_trials].
  repeat split; try assumption; lia.
Qed.

(** Runs for X5: a budget of three, and no budget. *)
Lemma verify_out_of_budget_is_inconclusive_witness :
  (exists l r,
      Verify.verify (scripted (always "<command>pytest -rA</command>") noon)
        3 (state_with None)
      = Some (l, Return (Update r))
      /\ Verify.r_success r = false
      /\ Verify.r_issue r = None
      /\ Z.of_nat (List.length (Verify.r_test_commands r)) = Z.max 0 3
      /\ Verify.r_commands r = Verify.r_test_commands r
      /\ Verify.r_trials r = (0 + 1)%Z
      /\ Z.of_nat (List.length (Verify.calls l)) = Z.max 0 3)
  /\ (exists l r,
         Verify.verify
           (scripted (always "<command>pytest -rA</command>") noon)
           (-2) (state_with None)
         = Some (l, Return (Update r))
         /\ Verify.r_success r = false
         /\ Verify.r_issue r = None
         /\ Z.of_nat (List.length (Verify.r_test_commands r)) = Z.max 0 (-2)
         /\ Verify.r_commands r = Verify.r_test_commands r
         /\ Verify.r_trials r = (0 + 1)%Z
         /\ Z.of_nat (List.length (Verify.calls l)) = Z.max 0 (-2)).
Proof.
  split;
    apply (verify_out_of_budget_is_inconclusive
             (scripted (always "<command>pytest -rA</command>") noon));
    try reflexivity; try discriminate.
  - intros k input.
    exists "<command>pytest -rA</command>", "<command>pytest -rA</command>",
      {| Verify.action := Verify.command; Verify.args := "pytest -rA" |}.
    repeat split; reflexivity.
  - intros s c. exists s, ("$ " ++ c)%string. reflexivity.
  - intros k input.
    exists "<command>pytest -rA</command>", "<command>pytest -rA</command>",
      {| Verify.action := Verify.command; Verify.args := "pytest -rA" |}.
    repeat split; reflexivity.
  - intros s c. exists s, ("$ " ++ c)%string. reflexivity.
Defined.

(** X6.  The verify grammar reads back what it is written in: a command
    or an issue whose text has no surrounding whitespace and none of the
    tags of the grammar in it (and, for an issue, no capital letter),
    written as [<command>TEXT</command>] or [<issue>TEXT</issue>], parses
    to that same action. *)
Theorem verify_grammar_round_trip (a : Verify.VerifyAction) :
  PyStr.strip (Verify.args a) = Verify.args a ->
  PyStr.contains "<command>" (Verify.args a) = false ->
  match Verify.action a with
  | Verify.command => PyStr.contains "</command>" (Verify.args a) = false
  | Verify.issue =>
      PyStr.lower (Verify.args a) = Verify.args a
      /\ PyStr.contains "<issue>" (Verify.args a) = false
      /\ PyStr.contains "</issue>" (Verify.args a) = false
  end ->
  Verify.parse_verify_action (render a) = Return (Some a).
Proof.
  destruct a as [k x]. unfold render. cbn [Verify.action Verify.args].
  intros Hstrip Hcmd Hk. destruct k.
  - rewrite <- Hstrip at 2.
    apply (ParseFacts.verify_command_tag "" x ""); [reflexivity|assumption..].
  - destruct Hk as (Hlow & Hi1 & Hi2).
    rewrite <- Hlow at 2. rewrite <- Hstrip at 2.
    apply (ParseFacts.verify_issue_tag "" x "");
      [|reflexivity|assumption..].
    now apply TagFacts.no_command_in_issue.
Qed.

(** Actions for X6. *)
Lemma verify_grammar_round_trip_witness :
  Verify.parse_verify_action
    (render {| Verify.action := Verify.command;
               Verify.args := "tox -- -rA" |})
  = Return (Some {| Verify.action := Verify.command;
                    Verify.args := "tox -- -rA" |})
  /\ Verify.parse_verify_action
       (render {| Verify.action := Verify.issue;
                  Verify.args := "some dependency is missing" |})
     = Return (Some {| Verify.action := Verify.issue;
                       Verify.args := "some dependency is missing" |}).
Proof.
  split.
  - apply verify_grammar_round_trip; reflexivity.
  - apply verify_grammar_round_trip; [reflexivity|reflexivity|].
    repeat split.
Defined.

(** X7.  Whatever [select_base_image] returns as [base_image] is a name
    from the candidate list of the state's language, never [None] and
    never a name the oracle made up.  The accepted reply is not appended:
    the returned messages are the input of the last oracle call, the first
    prompt and two messages for each reply that was turned down. *)
Theorem selected_image_is_a_candidate
  (W : World) (language docs : string) (fuel : nat)
  (l : BaseImage.locals) (r : BaseImage.result) :
  BaseImage.select_base_image W language docs fuel
  = Some (l, Return (Update r)) ->
  exists cands image,
    In (language, cands) BaseImage.lang_to_candidate_images
    /\ BaseImage.r_base_image r = Some image
    /\ In image cands
    /\ (1 <= BaseImage.trials l)%Z
    /\ Z.of_nat (List.length (BaseImage.calls l)) = BaseImage.trials l
    /\ Z.of_nat (List.length (BaseImage.r_messages r))
       = (2 * BaseImage.trials l - 1)%Z
    /\ last (BaseImage.calls l) [] = BaseImage.r_messages r
    /\ nth_error (BaseImage.r_messages r) 0
       = Some (BaseImage.first_message docs cands).
Proof.
  unfold BaseImage.select_base_image, BaseImage.select_base_image_call.
  destruct (BaseImage.getitem BaseImage.lang_to_candidate_images language)
    as [cands|e] eqn:Hget.
  2:{ cbn. destruct (derives_Exception e); discriminate. }
  destruct (while fuel BaseImage.cond (BaseImage.body W cands)
              (BaseImage.entry docs cands)) as [[l0 [u|e]]|] eqn:Hw.
  3:{ discriminate. }
  2:{ cbn. destruct (derives_Exception e); discriminate. }
  cbn. intros [= <- <-]. cbn.
  exists cands.
  refine (while_rule BaseImage.cond (BaseImage.body W cands)
            (BaseImage.at_head docs cands)
            (fun l o =>
               o = Return tt ->
               exists image,
                 In (language, cands) BaseImage.lang_to_candidate_images
                 /\ BaseImage.base_image l = Some image
                 /\ In image cands
                 /\ (1 <= BaseImage.trials l)%Z
                 /\ Z.of_nat (List.length (BaseImage.calls l))
                    = BaseImage.trials l
                 /\ Z.of_nat (List.length (BaseImage.messages l))
                    = (2 * BaseImage.trials l - 1)%Z
                 /\ last (BaseImage.calls l) [] = BaseImage.messages l
                 /\ nth_error (BaseImage.messages l) 0
                    = Some (BaseImage.first_message docs cands))
            _ _ _ _ fuel (BaseImage.entry docs cands) l0 (Return u)
            (BaseImageFacts.at_head_entry cands docs) Hw _).
  - intros s Hs Hc.
    rewrite (BaseImageFacts.at_head_cond cands docs s Hs) in Hc.
    discriminate.
  - intros s s' Hs _ Hb.
    exact (proj1 (BaseImageFacts.at_head_continue W cands docs s s' Hs Hb)).
  - intros s s' Hs _ Hb _.
    destruct (BaseImageFacts.at_head_break W cands docs s s' Hs Hb)
      as (image & Hi & Hin & Hm & Hc & Ht).
    destruct Hs as (_ & Hts & Hms & Hf).
    exists image.
    split; [now apply BaseImageFacts.getitem_In|].
    split; [assumption|]. split; [assumption|].
    rewrite Hm, Hc, Ht, Hts, length_app, Hms, last_last. cbn [List.length].
    split; [lia|]. split; [lia|]. split; [lia|]. split; [reflexivity|].
    assumption.
  - intros s s' e _ _ _. discriminate.
  - destruct u. reflexivity.
Qed.

Lemma selected_image_is_a_candidate_witness :
  exists l r,
    BaseImage.select_base_image
      (scripted (fun n => if n <? 2 then Return "ubuntu:20.04"
                          else Return "<image>rust:1.75</image>") noon)
      "rust" "Cargo.toml" 3
    = Some (l, Return (Update r))
    /\ exists cands image,
        In ("rust", cands) BaseImage.lang_to_candidate_images
        /\ BaseImage.r_base_image r = Some image
        /\ In image cands
        /\ (1 <= BaseImage.trials l)%Z
        /\ Z.of_nat (List.length (BaseImage.calls l)) = BaseImage.trials l
        /\ Z.of_nat (List.length (BaseImage.r_messages r))
           = (2 * BaseImage.trials l - 1)%Z
        /\ last (BaseImage.calls l) [] = BaseImage.r_messages r
        /\ nth_error (BaseImage.r_messages r) 0
           = Some (BaseImage.first_message "Cargo.toml" cands).
Proof.
  do 2 eexists. split; [vm_compute; reflexivity|].
  eapply (selected_image_is_a_candidate
            (scripted (fun n => if n <? 2 then Return "ubuntu:20.04"
                                else Return "<image>rust:1.75</image>") noon)
            "rust" "Cargo.toml" 3).
  vm_compute. reflexivity.
Defined.

(** X8.  The candidate table has the keys python, rust and javascript
    only.  For any other language of the state, such as the bash that
    [LANGUAGE] allows, the lookup raises KeyError before the oracle is
    called, and the decorator returns it as the captured exception. *)
Theorem language_without_candidates
  (W : World) (language docs : string) (fuel : nat) :
  language <> "python" -> language <> "rust" -> language <> "javascript" ->
  exists l,
    BaseImage.select_base_image W language docs fuel
    = Some (l, Return (ExceptionUpdate (Foreign "KeyError" true)))
    /\ BaseImage.calls l = [].
Proof.
  intros Hp Hr Hj.
  unfold BaseImage.select_base_image, BaseImage.select_base_image_call.
  rewrite BaseImageFacts.getitem_missing.
  - eexists. split; reflexivity.
  - intros v [H|[H|[H|[]]]]; injection H as H _; congruence.
Qed.

Lemma language_without_candidates_witness :
  exists l,
    BaseImage.select_base_image
      (scripted (always "<image>ubuntu:20.04</image>") noon) "bash" "" 5
    = Some (l, Return (ExceptionUpdate (Foreign "KeyError" true)))
    /\ BaseImage.calls l = [].
Proof.
  apply (language_without_candidates
           (scripted (always "<image>ubuntu:20.04</image>") noon) "bash" "" 5);
    discriminate.
Defined.

(** X9.  The [trials < 5] of the loop condition ends nothing: [base_image]
    is assigned only right before the [break], so the condition holds at
    every test.  After any number [k] of replies that name no candidate,
    also more than five, a reply that names one is accepted; it is the
    result of pass [k + 1], after [k + 1] oracle calls. *)
Theorem choice_after_any_number_of_refusals
  (W : World) (language docs : string) (cands : list string)
  (k fuel : nat) :
  BaseImage.getitem BaseImage.lang_to_candidate_images language
  = Return cands ->
  (forall j input, j < k ->
      exists reply c v,
        llm_invoke W j input = Return reply
        /\ Verify.drop_reasoning reply = Return c
        /\ BaseImage.judge cands c = Return v
        /\ forall image, v <> BaseImage.Accepted image) ->
  (forall input, exists reply c image,
      llm_invoke W k input = Return reply
      /\ Verify.drop_reasoning reply = Return c
      /\ BaseImage.judge cands c = Return (BaseImage.Accepted image)) ->
  k < fuel ->
  exists l r image,
    BaseImage.select_base_image W language docs fuel
    = Some (l, Return (Update r))
    /\ BaseImage.r_base_image r = Some image
    /\ In image cands
    /\ BaseImage.trials l = (Z.of_nat k + 1)%Z
    /\ List.length (BaseImage.calls l) = k + 1
    /\ List.length (BaseImage.r_messages r) = 1 + 2 * k.
Proof.
  intros Hget Hrej Hacc Hfuel.
  unfold BaseImage.select_base_image, BaseImage.select_base_image_call.
  rewrite Hget.
  destruct (BaseImageFacts.select_loop_after W cands docs k
              (BaseImage.entry docs cands)
              (BaseImageFacts.at_head_entry cands docs))
    with (fuel := fuel)
    as (l & Hw & Hc & Hm & Ht & image & Hi & Hin).
  - intros j input Hj. apply Hrej. cbn in Hj. lia.
  - exact Hacc.
  - exact Hfuel.
  - rewrite Hw. cbn in Hc, Hm.
    exists l, {| BaseImage.r_messages := BaseImage.messages l;
                 BaseImage.r_base_image := BaseImage.base_image l |}, image.
    cbn. split; [reflexivity|]. split; [assumption|]. split; [assumption|].
    rewrite Ht, Hc, Hm. split; [lia|]. split; [lia|]. lia.
Qed.

Lemma choice_after_any_number_of_refusals_witness :
  exists l r image,
    BaseImage.select_base_image
      (scripted (fun n => if n <? 7 then Return "python:3.12 would do"
                          else Return "<image>python:3.9</image>") noon)
      "python" "setup.py" 8
    = Some (l, Return (Update r))
    /\ BaseImage.r_base_image r = Some image
    /\ In image (map (fun v => "python:3." ++ BaseImage.str v)%string
                   (BaseImage.range 6 12))
    /\ BaseImage.trials l = (Z.of_nat 7 + 1)%Z
    /\ List.length (BaseImage.calls l) = 7 + 1
    /\ List.length (BaseImage.r_messages r) = 1 + 2 * 7.
Proof.
  apply (choice_after_any_number_of_refusals
           (scripted (fun n => if n <? 7 then Return "python:3.12 would do"
                               else Return "<image>python:3.9</image>") noon)
           "python" "setup.py"
           (map (fun v => "python:3." ++ BaseImage.str v)%string
              (BaseImage.range 6 12)) 7 8).
  - reflexivity.
  - intros j input Hj.
    exists "python:3.12 would do", "python:3.12 would do", BaseImage.Unwrapped.
    cbn [llm_invoke scripted].
    destruct (j <? 7) eqn:E; [|apply Nat.ltb_ge in E; lia].
    repeat split; discriminate.
  - intros input.
    exists "<image>python:3.9</image>", "<image>python:3.9</image>",
      "python:3.9".
    repeat split.
  - lia.
Defined.

(** X10.  The loop of [select_base_image] has no way out but an accepted
    reply: with an oracle that answers every call and never names a
    candidate, the function is still looping after any number of passes.
    Unlike the setup and verify loops it has no step budget and no clock. *)
Theorem selection_never_gives_up
  (W : World) (language docs : string) (cands : list string) (fuel : nat) :
  BaseImage.getitem BaseImage.lang_to_candidate_images language
  = Return cands ->
  (forall k input, exists reply c v,
      llm_invoke W k input = Return reply
      /\ Verify.drop_reasoning reply = Return c
      /\ BaseImage.judge cands c = Return v
      /\ forall image, v <> BaseImage.Accepted image) ->
  BaseImage.select_base_image W language docs fuel = None.
Proof.
  intros Hget Hllm.
  unfold BaseImage.select_base_image, BaseImage.select_base_image_call.
  rewrite Hget.
  rewrite (BaseImageFacts.select_loop_goes_on W cands docs Hllm fuel
             (BaseImage.entry docs cands)
             (BaseImageFacts.at_head_entry cands docs)).
  reflexivity.
Qed.

Lemma selection_never_gives_up_witness :
  BaseImage.select_base_image
    (scripted (always "<image>node:20</image>") noon) "javascript"
    "package.json" 40
  = None.
Proof.
  apply (selection_never_gives_up
           (scripted (always "<image>node:20</image>") noon) "javascript"
           "package.json"
           (map (fun v => "node:1" ++ BaseImage.str v)%string
              (BaseImage.range 0 10)) 40).
  - reflexivity.
  - intros k input.
    exists "<image>node:20</image>", "<image>node:20</image>",
      (BaseImage.Rejected "node:20").
    repeat split; discriminate.
Defined.

(** X11.  Let the content of the reply be the reply itself or, for a reply
    that holds [<think>], what the cut of lines 54-55 leaves of it, and let
    the content be [pre<image>NAME</image>post] with no [<image>] in [pre]
    and no image tag, opening or closing, in [NAME].  Then the pass
    compares [NAME] with the candidates as it stands, without [strip] and
    without change of case: when [NAME] is an element of the list the loop
    ends with it as the base image, otherwise the content and a request to
    select again, which quotes [NAME], are appended and the loop goes on. *)
Theorem image_name_is_compared_as_written
  (W : World) (cands : list string) (l : BaseImage.locals)
  (raw pre x post : string) :
  let content := (pre ++ "<image>" ++ x ++ "</image>" ++ post)%string in
  llm_invoke W (List.length (BaseImage.calls l)) (BaseImage.messages l)
  = Return raw ->
  Verify.drop_reasoning raw = Return content ->
  PyStr.contains "<image>" pre = false ->
  PyStr.contains "<image>" x = false ->
  PyStr.contains "</image>" x = false ->
  BaseImage.body W cands l
  = if BaseImage.mem x cands
    then (BaseImage.with_base_image (Some x) (BaseImage.called l),
          Return Break)
    else (BaseImage.with_messages
            (fun m => m ++ [AIMessage content;
                            BaseImage.select_again x cands])
            (BaseImage.called l),
          Return Continue).
Proof.
  intros content Hllm Hdrop Hpre Hx Hx'.
  rewrite BaseImageFacts.select_body_eq, Hllm, Hdrop.
  assert (Hj : BaseImage.judge cands content
               = Return (if BaseImage.mem x cands
                         then BaseImage.Accepted x
                         else BaseImage.Rejected x)).
  { unfold BaseImage.judge, content.
    rewrite PyStrFacts.contains_app.
    destruct (PyStrFacts.tag_content "<"%char "image>" "/image>" pre x post)
      as (after & Ha & Hb); try reflexivity; try assumption.
    change (String "<"%char "image>") with "<image>" in Ha.
    change (String "<"%char "/image>") with "</image>" in Ha, Hb.
    rewrite Ha, Hb. destruct (BaseImage.mem x cands); reflexivity. }
  rewrite Hj. destruct (BaseImage.mem x cands); reflexivity.
Qed.

Lemma image_name_is_compared_as_written_witness :
  BaseImage.body
    (scripted
       (always "<think>3.9 is fine</think>I suggest <image> python:3.9 </image>.")
       noon)
    ["python:3.9"; "python:3.10"]
    (BaseImage.entry "setup.py" ["python:3.9"; "python:3.10"])
  = if BaseImage.mem " python:3.9 " ["python:3.9"; "python:3.10"]
    then (BaseImage.with_base_image (Some " python:3.9 ")
            (BaseImage.called
               (BaseImage.entry "setup.py" ["python:3.9"; "python:3.10"])),
          Return Break)
    else (BaseImage.with_messages
            (fun m => m ++ [AIMessage
                              ("I suggest " ++ "<image>" ++ " python:3.9 "
                                 ++ "</image>" ++ ".");
                            BaseImage.select_again " python:3.9 "
                              ["python:3.9"; "python:3.10"]])
            (BaseImage.called
               (BaseImage.entry "setup.py" ["python:3.9"; "python:3.10"])),
          Return Continue).
Proof.
  apply (image_name_is_compared_as_written
           (scripted
              (always
                 "<think>3.9 is fine</think>I suggest <image> python:3.9 </image>.")
              noon)
           ["python:3.9"; "python:3.10"]
           (BaseImage.entry "setup.py" ["python:3.9"; "python:3.10"])
           "<think>3.9 is fine</think>I suggest <image> python:3.9 </image>."
           "I suggest " " python:3.9 " "."); reflexivity.
Defined.

(** X12.  [wrapped_requests_get] always returns or raises, after at most
    [max_retries] requests, all to the given url, with a sleep of 20 s
    between two requests and none after the last.  Every request but the
    last ended in a connection fault; a response that is returned is the
    answer to the last request; without any request ([max_retries] not
    positive) the result is [None]. *)
Theorem fetch_is_bounded
  (R : Type) (requests_get : nat -> string -> Utils.fetched R)
  (url : string) (max_retries : Z) :
  exists l o,
    Utils.wrapped_requests_get requests_get url max_retries = Some (l, o)
    /\ (Z.of_nat (List.length (Utils.requests l)) <= Z.max 0 max_retries)%Z
    /\ Utils.requests l = repeat url (List.length (Utils.requests l))
    /\ Utils.slept l = repeat 20%Z (List.length (Utils.requests l) - 1)
    /\ (forall j, j + 1 < List.length (Utils.requests l) ->
                  requests_get j url = Utils.ConnectionFault)
    /\ (forall r, o = Return (Some r) ->
                  requests_get (List.length (Utils.requests l) - 1) url
                  = Utils.Response r)
    /\ (Utils.requests l = [] <-> (max_retries <= 0)%Z)
    /\ (Utils.requests l = [] -> o = Return None).
Proof.
  destruct (UtilsFacts.get_spec R requests_get url max_retries)
    as (l & o & Hw & [(Hm & -> & ->)|(n & Hn & Hlt & Hreq & Hs & Hf & Hlast)]).
  - exists (Utils.entry R), (Return None). split; [assumption|]. cbn.
    split; [lia|]. split; [reflexivity|]. split; [reflexivity|].
    split; [intros j Hj; lia|]. split; [discriminate|].
    split; [tauto|reflexivity].
  - exists l, o. split; [assumption|]. rewrite Hn.
    replace (Datatypes.S n - 1) with n by lia.
    split; [lia|]. split; [assumption|]. split; [assumption|].
    split; [intros j Hj; apply Hf; lia|].
    split; [|split].
    + intros r ->. destruct (requests_get n url) as [r'| | |e];
        try discriminate; [congruence|]. now destruct Hlast.
    + split; [intros H; rewrite H in Hn; discriminate|lia].
    + intros H. rewrite H in Hn. discriminate.
Qed.





(** X15.  [extract_patches] sorts the files of the diff by their path
    alone, each file into one of the two patches and in the order of the
    diff: the test patch is made of the files whose path holds [test] or
    [e2e] anywhere, the fix patch of the others.  The words [tests] and
    [testing] of the list decide nothing, a path that holds one of them
    holds [test]. *)
Theorem patches_are_sorted_by_path (files : list Utils.PatchedFile) :
  Utils.sort_hunks files
  = (Utils.concat_str
       (map Utils.diff
          (filter (fun h => negb (PyStr.contains "test" (Utils.path h)
                                  || PyStr.contains "e2e" (Utils.path h)))
             files)),
     Utils.concat_str
       (map Utils.diff
          (filter (fun h => PyStr.contains "test" (Utils.path h)
                            || PyStr.contains "e2e" (Utils.path h))
             files))).
Proof.
  unfold Utils.sort_hunks. rewrite UtilsFacts.sort_hunks_from. cbn [append].
  f_equal; f_equal; f_equal; apply filter_ext; intros h;
    now rewrite UtilsFacts.is_test_two_words.
Qed.



(** X17.  For a repository other than django,
    [extract_problem_statement_and_hints] returns only when at least one
    of the resolved issues is found: [commit_urls] is bound inside the
    loop, so with no issue found (also with no resolved issue at all) the
    [return] raises UnboundLocalError. *)
Theorem statement_needs_a_found_issue
  (timestamp mktime : string -> outcome Q)
  (D : Type) (django : Utils.Pull -> Utils.Repo -> outcome D)
  (pull : Utils.Pull) (repo : Utils.Repo) :
  Utils.name repo <> "django" ->
  Utils.found pull repo = [] ->
  Utils.extract_problem_statement_and_hints timestamp mktime django pull repo
  = Raise (Foreign "UnboundLocalError" true).
Proof.
  intros Hname Hfound. unfold Utils.extract_problem_statement_and_hints.
  destruct (String.eqb (Utils.name repo) "django") eqn:E;
    [apply String.eqb_eq in E; contradiction|].
  rewrite UtilsFacts.gather_none by exact Hfound.
  reflexivity.
Qed.

Lemma statement_needs_a_found_issue_witness :
  Utils.extract_problem_statement_and_hints
    (fun _ => Return 0%Q) (fun _ => Return 0%Q)
    (fun _ _ => @Raise unit (Foreign "NotImplementedError" true))
    {| Utils.pull_number := 7; Utils.resolved_issues := [3; 4]%Z |}
    {| Utils.name := "flask";
       Utils.get_issue := fun _ => None;
       Utils.get_pull_commits := fun _ => [];
       Utils.get_issue_comments := fun _ => [] |}
  = Raise (Foreign "UnboundLocalError" true).
Proof.
  apply statement_needs_a_found_issue; [discriminate|reflexivity].
Defined.

(** X18.  For a repository other than django, with an issue found and
    dates that the two library calls can read, the function returns: the
    assertion of [_extract_hints] never fails.  The three texts are made
    issue by issue in the order of the resolved issues, skipping those not
    found: title and body; the comments whose [updatedAt], read by
    [time.mktime(time.strptime(...))] as a time of the local zone, is
    below the timestamp of the first commit of the pull; all comments.
    The commit urls do not depend on the issues, they are those of the
    pull. *)
Theorem statement_gathers_the_found_issues
  (timestamp mktime : string -> outcome Q)
  (D : Type) (django : Utils.Pull -> Utils.Repo -> outcome D)
  (pull : Utils.Pull) (repo : Utils.Repo) :
  Utils.name repo <> "django" ->
  Utils.found pull repo <> [] ->
  Utils.dates_readable timestamp mktime pull repo ->
  Utils.extract_problem_statement_and_hints timestamp mktime django pull repo
  = Return
      (Utils.Gathered
         (Utils.concat_str
            (map (fun i => Utils.or_empty (Utils.title i) ++ nl
                           ++ Utils.or_empty (Utils.body_text i) ++ nl)%string
               (Utils.found pull repo)))
         (Utils.concat_str
            (map (fun i => fst (Utils.hints_of timestamp mktime pull repo i)
                           ++ nl ++ nl)%string
               (Utils.found pull repo)))
         (Utils.concat_str
            (map (fun i => snd (Utils.hints_of timestamp mktime pull repo i)
                           ++ nl ++ nl)%string
               (Utils.found pull repo)))
         (map Utils.commit_url
            (Utils.get_pull_commits repo (Utils.pull_number pull)))).
Proof.
  intros Hname Hfound Hread.
  unfold Utils.extract_problem_statement_and_hints.
  destruct (String.eqb (Utils.name repo) "django") eqn:E;
    [apply String.eqb_eq in E; contradiction|].
  rewrite UtilsFacts.gather_from by exact Hread. cbn zeta.
  unfold Utils.found in *.
  destruct (flat_map _ (Utils.resolved_issues pull)) as [|i fs];
    [contradiction|].
  reflexivity.
Qed.

Lemma statement_gathers_the_found_issues_witness :
  Utils.extract_problem_statement_and_hints toy_timestamp toy_mktime
    (fun _ _ => @Raise unit (Foreign "NotImplementedError" true))
    {| Utils.pull_number := 7; Utils.resolved_issues := [3; 4]%Z |}
    {| Utils.name := "flask";
       Utils.get_issue :=
         fun n => if (n =? 4)%Z
                  then Some {| Utils.title := Some "Crash on start";
                               Utils.body_text := None;
                               Utils.number := 4 |}
                  else None;
       Utils.get_pull_commits :=
         fun _ => [{| Utils.commit_url := "https://example.org/c/1";
                      Utils.date := "2024-01-01T12:00:00Z" |}];
       Utils.get_issue_comments :=
         fun _ => [{| Utils.updatedAt := "2024-01-01T11:00:00Z";
                      Utils.comment_body := "same here" |};
                   {| Utils.updatedAt := "2024-01-01T13:00:00Z";
                      Utils.comment_body := "fixed by the pull" |};
                   {| Utils.updatedAt := "2024-01-01T15:00:00Z";
                      Utils.comment_body := "thanks" |}] |}
  = Return
      (Utils.Gathered
         ("Crash on start" ++ nl ++ nl)
         ("same here" ++ nl ++ "fixed by the pull" ++ nl ++ nl)
         ("same here" ++ nl ++ "fixed by the pull" ++ nl ++ "thanks"
            ++ nl ++ nl)
         ["https://example.org/c/1"]).
Proof.
  apply (statement_gathers_the_found_issues toy_timestamp toy_mktime unit
           (fun _ _ => @Raise unit (Foreign "NotImplementedError" true))
           {| Utils.pull_number := 7; Utils.resolved_issues := [3; 4]%Z |}
           {| Utils.name := "flask";
              Utils.get_issue :=
                fun n => if (n =? 4)%Z
                         then Some {| Utils.title := Some "Crash on start";
                                      Utils.body_text := None;
                                      Utils.number := 4 |}
                         else None;
              Utils.get_pull_commits :=
                fun _ => [{| Utils.commit_url := "https://example.org/c/1";
                             Utils.date := "2024-01-01T12:00:00Z" |}];
              Utils.get_issue_comments :=
                fun _ => [{| Utils.updatedAt := "2024-01-01T11:00:00Z";
                             Utils.comment_body := "same here" |};
                          {| Utils.updatedAt := "2024-01-01T13:00:00Z";
                             Utils.comment_body := "fixed by the pull" |};
                          {| Utils.updatedAt := "2024-01-01T15:00:00Z";
                             Utils.comment_body := "thanks" |}] |}).
  - discriminate.
  - discriminate.
  - split; [eexists; reflexivity|].
    intros issue comment _ [<-|[<-|[<-|[]]]]; eexists; reflexivity.
Defined.

(** X19.  The logging wrapper never writes over a file: whenever it hands
    back a response with logging on, the folder holds what it held before
    and, behind it, one new file [<n>.md] with the input and the response;
    the response is the one the wrapped function returned. *)
Theorem a_log_is_a_new_file
  (A : Type) (pretty_in : message -> string) (pretty_out : A -> string)
  (d : Logging.folder) (invoke_func : list message -> outcome A)
  (messages : list message) (response : A) :
  Logging.result
    (Logging.wrapper pretty_in pretty_out (Some d) invoke_func messages)
  = Return response ->
  exists n,
    Logging.wrapper pretty_in pretty_out (Some d) invoke_func messages
    = {| Logging.files :=
           Some (d ++ [((Logging.str n ++ ".md")%string,
                        Logging.log_text pretty_in pretty_out messages
                          response)]);
         Logging.invoked := true;
         Logging.result := Return response |}
    /\ ~ In (Logging.str n ++ ".md")%string (map fst d)
    /\ invoke_func messages = Return response.
Proof.
  unfold Logging.wrapper.
  destruct (Logging.log_file (map fst d)) as [p|e] eqn:Hp; [|discriminate].
  destruct (invoke_func messages) as [r|e] eqn:Hr; [|discriminate].
  cbn. intros [= ->].
  destruct (LoggingFacts.log_file_fresh _ _ Hp) as (n & -> & Hfresh).
  exists n. rewrite (LoggingFacts.write_new _ _ _ Hfresh).
  split; [reflexivity|]. split; [assumption|reflexivity].
Qed.

Lemma a_log_is_a_new_file_witness :
  exists n,
    Logging.wrapper msg_content (fun r : string => r)
      (Some [("0.md", "first"); ("notes.txt", ""); ("07.md", "second")])
      (fun _ => Return "pong") [HumanMessage "ping"]
    = {| Logging.files :=
           Some ([("0.md", "first"); ("notes.txt", ""); ("07.md", "second")]
                   ++ [((Logging.str n ++ ".md")%string,
                        Logging.log_text msg_content (fun r : string => r)
                          [HumanMessage "ping"] "pong")]);
         Logging.invoked := true;
         Logging.result := Return "pong" |}
    /\ ~ In (Logging.str n ++ ".md")%string
           (map fst [("0.md", "first"); ("notes.txt", ""); ("07.md", "second")])
    /\ (fun _ : list message => @Return string "pong") [HumanMessage "ping"]
       = Return "pong".
Proof.
  apply (a_log_is_a_new_file string msg_content (fun r : string => r)
           [("0.md", "first"); ("notes.txt", ""); ("07.md", "second")]
           (fun _ => Return "pong") [HumanMessage "ping"] "pong").
  reflexivity.
Defined.



(** X21.  A file in the log folder whose stem passes [isdigit] without
    being a decimal number, as the superscript two does, ends every call
    with the ValueError of [int]: the wrapped function is not called and
    nothing is written. *)
Theorem unreadable_log_number_blocks_the_call
  (A : Type) (pretty_in : message -> string) (pretty_out : A -> string)
  (d : Logging.folder) (invoke_func : list message -> outcome A)
  (messages : list message) (name st : string) :
  In name (map fst d) ->
  Logging.stem name = Return st ->
  Logging.isdigit st = true ->
  Logging.int st = Raise (Foreign "ValueError" true) ->
  Logging.wrapper pretty_in pretty_out (Some d) invoke_func messages
  = {| Logging.files := Some d;
       Logging.invoked := false;
       Logging.result := Raise (Foreign "ValueError" true) |}.
Proof.
  intros Hin Hst Hdigit Hint. rewrite LoggingFacts.stem_eq in Hst.
  injection Hst as <-.
  unfold Logging.wrapper, Logging.log_file.
  rewrite LoggingFacts.existing_files_eq.
  rewrite (LoggingFacts.existing_numbers_raise _ name); [reflexivity| |assumption].
  apply filter_In. split; assumption.
Qed.

Lemma unreadable_log_number_blocks_the_call_witness :
  Logging.wrapper msg_content (fun r : string => r)
    (Some [("0.md", "first");
           (String (ascii_of_nat 178) ".md", "second")])
    (fun _ => Return "pong") [HumanMessage "ping"]
  = {| Logging.files :=
         Some [("0.md", "first");
               (String (ascii_of_nat 178) ".md", "second")];
       Logging.invoked := false;
       Logging.result := Raise (Foreign "ValueError" true) |}.
Proof.
  apply (unreadable_log_number_blocks_the_call string msg_content
           (fun r : string => r)
           [("0.md", "first"); (String (ascii_of_nat 178) ".md", "second")]
           (fun _ => Return "pong") [HumanMessage "ping"]
           (String (ascii_of_nat 178) ".md")
           (String (ascii_of_nat 178) "")).
  - right. left. reflexivity.
  - reflexivity.
  - reflexivity.
  - reflexivity.
Defined.

(** X22.  Let the two outputs be different files, none of them among the
    [*.jsonl] files of the folder, let both open for writing, and let
    every input file be read to its end.  When no line is JSON of another
    kind than an object, the merge returns [True] and has sorted the lines
    by their classification: each output holds, stripped and with a
    newline, the lines that are objects whose [classification] is the
    string of that output, in the order of the sorted files and of the
    lines in them.  Blank lines, lines that are no JSON and objects of any
    other classification (or none) are in neither. *)
Theorem merge_sorts_the_lines
  (json_loads : string -> outcome Merge.json)
  (open_w : string -> option exn)
  (files : list Merge.jsonl_file) (security_file efficiency_file : string) :
  files <> [] ->
  security_file <> efficiency_file ->
  open_w security_file = None ->
  open_w efficiency_file = None ->
  Forall (Merge.plain security_file efficiency_file) files ->
  forallb (Merge.passes json_loads) (Merge.all_lines files) = true ->
  Merge.merge_jsonl_files json_loads open_w (Merge.Directory files)
    security_file efficiency_file
  = Some ({| Merge.security :=
               Some (Merge.written json_loads "Security"
                       (Merge.all_lines files));
             Merge.efficiency :=
               Some (Merge.written json_loads "Efficiency"
                       (Merge.all_lines files)) |},
          Return true).
Proof.
  intros Hne Hdiff Hs He Hplain Hpass. unfold Merge.merge_jsonl_files.
  destruct files as [|inf files]; [contradiction|].
  destruct (String.eqb_spec security_file efficiency_file);
    [contradiction|].
  rewrite Hs, He.
  rewrite (MergeFacts.merge_files_plain json_loads _ _ _ _ Hplain).
  rewrite (MergeFacts.merge_lines_pass json_loads _ _ Hpass).
  reflexivity.
Qed.

Lemma merge_sorts_the_lines_witness :
  Merge.merge_jsonl_files toy_loads (fun _ => None)
    (Merge.Directory
       [{| Merge.path := "tasks/a.jsonl";
           Merge.opened :=
             Return {| Merge.lines :=
                         [("sec" ++ nl)%string; nl; ("eff" ++ nl)%string];
                       Merge.failure := None |} |};
        {| Merge.path := "tasks/b.jsonl";
           Merge.opened :=
             Return {| Merge.lines := [("{oops" ++ nl)%string; " sec "];
                       Merge.failure := None |} |}])
    "out/security.jsonl" "out/efficiency.jsonl"
  = Some ({| Merge.security :=
               Some [("sec" ++ nl)%string; ("sec" ++ nl)%string];
             Merge.efficiency := Some [("eff" ++ nl)%string] |},
          Return true).
Proof.
  apply (merge_sorts_the_lines toy_loads (fun _ => None)
           [{| Merge.path := "tasks/a.jsonl";
               Merge.opened :=
                 Return {| Merge.lines :=
                             [("sec" ++ nl)%string; nl; ("eff" ++ nl)%string];
                           Merge.failure := None |} |};
            {| Merge.path := "tasks/b.jsonl";
               Merge.opened :=
                 Return {| Merge.lines := [("{oops" ++ nl)%string; " sec "];
                           Merge.failure := None |} |}]
           "out/security.jsonl" "out/efficiency.jsonl").
  - discriminate.
  - discriminate.
  - reflexivity.
  - reflexivity.
  - repeat constructor; try discriminate; eexists; reflexivity.
  - vm_compute. reflexivity.
Defined.

(** X23.  Under the same conditions on the files, a line that is no JSON
    is skipped, a line that is JSON and no object is not: [get] is missing
    on it, the AttributeError is caught by the outer handler, and the
    merge returns [False].  The outputs are left with what the lines
    before it have contributed; the lines after it are not sorted. *)
Theorem merge_stops_at_json_that_is_no_object
  (json_loads : string -> outcome Merge.json)
  (open_w : string -> option exn)
  (files : list Merge.jsonl_file) (security_file efficiency_file : string)
  (pre post : list string) (bad : string) :
  security_file <> efficiency_file ->
  open_w security_file = None ->
  open_w efficiency_file = None ->
  Forall (Merge.plain security_file efficiency_file) files ->
  Merge.all_lines files = pre ++ bad :: post ->
  forallb (Merge.passes json_loads) pre = true ->
  PyStr.strip bad <> "" ->
  json_loads (PyStr.strip bad) = Return Merge.JOther ->
  Merge.merge_jsonl_files json_loads open_w (Merge.Directory files)
    security_file efficiency_file
  = Some ({| Merge.security :=
               Some (Merge.written json_loads "Security" pre);
             Merge.efficiency :=
               Some (Merge.written json_loads "Efficiency" pre) |},
          Return false).
Proof.
  intros Hdiff Hs He Hplain Hcat Hpre Hblank Hbad.
  unfold Merge.merge_jsonl_files.
  destruct files as [|inf files]; [now destruct pre|].
  destruct (String.eqb_spec security_file efficiency_file);
    [contradiction|].
  rewrite Hs, He.
  rewrite (MergeFacts.merge_files_plain json_loads _ _ _ _ Hplain), Hcat.
  assert (Hfail : Merge.passes json_loads bad = false).
  { unfold Merge.passes. rewrite Hbad.
    destruct (String.eqb_spec (PyStr.strip bad) ""); [contradiction|reflexivity]. }
  destruct (MergeFacts.merge_lines_abort json_loads pre post bad
              {| Merge.sec_outf := []; Merge.eff_outf := [] |} Hpre Hfail)
    as (e & -> & Hder).
  cbn [Merge.sec_outf Merge.eff_outf app]. unfold Merge.during_merge.
  destruct (derives_Exception e) eqn:Hd; [reflexivity|].
  rewrite Hbad in Hder. now specialize (Hder eq_refl).
Qed.

Lemma merge_stops_at_json_that_is_no_object_witness :
  Merge.merge_jsonl_files toy_loads (fun _ => None)
    (Merge.Directory
       [{| Merge.path := "tasks/a.jsonl";
           Merge.opened :=
             Return {| Merge.lines :=
                         [("sec" ++ nl)%string; ("{oops" ++ nl)%string];
                       Merge.failure := None |} |};
        {| Merge.path := "tasks/b.jsonl";
           Merge.opened :=
             Return {| Merge.lines :=
                         [("[]" ++ nl)%string; ("eff" ++ nl)%string];
                       Merge.failure := None |} |}])
    "out/security.jsonl" "out/efficiency.jsonl"
  = Some ({| Merge.security :=
               Some (Merge.written toy_loads "Security"
                       [("sec" ++ nl)%string; ("{oops" ++ nl)%string]);
             Merge.efficiency :=
               Some (Merge.written toy_loads "Efficiency"
                       [("sec" ++ nl)%string; ("{oops" ++ nl)%string]) |},
          Return false).
Proof.
  apply (merge_stops_at_json_that_is_no_object toy_loads (fun _ => None)
           [{| Merge.path := "tasks/a.jsonl";
               Merge.opened :=
                 Return {| Merge.lines :=
                             [("sec" ++ nl)%string; ("{oops" ++ nl)%string];
                           Merge.failure := None |} |};
            {| Merge.path := "tasks/b.jsonl";
               Merge.opened :=
                 Return {| Merge.lines :=
                             [("[]" ++ nl)%string; ("eff" ++ nl)%string];
                           Merge.failure := None |} |}]
           "out/security.jsonl" "out/efficiency.jsonl"
           [("sec" ++ nl)%string; ("{oops" ++ nl)%string]
           [("eff" ++ nl)%string] ("[]" ++ nl)%string).
  - discriminate.
  - reflexivity.
  - reflexivity.
  - repeat constructor; try discriminate; eexists; reflexivity.
  - reflexivity.
  - vm_compute. reflexivity.
  - vm_compute. discriminate.
  - vm_compute. reflexivity.
Defined.

(** X24.  The outputs are opened, and so emptied, after the folder has
    been listed and before any file is read.  An output that is the one
    [*.jsonl] file of the folder, and can be opened for reading, therefore
    loses what it held: it is read as an empty file, whatever its lines
    were, both outputs end up empty and the merge returns [True]. *)
Theorem output_in_the_folder_is_emptied
  (json_loads : string -> outcome Merge.json)
  (open_w : string -> option exn)
  (f : Merge.jsonl_file) (security_file efficiency_file : string) :
  security_file <> efficiency_file ->
  open_w security_file = None ->
  open_w efficiency_file = None ->
  Merge.path f = security_file \/ Merge.path f = efficiency_file ->
  (exists r, Merge.opened f = Return r) ->
  Merge.merge_jsonl_files json_loads open_w (Merge.Directory [f])
    security_file efficiency_file
  = Some ({| Merge.security := Some []; Merge.efficiency := Some [] |},
          Return true).
Proof.
  intros Hdiff Hs He Hpath (r & Hr). unfold Merge.merge_jsonl_files.
  destruct (String.eqb_spec security_file efficiency_file);
    [contradiction|].
  rewrite Hs, He. cbn [Merge.merge_files]. unfold Merge.read_input.
  cbn [Merge.sec_outf Merge.eff_outf]. unfold Merge.emptied. rewrite Hr.
  destruct (String.eqb_spec (Merge.path f) security_file) as [E|E].
  - reflexivity.
  - destruct Hpath as [Hp|Hp]; [contradiction|].
    destruct (String.eqb_spec (Merge.path f) efficiency_file);
      [reflexivity|contradiction].
Qed.

Lemma output_in_the_folder_is_emptied_witness :
  Merge.merge_jsonl_files toy_loads (fun _ => None)
    (Merge.Directory
       [{| Merge.path := "out/efficiency.jsonl";
           Merge.opened :=
             Return {| Merge.lines := [("eff" ++ nl)%string];
                       Merge.failure := None |} |}])
    "out/security.jsonl" "out/efficiency.jsonl"
  = Some ({| Merge.security := Some []; Merge.efficiency := Some [] |},
          Return true).
Proof.
  apply (output_in_the_folder_is_emptied toy_loads (fun _ => None)
           {| Merge.path := "out/efficiency.jsonl";
              Merge.opened :=
                Return {| Merge.lines := [("eff" ++ nl)%string];
                          Merge.failure := None |} |}
           "out/security.jsonl" "out/efficiency.jsonl").
  - discriminate.
  - reflexivity.
  - reflexivity.
  - right. reflexivity.
  - eexists. reflexivity.
Defined.

End Extras.
